(** * A shallow embedding of [interface_lib/src/device_imu.c]

    The driver talks to the IMU of a head-mounted display over a HID
    transport.  This development embeds the framing protocol
    ([send_payload], [recv_payload], [send_payload_msg], [recv_payload_msg]),
    the byte codecs, the magnetometer iron estimator, the streaming read
    ([device_imu_read]), the stationary calibration ([device_imu_calibrate])
    and the open sequence ([device_imu_open]).

    Conventions of the model:
    - a byte is a [Z] in [0, 255]; a C buffer is a [list Z];
    - C [float] is IEEE-754 binary32, C [double] is binary64, both taken
      from the Standard Library's [SpecFloat] (exact, rounding to nearest);
    - the host is little-endian (as on every platform the driver targets),
      so [htole16], [htole32] and [le64toh] are the identity on the stored
      bytes;
    - the collaborators the file only calls (hidapi, json-c, the checksum,
      the Fusion library) are the fields of the interface [Ext];
    - the transport is a script of replies, consumed one per [hid_write]
      or [hid_read]; every call is recorded in a log together with the
      callback invocations. *)

From Stdlib Require Import String ZArith List Bool Lia FunctionalExtensionality.
From Stdlib Require Import Floats.SpecFloat Btauto.
Import ListNotations.
Open Scope Z_scope.

(* ------------------------------------------------------------------ *)
(** ** Bytes and fixed-width integers *)

Definition to_uint8 (z : Z) : Z := z mod 2 ^ 8.
Definition to_uint16 (z : Z) : Z := z mod 2 ^ 16.
Definition to_uint32 (z : Z) : Z := z mod 2 ^ 32.
Definition to_uint64 (z : Z) : Z := z mod 2 ^ 64.

(** Two's-complement reinterpretation, as [(int16_t)] and [(int32_t)]
    casts of an unsigned value do with gcc and clang. *)
Definition to_int16 (z : Z) : Z :=
  let u := to_uint16 z in if u <? 2 ^ 15 then u else u - 2 ^ 16.
Definition to_int32 (z : Z) : Z :=
  let u := to_uint32 z in if u <? 2 ^ 31 then u else u - 2 ^ 32.

Definition byte_at (data : list Z) (i : nat) : Z := nth i data 0.

(** Little-endian encodings of a 16- and a 32-bit field. *)
Definition le16 (v : Z) : list Z :=
  [Z.land v 255; Z.land (Z.shiftr v 8) 255].
Definition le32 (v : Z) : list Z :=
  [Z.land v 255; Z.land (Z.shiftr v 8) 255;
   Z.land (Z.shiftr v 16) 255; Z.land (Z.shiftr v 24) 255].

Definition le_value (bs : list Z) : Z :=
  fold_right (fun b acc => b + 256 * acc) 0 bs.

(** [memcpy(buf + off, bs, length bs)] on a buffer, and the bytes
    [buf[off .. off + n - 1]]. *)
Definition set_bytes (off : nat) (bs buf : list Z) : list Z :=
  firstn off buf ++ bs ++ skipn (off + length bs) buf.
Definition get_bytes (off n : nat) (buf : list Z) : list Z :=
  firstn n (skipn off buf).

(* ------------------------------------------------------------------ *)
(** ** Bit-packing codecs (lines 462-491) *)

Definition pack32bit_signed (data : list Z) : Z :=
  let unsigned_value :=
    to_uint32 (Z.lor (Z.lor (Z.lor (byte_at data 0)
                                     (Z.shiftl (byte_at data 1) 8))
                              (Z.shiftl (byte_at data 2) 16))
                      (Z.shiftl (byte_at data 3) 24)) in
  to_int32 unsigned_value.

Definition pack24bit_signed (data : list Z) : Z :=
  let unsigned_value :=
    Z.lor (Z.lor (byte_at data 0) (Z.shiftl (byte_at data 1) 8))
          (Z.shiftl (byte_at data 2) 16) in
  let unsigned_value :=
    if negb (Z.land (byte_at data 2) 128 =? 0)
    then Z.lor unsigned_value (Z.shiftl 255 24) else unsigned_value in
  to_int32 (to_uint32 unsigned_value).

Definition pack16bit_signed (data : list Z) : Z :=
  let unsigned_value :=
    to_uint16 (Z.lor (Z.shiftl (byte_at data 1) 8) (byte_at data 0)) in
  to_int16 unsigned_value.

Definition pack32bit_signed_swap (data : list Z) : Z :=
  let unsigned_value :=
    to_uint32 (Z.lor (Z.lor (Z.lor (Z.shiftl (byte_at data 0) 24)
                                     (Z.shiftl (byte_at data 1) 16))
                              (Z.shiftl (byte_at data 2) 8))
                      (byte_at data 3)) in
  to_int32 unsigned_value.

Definition pack16bit_signed_swap (data : list Z) : Z :=
  let unsigned_value :=
    to_uint16 (Z.lor (Z.shiftl (byte_at data 0) 8) (byte_at data 1)) in
  to_int16 unsigned_value.

Definition pack16bit_signed_bizarre (data : list Z) : Z :=
  let unsigned_value :=
    to_uint16 (Z.lor (byte_at data 0)
                     (Z.shiftl (Z.lxor (byte_at data 1) 128) 8)) in
  to_int16 unsigned_value.

(* ------------------------------------------------------------------ *)
(** ** Floating point

    [float] is binary32 (24 bits of precision, [emax = 128]); [double] is
    binary64.  Comparisons are IEEE comparisons: false on a NaN. *)

Definition float := spec_float.
Definition prec32 : Z := 24.
Definition emax32 : Z := 128.
Definition prec64 : Z := 53.
Definition emax64 : Z := 1024.

Definition f_add (x y : float) : float := SFadd prec32 emax32 x y.
Definition f_sub (x y : float) : float := SFsub prec32 emax32 x y.
Definition f_mul (x y : float) : float := SFmul prec32 emax32 x y.
Definition f_div (x y : float) : float := SFdiv prec32 emax32 x y.
Definition f_lt (x y : float) : bool := SFltb x y.

(** [(float) n] for an integer [n]. *)
Definition f_of_Z (n : Z) : float := binary_normalize prec32 emax32 n 0 false.
Definition d_of_Z (n : Z) : spec_float := binary_normalize prec64 emax64 n 0 false.
Definition d_div (x y : spec_float) : spec_float := SFdiv prec64 emax64 x y.

(** [(float) d] for a [double] [d]: rounding to binary32. *)
Definition float_of_double (d : spec_float) : float :=
  match d with
  | S754_finite s m e => binary_round prec32 emax32 s m e
  | other => other
  end.

Definition isnan (x : float) : bool :=
  match x with S754_nan => true | _ => false end.
Definition isinf (x : float) : bool :=
  match x with S754_infinity _ => true | _ => false end.

(** Decimal literals [p/q] rounded once to the nearest binary32, as the C
    compiler does for [132.48f]. *)
Definition f_lit (p q : Z) : float := f_div (f_of_Z p) (f_of_Z q).

Definition f_zero : float := S754_zero false.
Definition f_one : float := f_of_Z 1.
Definition f_two : float := f_of_Z 2.

(** [FLT_MIN] is the smallest positive normal binary32, [2^-126];
    [FLT_MAX] is [(2^24 - 1) * 2^104]. *)
Definition FLT_MIN : float := binary_normalize prec32 emax32 1 (-126) false.
Definition FLT_MAX : float :=
  binary_normalize prec32 emax32 (2 ^ 24 - 1) 104 false.
Definition GRAVITY_G : float := f_lit 9806 1000.

(* ------------------------------------------------------------------ *)
(** ** Fusion library data types

    [FusionVector], [FusionMatrix] and [FusionQuaternion] are unions of an
    array and named elements in Fusion; the named view is enough here. *)

Record FusionVector := mkVector { vx : float; vy : float; vz : float }.

Record FusionMatrix := mkMatrix {
  xx : float; xy : float; xz : float;
  yx : float; yy : float; yz : float;
  zx : float; zy : float; zz : float }.

Record FusionQuaternion := mkQuaternion {
  qw : float; qx : float; qy : float; qz : float }.

Definition FUSION_VECTOR_ZERO : FusionVector := mkVector f_zero f_zero f_zero.
Definition FUSION_VECTOR_ONES : FusionVector := mkVector f_one f_one f_one.
Definition FUSION_IDENTITY_MATRIX : FusionMatrix :=
  mkMatrix f_one f_zero f_zero f_zero f_one f_zero f_zero f_zero f_one.
Definition FUSION_IDENTITY_QUATERNION : FusionQuaternion :=
  mkQuaternion f_one f_zero f_zero f_zero.

Inductive FusionAxesAlignment := FusionAxesAlignmentNXNZNY | FusionAxesAlignmentPZPXPY.

Inductive FusionConvention := FusionConventionNwu | FusionConventionEnu | FusionConventionNed.

Record FusionAhrsSettings := mkAhrsSettings {
  convention : FusionConvention;
  gain : float;
  accelerationRejection : float;
  magneticRejection : float;
  recoveryTriggerPeriod : Z }.

(** [struct device_imu_calibration_t] (lines 51-68). *)
Record device_imu_calibration_type := mkCalibration {
  gyroscopeMisalignment : FusionMatrix;
  gyroscopeSensitivity : FusionVector;
  gyroscopeOffset : FusionVector;
  accelerometerMisalignment : FusionMatrix;
  accelerometerSensitivity : FusionVector;
  accelerometerOffset : FusionVector;
  magnetometerMisalignment : FusionMatrix;
  magnetometerSensitivity : FusionVector;
  magnetometerOffset : FusionVector;
  softIronMatrix : FusionMatrix;
  hardIronOffset : FusionVector;
  noises : FusionQuaternion }.

(** Error codes and events of [device_imu.h]. *)
Inductive device_imu_error_type :=
| DEVICE_IMU_ERROR_NO_ERROR
| DEVICE_IMU_ERROR_NO_DEVICE
| DEVICE_IMU_ERROR_NOT_INITIALIZED
| DEVICE_IMU_ERROR_NO_HANDLE
| DEVICE_IMU_ERROR_NO_ALLOCATION
| DEVICE_IMU_ERROR_NO_CALLBACK
| DEVICE_IMU_ERROR_PAYLOAD_FAILED
| DEVICE_IMU_ERROR_FILE_NOT_OPEN
| DEVICE_IMU_ERROR_FILE_NOT_CLOSED
| DEVICE_IMU_ERROR_LOADING_FAILED
| DEVICE_IMU_ERROR_SAVING_FAILED
| DEVICE_IMU_ERROR_UNPLUGGED
| DEVICE_IMU_ERROR_UNEXPECTED
| DEVICE_IMU_ERROR_WRONG_SIGNATURE
| DEVICE_IMU_ERROR_INVALID_VALUE
| DEVICE_IMU_ERROR_WRONG_SIZE.

Inductive device_imu_event_type := DEVICE_IMU_EVENT_UNKNOWN | DEVICE_IMU_EVENT_INIT | DEVICE_IMU_EVENT_UPDATE.

(** Modelled from the spec: the message ids are declared in
    [device_imu.h], which is not under src/.  The spec names them
    abstractly (start/stop streaming, get static id, get calibration
    length, get next calibration segment); the model only needs them to be
    distinct bytes. *)
Definition DEVICE_IMU_MSG_GET_CAL_DATA_LENGTH : Z := 20.
Definition DEVICE_IMU_MSG_CAL_DATA_GET_NEXT_SEGMENT : Z := 21.
Definition DEVICE_IMU_MSG_START_IMU_DATA : Z := 25.
Definition DEVICE_IMU_MSG_GET_STATIC_ID : Z := 26.

Definition MAX_PACKET_SIZE : Z := 64.

(** Modelled from the spec: [sizeof(device_imu_packet_type)], declared in
    [device_imu.h] (not under src/); the spec fixes the raw sample frame at
    64 bytes. *)
Definition sizeof_device_imu_packet_type : Z := 64.

(* ------------------------------------------------------------------ *)
(** ** The collaborators the file calls

    hidapi is the transport of the world below; the rest (json-c, the
    checksum primitive, the Fusion library and its engines, and the
    contents of fresh [malloc] blocks) is this interface. *)

Class Ext := {
  crc32_checksum : list Z -> Z;

  json_object : Type;
  json_tokener_parse_ex : list Z -> option json_object;
  json_object_object_get : option json_object -> string -> option json_object;
  json_object_is_array : option json_object -> bool;
  json_object_array_length : option json_object -> Z;
  json_object_array_get_idx : option json_object -> Z -> option json_object;
  json_object_get_double : option json_object -> spec_float;

  FusionVectorAdd : FusionVector -> FusionVector -> FusionVector;
  FusionVectorSubtract : FusionVector -> FusionVector -> FusionVector;
  FusionVectorMultiplyScalar : FusionVector -> float -> FusionVector;
  FusionRadiansToDegrees : float -> float;
  FusionDegreesToRadians : float -> float;
  FusionAxesSwap : FusionVector -> FusionAxesAlignment -> FusionVector;
  FusionCalibrationInertial :
    FusionVector -> FusionMatrix -> FusionVector -> FusionVector -> FusionVector;
  FusionCalibrationMagnetic : FusionVector -> FusionMatrix -> FusionVector -> FusionVector;
  FusionQuaternionMultiply : FusionQuaternion -> FusionQuaternion -> FusionQuaternion;
  FusionQuaternionToMatrix : FusionQuaternion -> FusionMatrix;

  FusionOffset : Type;
  FusionOffsetInitialise : Z -> FusionOffset;
  FusionOffsetUpdate : FusionOffset -> FusionVector -> FusionOffset * FusionVector;

  FusionAhrs : Type;
  FusionAhrsInitialise : FusionAhrs;
  FusionAhrsSetSettings : FusionAhrs -> FusionAhrsSettings -> FusionAhrs;
  FusionAhrsUpdateNoMagnetometer : FusionAhrs -> FusionVector -> FusionVector -> float -> FusionAhrs;
  FusionAhrsGetQuaternion : FusionAhrs -> FusionQuaternion;

  malloc_contents : Z -> Z
}.

(* ------------------------------------------------------------------ *)
(** ** A concrete instance of the collaborators

    Used to run the model on concrete inputs.  The Fusion helpers follow
    the Fusion library's formulas; json-c rejects every document (the
    buffers the concrete runs parse are never complete JSON); the checksum
    is a fixed stand-in; the drift tracker passes the gyroscope through;
    the AHRS engine integrates the gyroscope into the quaternion without
    normalising it. *)

Definition vec_map2 (f : float -> float -> float) (u v : FusionVector) : FusionVector :=
  mkVector (f (vx u) (vx v)) (f (vy u) (vy v)) (f (vz u) (vz v)).

Definition mat_mul_vec (m : FusionMatrix) (v : FusionVector) : FusionVector :=
  mkVector (f_add (f_add (f_mul (xx m) (vx v)) (f_mul (xy m) (vy v))) (f_mul (xz m) (vz v)))
           (f_add (f_add (f_mul (yx m) (vx v)) (f_mul (yy m) (vy v))) (f_mul (yz m) (vz v)))
           (f_add (f_add (f_mul (zx m) (vx v)) (f_mul (zy m) (vy v))) (f_mul (zz m) (vz v))).

Definition f_neg (x : float) : float := SFopp x.
Definition f_pi : float := f_lit 314159265 100000000.
Definition f_half : float := f_lit 1 2.

Definition demo_axes_swap (v : FusionVector) (a : FusionAxesAlignment) : FusionVector :=
  match a with
  | FusionAxesAlignmentNXNZNY => mkVector (f_neg (vx v)) (f_neg (vz v)) (f_neg (vy v))
  | FusionAxesAlignmentPZPXPY => mkVector (vz v) (vx v) (vy v)
  end.

Definition demo_quaternion_multiply (a b : FusionQuaternion) : FusionQuaternion :=
  mkQuaternion
    (f_sub (f_sub (f_sub (f_mul (qw a) (qw b)) (f_mul (qx a) (qx b))) (f_mul (qy a) (qy b))) (f_mul (qz a) (qz b)))
    (f_sub (f_add (f_add (f_mul (qw a) (qx b)) (f_mul (qx a) (qw b))) (f_mul (qy a) (qz b))) (f_mul (qz a) (qy b)))
    (f_add (f_add (f_sub (f_mul (qw a) (qy b)) (f_mul (qx a) (qz b))) (f_mul (qy a) (qw b))) (f_mul (qz a) (qx b)))
    (f_add (f_sub (f_add (f_mul (qw a) (qz b)) (f_mul (qx a) (qy b))) (f_mul (qy a) (qx b))) (f_mul (qz a) (qw b))).

Definition demo_quaternion_to_matrix (q : FusionQuaternion) : FusionMatrix :=
  let ww := f_mul (qw q) (qw q) in
  let wx := f_mul (qw q) (qx q) in
  let wy := f_mul (qw q) (qy q) in
  let wz := f_mul (qw q) (qz q) in
  let xx' := f_mul (qx q) (qx q) in
  let xy' := f_mul (qx q) (qy q) in
  let xz' := f_mul (qx q) (qz q) in
  let yy' := f_mul (qy q) (qy q) in
  let yz' := f_mul (qy q) (qz q) in
  let zz' := f_mul (qz q) (qz q) in
  mkMatrix (f_mul f_two (f_add (f_sub ww f_half) xx')) (f_mul f_two (f_sub xy' wz))
           (f_mul f_two (f_add xz' wy))
           (f_mul f_two (f_add xy' wz)) (f_mul f_two (f_add (f_sub ww f_half) yy'))
           (f_mul f_two (f_sub yz' wx))
           (f_mul f_two (f_sub xz' wy)) (f_mul f_two (f_add yz' wx))
           (f_mul f_two (f_add (f_sub ww f_half) zz')).

Definition demo_ahrs_update (q : FusionQuaternion) (g _a : FusionVector) (dt : float)
  : FusionQuaternion :=
  mkQuaternion (qw q) (f_add (qx q) (f_mul (vx g) dt)) (f_add (qy q) (f_mul (vy g) dt))
               (f_add (qz q) (f_mul (vz g) dt)).

Definition demo_ext : Ext := {|
  crc32_checksum := fun _ => 0;
  json_object := unit;
  json_tokener_parse_ex := fun _ => None;
  json_object_object_get := fun _ _ => None;
  json_object_is_array := fun _ => false;
  json_object_array_length := fun _ => 0;
  json_object_array_get_idx := fun _ _ => None;
  json_object_get_double := fun _ => S754_zero false;
  FusionVectorAdd := vec_map2 f_add;
  FusionVectorSubtract := vec_map2 f_sub;
  FusionVectorMultiplyScalar := fun v s => mkVector (f_mul (vx v) s) (f_mul (vy v) s) (f_mul (vz v) s);
  FusionRadiansToDegrees := fun r => f_mul r (f_div (f_of_Z 180) f_pi);
  FusionDegreesToRadians := fun d => f_mul d (f_div f_pi (f_of_Z 180));
  FusionAxesSwap := demo_axes_swap;
  FusionCalibrationInertial := fun u m s o => mat_mul_vec m (vec_map2 f_mul (vec_map2 f_sub u o) s);
  FusionCalibrationMagnetic := fun u s h => mat_mul_vec s (vec_map2 f_sub u h);
  FusionQuaternionMultiply := demo_quaternion_multiply;
  FusionQuaternionToMatrix := demo_quaternion_to_matrix;
  FusionOffset := unit;
  FusionOffsetInitialise := fun _ => tt;
  FusionOffsetUpdate := fun o g => (o, g);
  FusionAhrs := FusionQuaternion;
  FusionAhrsInitialise := FUSION_IDENTITY_QUATERNION;
  FusionAhrsSetSettings := fun a _ => a;
  FusionAhrsUpdateNoMagnetometer := demo_ahrs_update;
  FusionAhrsGetQuaternion := fun q => q;
  malloc_contents := fun _ => 0
|}.

(* ------------------------------------------------------------------ *)
(** ** Session and world *)

Section Driver.
Context {E : Ext}.

(** [device_imu_type] (declared in [device_imu.h]): the fields the file
    uses.  [handle] and [callback] stand for non-NULL pointers. *)
Record device_imu_type := mkDevice {
  handle : bool;
  vendor_id : Z;
  product_id : Z;
  callback : bool;
  static_id : Z;
  calibration : option device_imu_calibration_type;
  offset : option FusionOffset;
  ahrs : option FusionAhrs;
  last_timestamp : Z;
  temperature : float }.

(** [memset(device, 0, sizeof(device_imu_type))]. *)
Definition device_zero : device_imu_type :=
  mkDevice false 0 0 false 0 None None None 0 f_zero.

(** One reply of the device side of the transport: the value [hid_write]
    returns, or the report [hid_read] delivers ([None]: [-1]). *)
Inductive reply :=
| RWrite (accepted : Z)
| RRead (report : option (list Z)).

Inductive io_event :=
| IoWrite (bytes : list Z)
| IoRead (requested : Z)
| IoCallback (timestamp : Z) (event : device_imu_event_type).

(** The state a call sees: the transport, the log, the [static] variables
    of the file (the two payload packets, the iron estimator's extrema)
    and the session the [device] pointer designates ([None]: NULL). *)
Record world := mkWorld {
  w_script : list reply;
  w_log : list io_event;
  w_send_packet : list Z;
  w_recv_packet : list Z;
  w_iron_max : FusionVector;
  w_iron_min : FusionVector;
  w_device : option device_imu_type }.

Definition M (A : Type) : Type := world -> A * world.
Definition ret {A} (a : A) : M A := fun w => (a, w).
Definition bind {A B} (m : M A) (k : A -> M B) : M B :=
  fun w => let (a, w') := m w in k a w'.


Notation "x <- c1 ;; c2" := (bind c1 (fun x => c2))
  (at level 61, c1 at next level, right associativity).
Notation "' p <- c1 ;; c2" := (bind c1 (fun x => match x with p => c2 end))
  (at level 61, p pattern, c1 at next level, right associativity).
Notation "c1 ;; c2" := (bind c1 (fun _ => c2))
  (at level 61, right associativity).

Definition get_world : M world := fun w => (w, w).
Definition put_world (w : world) : M unit := fun _ => (tt, w).

Definition set_script (l : list reply) (w : world) : world :=
  mkWorld l (w_log w) (w_send_packet w) (w_recv_packet w)
          (w_iron_max w) (w_iron_min w) (w_device w).
Definition set_log (l : list io_event) (w : world) : world :=
  mkWorld (w_script w) l (w_send_packet w) (w_recv_packet w)
          (w_iron_max w) (w_iron_min w) (w_device w).
Definition set_send_packet (p : list Z) (w : world) : world :=
  mkWorld (w_script w) (w_log w) p (w_recv_packet w)
          (w_iron_max w) (w_iron_min w) (w_device w).
Definition set_recv_packet (p : list Z) (w : world) : world :=
  mkWorld (w_script w) (w_log w) (w_send_packet w) p
          (w_iron_max w) (w_iron_min w) (w_device w).
Definition set_iron (mx mn : FusionVector) (w : world) : world :=
  mkWorld (w_script w) (w_log w) (w_send_packet w) (w_recv_packet w)
          mx mn (w_device w).
Definition set_device (d : option device_imu_type) (w : world) : world :=
  mkWorld (w_script w) (w_log w) (w_send_packet w) (w_recv_packet w)
          (w_iron_max w) (w_iron_min w) d.

Definition modify (f : world -> world) : M unit := fun w => (tt, f w).
Definition log_event (e : io_event) : M unit :=
  modify (fun w => set_log (w_log w ++ [e]) w).

(** Next reply of the transport; an exhausted script is a device that is
    gone, so every later call fails. *)
Definition next_reply : M (option reply) :=
  fun w => match w_script w with
           | [] => (None, w)
           | r :: rest => (Some r, set_script rest w)
           end.

(** [hid_write(handle, data, length)]: the number of bytes the transport
    reports, or -1. *)
Definition hid_write (data : list Z) : M Z :=
  log_event (IoWrite data) ;;
  r <- next_reply ;;
  ret (match r with Some (RWrite t) => t | _ => -1 end).

(** [hid_read(handle, data, length)] and [hid_read_timeout]: the count
    returned, and the bytes written to the start of the buffer.  A report
    longer than [length] is truncated to it, as hidapi does. *)
Definition hid_read (length : Z) : M (Z * list Z) :=
  log_event (IoRead length) ;;
  r <- next_reply ;;
  ret (match r with
       | Some (RRead (Some report)) =>
           let bs := firstn (Z.to_nat length) report in (Z.of_nat (List.length bs), bs)
       | _ => (-1, [])
       end).

Definition hid_read_timeout (length : Z) (timeout : Z) : M (Z * list Z) :=
  hid_read length.

(* ------------------------------------------------------------------ *)
(** ** Framing (lines 72-167) *)

Definition send_payload (size : Z) (payload : list Z) : M bool :=
  let payload_size := if size >? MAX_PACKET_SIZE then MAX_PACKET_SIZE else size in
  transferred <- hid_write (firstn (Z.to_nat payload_size) payload) ;;
  if negb (transferred =? payload_size) then ret false
  else ret (transferred =? size).

(** [recv_payload] also returns the bytes [hid_read] stored at the start
    of the caller's buffer. *)
Definition recv_payload (size : Z) : M (bool * list Z) :=
  let payload_size := if size >? MAX_PACKET_SIZE then MAX_PACKET_SIZE else size in
  ' (transferred, bytes) <- hid_read payload_size ;;
  let transferred := if transferred >=? payload_size then payload_size else transferred in
  if transferred =? 0 then ret (false, bytes)
  else if negb (transferred =? payload_size) then ret (false, bytes)
  else ret (transferred =? size, bytes).

(** The packed [device_imu_payload_packet_t] is a 64-byte buffer:
    [head] at 0, [checksum] at 1-4, [length] at 5-6, [msgid] at 7 and
    [data] at 8-63. *)
Definition packet_length_field (packet : list Z) : Z := le_value (get_bytes 5 2 packet).

Definition send_payload_msg (msgid : Z) (len : Z) (data : list Z) : M bool :=
  w <- get_world ;;
  let packet_len := to_uint16 (3 + len) in
  let payload_len := to_uint16 (5 + packet_len) in
  let packet := w_send_packet w in
  let packet := set_bytes 0 [170] packet in
  let packet := set_bytes 5 (le16 packet_len) packet in
  let packet := set_bytes 7 [msgid] packet in
  let packet := set_bytes 8 (firstn (Z.to_nat len) data) packet in
  let checksum :=
    to_uint32 (crc32_checksum
                 (get_bytes 5 (Z.to_nat (packet_length_field packet)) packet)) in
  let packet := set_bytes 1 (le32 checksum) packet in
  modify (set_send_packet packet) ;;
  send_payload (to_uint8 payload_len) packet.

Definition send_payload_msg_signal (msgid : Z) (signal : Z) : M bool :=
  send_payload_msg msgid 1 [signal].

(** [recv_payload_msg] returns the [len] data bytes it copies to [data]
    on success, and [None] where it returns false. *)
Definition recv_payload_msg (msgid : Z) (len : Z) : M (option (list Z)) :=
  w <- get_world ;;
  let packet := w_recv_packet w in
  let packet := set_bytes 0 [0] packet in
  let packet := set_bytes 5 [0; 0] packet in
  let packet := set_bytes 7 [0] packet in
  let packet_len := to_uint16 (3 + len) in
  let payload_len := to_uint16 (5 + packet_len) in
  ' (ok, bytes) <- recv_payload (to_uint8 payload_len) ;;
  let packet := set_bytes 0 bytes packet in
  modify (set_recv_packet packet) ;;
  if negb ok then ret None
  else if negb (byte_at packet 7 =? msgid) then ret None
  else ret (Some (get_bytes 8 (Z.to_nat len) packet)).


(* ------------------------------------------------------------------ *)
(** ** Session field updates *)

Definition get_device : M device_imu_type :=
  fun w => (match w_device w with Some d => d | None => device_zero end, w).
Definition put_device (d : device_imu_type) : M unit := modify (set_device (Some d)).

Definition with_calibration (c : option device_imu_calibration_type) (d : device_imu_type) :=
  mkDevice (handle d) (vendor_id d) (product_id d) (callback d) (static_id d)
           c (offset d) (ahrs d) (last_timestamp d) (temperature d).
Definition with_static_id (s : Z) (d : device_imu_type) :=
  mkDevice (handle d) (vendor_id d) (product_id d) (callback d) s
           (calibration d) (offset d) (ahrs d) (last_timestamp d) (temperature d).
Definition with_offset (o : option FusionOffset) (d : device_imu_type) :=
  mkDevice (handle d) (vendor_id d) (product_id d) (callback d) (static_id d)
           (calibration d) o (ahrs d) (last_timestamp d) (temperature d).
Definition with_ahrs (a : option FusionAhrs) (d : device_imu_type) :=
  mkDevice (handle d) (vendor_id d) (product_id d) (callback d) (static_id d)
           (calibration d) (offset d) a (last_timestamp d) (temperature d).
Definition with_sample (ts : Z) (t : float) (d : device_imu_type) :=
  mkDevice (handle d) (vendor_id d) (product_id d) (callback d) (static_id d)
           (calibration d) (offset d) (ahrs d) ts t.

Definition with_iron (soft : FusionMatrix) (hard : FusionVector)
           (c : device_imu_calibration_type) : device_imu_calibration_type :=
  mkCalibration (gyroscopeMisalignment c) (gyroscopeSensitivity c) (gyroscopeOffset c)
                (accelerometerMisalignment c) (accelerometerSensitivity c)
                (accelerometerOffset c) (magnetometerMisalignment c)
                (magnetometerSensitivity c) (magnetometerOffset c)
                soft hard (noises c).

(* ------------------------------------------------------------------ *)
(** ** Raw sample frames

    Modelled from the spec: [device_imu_packet_type] is declared in
    [device_imu.h] (not under src/).  Its layout follows the spec's order:
    2-byte signature, 8-byte little-endian timestamp, 2-byte temperature,
    then for gyroscope and accelerometer a 16-bit multiplier, a 32-bit
    divisor and three 24-bit axes, and for the magnetometer a swapped
    16-bit multiplier, a swapped 32-bit divisor and three 16-bit axes;
    the rest up to 64 bytes is padding. *)
Definition pkt_signature (p : list Z) := get_bytes 0 2 p.
Definition pkt_timestamp (p : list Z) := get_bytes 2 8 p.
Definition pkt_temperature (p : list Z) := get_bytes 10 2 p.
Definition pkt_angular_multiplier (p : list Z) := get_bytes 12 2 p.
Definition pkt_angular_divisor (p : list Z) := get_bytes 14 4 p.
Definition pkt_angular_velocity_x (p : list Z) := get_bytes 18 3 p.
Definition pkt_angular_velocity_y (p : list Z) := get_bytes 21 3 p.
Definition pkt_angular_velocity_z (p : list Z) := get_bytes 24 3 p.
Definition pkt_acceleration_multiplier (p : list Z) := get_bytes 27 2 p.
Definition pkt_acceleration_divisor (p : list Z) := get_bytes 29 4 p.
Definition pkt_acceleration_x (p : list Z) := get_bytes 33 3 p.
Definition pkt_acceleration_y (p : list Z) := get_bytes 36 3 p.
Definition pkt_acceleration_z (p : list Z) := get_bytes 39 3 p.
Definition pkt_magnetic_multiplier (p : list Z) := get_bytes 42 2 p.
Definition pkt_magnetic_divisor (p : list Z) := get_bytes 44 4 p.
Definition pkt_magnetic_x (p : list Z) := get_bytes 48 2 p.
Definition pkt_magnetic_y (p : list Z) := get_bytes 50 2 p.
Definition pkt_magnetic_z (p : list Z) := get_bytes 52 2 p.

(** [(float) v * (float) m / (float) d]. *)
Definition scale_axis (v m d : Z) : float := f_div (f_mul (f_of_Z v) (f_of_Z m)) (f_of_Z d).

Definition readIMU_from_packet (packet : list Z)
  : FusionVector * FusionVector * FusionVector :=
  let vel_m := pack16bit_signed (pkt_angular_multiplier packet) in
  let vel_d := pack32bit_signed (pkt_angular_divisor packet) in
  let vel_x := pack24bit_signed (pkt_angular_velocity_x packet) in
  let vel_y := pack24bit_signed (pkt_angular_velocity_y packet) in
  let vel_z := pack24bit_signed (pkt_angular_velocity_z packet) in
  let gyroscope := mkVector (scale_axis vel_x vel_m vel_d)
                            (scale_axis vel_y vel_m vel_d)
                            (scale_axis vel_z vel_m vel_d) in
  let accel_m := pack16bit_signed (pkt_acceleration_multiplier packet) in
  let accel_d := pack32bit_signed (pkt_acceleration_divisor packet) in
  let accel_x := pack24bit_signed (pkt_acceleration_x packet) in
  let accel_y := pack24bit_signed (pkt_acceleration_y packet) in
  let accel_z := pack24bit_signed (pkt_acceleration_z packet) in
  let accelerometer := mkVector (scale_axis accel_x accel_m accel_d)
                                (scale_axis accel_y accel_m accel_d)
                                (scale_axis accel_z accel_m accel_d) in
  let magnet_m := pack16bit_signed_swap (pkt_magnetic_multiplier packet) in
  let magnet_d := pack32bit_signed_swap (pkt_magnetic_divisor packet) in
  let magnet_x := pack16bit_signed_bizarre (pkt_magnetic_x packet) in
  let magnet_y := pack16bit_signed_bizarre (pkt_magnetic_y packet) in
  let magnet_z := pack16bit_signed_bizarre (pkt_magnetic_z packet) in
  let magnetometer := mkVector (scale_axis magnet_x magnet_m magnet_d)
                               (scale_axis magnet_y magnet_m magnet_d)
                               (scale_axis magnet_z magnet_m magnet_d) in
  (gyroscope, accelerometer, magnetometer).

(* ------------------------------------------------------------------ *)
(** ** Calibration model (lines 531-680) *)

(** The [min] and [max] macros of lines 531-532. *)
Definition fmin (x y : float) : float := if f_lt x y then x else y.
Definition fmax (x y : float) : float := if f_lt y x then x else y.

Definition pre_biased_coordinate_system (v : FusionVector) : FusionVector :=
  FusionAxesSwap v FusionAxesAlignmentNXNZNY.
Definition post_biased_coordinate_system (v : FusionVector) : FusionVector :=
  FusionAxesSwap v FusionAxesAlignmentPZPXPY.

(** Initial values of the two [static] vectors of
    [iterate_iron_offset_estimation]. *)
Definition iron_max_init : FusionVector := mkVector FLT_MIN FLT_MIN FLT_MIN.
Definition iron_min_init : FusionVector := mkVector FLT_MAX FLT_MAX FLT_MAX.

(** One step of the estimator on its extrema: the new extrema, and the
    soft-iron matrix and hard-iron offset it writes. *)
Definition iron_step (mx mn m : FusionVector)
  : FusionVector * FusionVector * (FusionMatrix * FusionVector) :=
  let mx := mkVector (fmax (vx mx) (vx m)) (fmax (vy mx) (vy m)) (fmax (vz mx) (vz m)) in
  let mn := mkVector (fmin (vx mn) (vx m)) (fmin (vy mn) (vy m)) (fmin (vz mn) (vz m)) in
  let hx := f_div (f_sub (vx mx) (vx mn)) f_two in
  let hy := f_div (f_sub (vy mx) (vy mn)) f_two in
  let hz := f_div (f_sub (vz mx) (vz mn)) f_two in
  let cx := f_div (f_add (vx mn) (vx mx)) f_two in
  let cy := f_div (f_add (vy mn) (vy mx)) f_two in
  let cz := f_div (f_add (vz mn) (vz mx)) f_two in
  let soft := mkMatrix (f_div f_one hx) f_zero f_zero
                       f_zero (f_div f_one hy) f_zero
                       f_zero f_zero (f_div f_one hz) in
  (mx, mn, (soft, mkVector cx cy cz)).

Definition iterate_iron_offset_estimation (magnetometer : FusionVector)
  : M (FusionMatrix * FusionVector) :=
  w <- get_world ;;
  let '(mx, mn, out) := iron_step (w_iron_max w) (w_iron_min w) magnetometer in
  modify (set_iron mx mn) ;;
  ret out.

Definition default_calibration : device_imu_calibration_type :=
  mkCalibration FUSION_IDENTITY_MATRIX FUSION_VECTOR_ONES FUSION_VECTOR_ZERO
                FUSION_IDENTITY_MATRIX FUSION_VECTOR_ONES FUSION_VECTOR_ZERO
                FUSION_IDENTITY_MATRIX FUSION_VECTOR_ONES FUSION_VECTOR_ZERO
                FUSION_IDENTITY_MATRIX FUSION_VECTOR_ZERO
                (mkQuaternion f_zero (qx FUSION_IDENTITY_QUATERNION)
                              (qy FUSION_IDENTITY_QUATERNION)
                              (qz FUSION_IDENTITY_QUATERNION)).

Definition apply_calibration (d : device_imu_type)
           (gyroscope accelerometer magnetometer : FusionVector)
  : M (FusionVector * FusionVector * FusionVector * device_imu_type) :=
  let c := match calibration d with Some c => c | None => default_calibration end in
  let gyroscopeOffset :=
    FusionVectorMultiplyScalar (gyroscopeOffset c) (FusionRadiansToDegrees f_one) in
  let accelerometerOffset :=
    FusionVectorMultiplyScalar (accelerometerOffset c) (f_div f_one GRAVITY_G) in
  let g := pre_biased_coordinate_system gyroscope in
  let a := pre_biased_coordinate_system accelerometer in
  let m := pre_biased_coordinate_system magnetometer in
  let g := FusionCalibrationInertial g (gyroscopeMisalignment c)
                                       (gyroscopeSensitivity c) gyroscopeOffset in
  let a := FusionCalibrationInertial a (accelerometerMisalignment c)
                                       (accelerometerSensitivity c) accelerometerOffset in
  let m := FusionCalibrationInertial m (magnetometerMisalignment c)
                                       (magnetometerSensitivity c) (magnetometerOffset c) in
  ' (softIronMatrix, hardIronOffset) <- iterate_iron_offset_estimation m ;;
  let d := match calibration d with
           | Some c => with_calibration (Some (with_iron softIronMatrix hardIronOffset c)) d
           | None => d
           end in
  let m := FusionCalibrationMagnetic m softIronMatrix hardIronOffset in
  ret (post_biased_coordinate_system g, post_biased_coordinate_system a,
       post_biased_coordinate_system m, d).

(* ------------------------------------------------------------------ *)
(** ** Streaming read (lines 452-460, 807-907) *)

Definition device_imu_callback (d : device_imu_type) (timestamp : Z)
           (event : device_imu_event_type) : M unit :=
  if callback d then log_event (IoCallback timestamp event) else ret tt.

(** [device_imu_get_orientation]: the [x, y, z, w] fields of
    [device_imu_quat_type] are those of the quaternion. *)
Definition device_imu_get_orientation (a : option FusionAhrs) : FusionQuaternion :=
  match a with
  | Some a => FusionAhrsGetQuaternion a
  | None => FUSION_IDENTITY_QUATERNION
  end.

(** Lines 887-893: the choice of the fusion update. *)
Definition device_imu_fusion_update (a : FusionAhrs)
           (gyroscope accelerometer magnetometer : FusionVector) (deltaTime : float)
  : FusionAhrs :=
  if isnan (vx magnetometer) || isnan (vx magnetometer) || isnan (vx magnetometer)
  then FusionAhrsUpdateNoMagnetometer a gyroscope accelerometer deltaTime
  else FusionAhrsUpdateNoMagnetometer a gyroscope accelerometer deltaTime.

Definition zero_packet : list Z := repeat 0 64.

Definition signature_is (packet : list Z) (s0 s1 : Z) : bool :=
  (byte_at packet 0 =? s0) && (byte_at packet 1 =? s1).

(** The body of [device_imu_read], over the fusion update it performs at
    line 887-893; [device_imu_read] below instantiates it with
    [device_imu_fusion_update]. *)
Definition device_imu_read_with
           (fusion_update : FusionAhrs -> FusionVector -> FusionVector ->
                            FusionVector -> float -> FusionAhrs)
           (timeout : Z) : M device_imu_error_type :=
  w <- get_world ;;
  match w_device w with
  | None => ret DEVICE_IMU_ERROR_NO_DEVICE
  | Some d =>
  if negb (handle d) then ret DEVICE_IMU_ERROR_NO_HANDLE else
  if negb (MAX_PACKET_SIZE =? sizeof_device_imu_packet_type)
  then ret DEVICE_IMU_ERROR_WRONG_SIZE else
  ' (transferred, bytes) <- hid_read_timeout MAX_PACKET_SIZE timeout ;;
  let packet := set_bytes 0 bytes zero_packet in
  if transferred =? -1 then ret DEVICE_IMU_ERROR_UNPLUGGED else
  if transferred =? 0 then ret DEVICE_IMU_ERROR_NO_ERROR else
  if negb (MAX_PACKET_SIZE =? transferred) then ret DEVICE_IMU_ERROR_UNEXPECTED else
  let timestamp := le_value (pkt_timestamp packet) in
  if signature_is packet 170 83 then
    device_imu_callback d timestamp DEVICE_IMU_EVENT_INIT ;;
    ret DEVICE_IMU_ERROR_NO_ERROR
  else
  if negb (signature_is packet 1 2) then ret DEVICE_IMU_ERROR_WRONG_SIGNATURE else
  let delta := to_uint64 (timestamp - last_timestamp d) in
  let deltaTime := float_of_double (d_div (d_of_Z delta) (d_of_Z 1000000000)) in
  let temp := pack16bit_signed (pkt_temperature packet) in
  let d := with_sample timestamp (f_add (f_div (f_of_Z temp) (f_lit 13248 100))
                                        (f_of_Z 25)) d in
  let '(gyroscope, accelerometer, magnetometer) := readIMU_from_packet packet in
  ' (gyroscope, accelerometer, magnetometer, d) <-
    apply_calibration d gyroscope accelerometer magnetometer ;;
  let '(d, gyroscope) :=
    match offset d with
    | Some o => let '(o', g) := FusionOffsetUpdate o gyroscope in (with_offset (Some o') d, g)
    | None => (d, gyroscope)
    end in
  match ahrs d with
  | Some a =>
      let a := fusion_update a gyroscope accelerometer magnetometer deltaTime in
      let d := with_ahrs (Some a) d in
      put_device d ;;
      let orientation := device_imu_get_orientation (Some a) in
      if isnan (qx orientation) || isnan (qy orientation) ||
         isnan (qz orientation) || isnan (qw orientation)
      then ret DEVICE_IMU_ERROR_INVALID_VALUE
      else device_imu_callback d timestamp DEVICE_IMU_EVENT_UPDATE ;;
           ret DEVICE_IMU_ERROR_NO_ERROR
  | None =>
      put_device d ;;
      device_imu_callback d timestamp DEVICE_IMU_EVENT_UPDATE ;;
      ret DEVICE_IMU_ERROR_NO_ERROR
  end
  end.

Definition device_imu_read (timeout : Z) : M device_imu_error_type :=
  device_imu_read_with device_imu_fusion_update timeout.

(** The spec's reading of line 887-893: the magnetometer-free update,
    unconditionally. *)
Definition device_imu_read_no_magnetometer (timeout : Z) : M device_imu_error_type :=
  device_imu_read_with
    (fun a g acc _ dt => FusionAhrsUpdateNoMagnetometer a g acc dt) timeout.

Definition device_imu_clear : M device_imu_error_type := device_imu_read 10.

(* ------------------------------------------------------------------ *)
(** ** Stationary calibration (lines 686-805) *)

(** The locals the loop of [device_imu_calibrate] carries. *)
Record calibrate_locals := mkLocals {
  initialized : bool;
  cal_gyroscope : FusionVector;
  cal_accelerometer : FusionVector;
  prev_accel : FusionVector;
  loc_softIronMatrix : FusionMatrix;
  loc_hardIronOffset : FusionVector }.

(** The loop either returns an error from inside or ends with its
    locals. *)
Inductive calibrate_exit :=
| CalibrateReturn (e : device_imu_error_type)
| CalibrateDone (l : calibrate_locals).

(** The [while (iterations > 0)] loop.  Every iteration calls [hid_read]
    once, which consumes one reply; [fuel] bounds the iterations by the
    replies left, and once the script is exhausted [hid_read] returns -1
    and the loop returns [UNPLUGGED], so the bound is never what ends the
    loop. *)
Fixpoint calibrate_loop (fuel : nat) (iterations : Z) (l : calibrate_locals)
  : M calibrate_exit :=
  match fuel with
  | O => ret (CalibrateReturn DEVICE_IMU_ERROR_UNPLUGGED)
  | S fuel =>
  if negb (iterations >? 0) then ret (CalibrateDone l) else
  ' (transferred, bytes) <- hid_read MAX_PACKET_SIZE ;;
  let packet := set_bytes 0 bytes zero_packet in
  if transferred =? -1 then ret (CalibrateReturn DEVICE_IMU_ERROR_UNPLUGGED) else
  if transferred =? 0 then calibrate_loop fuel iterations l else
  if negb (MAX_PACKET_SIZE =? transferred)
  then ret (CalibrateReturn DEVICE_IMU_ERROR_UNEXPECTED) else
  if negb (signature_is packet 1 2) then calibrate_loop fuel iterations l else
  let '(gyroscope, accelerometer, magnetometer) := readIMU_from_packet packet in
  let gyroscope := pre_biased_coordinate_system gyroscope in
  let accelerometer := pre_biased_coordinate_system accelerometer in
  let magnetometer := pre_biased_coordinate_system magnetometer in
  let '(cg, ca) :=
    if initialized l
    then (FusionVectorAdd (cal_gyroscope l) gyroscope,
          FusionVectorAdd (cal_accelerometer l)
                          (FusionVectorSubtract accelerometer (prev_accel l)))
    else (gyroscope, FUSION_VECTOR_ZERO) in
  ' (soft, hard) <- iterate_iron_offset_estimation magnetometer ;;
  calibrate_loop fuel (iterations - 1)
                 (mkLocals (initialized l) cg ca accelerometer soft hard)
  end.

(** The locals are indeterminate before the loop writes them; they are
    only read when [iterations > 0], after a first frame wrote them. *)
Definition calibrate_locals_init : calibrate_locals :=
  mkLocals false FUSION_VECTOR_ZERO FUSION_VECTOR_ZERO FUSION_VECTOR_ZERO
           FUSION_IDENTITY_MATRIX FUSION_VECTOR_ZERO.

Definition device_imu_calibrate (iterations : Z) (gyro accel magnet : bool)
  : M device_imu_error_type :=
  w <- get_world ;;
  match w_device w with
  | None => ret DEVICE_IMU_ERROR_NO_DEVICE
  | Some d =>
  if negb (handle d) then ret DEVICE_IMU_ERROR_NO_HANDLE else
  match calibration d with
  | None => ret DEVICE_IMU_ERROR_NO_ALLOCATION
  | Some _ =>
  if negb (MAX_PACKET_SIZE =? sizeof_device_imu_packet_type)
  then ret DEVICE_IMU_ERROR_WRONG_SIZE else
  let factor := if iterations >? 0 then f_div f_one (f_of_Z iterations) else f_zero in
  exit <- calibrate_loop (S (List.length (w_script w))) iterations calibrate_locals_init ;;
  match exit with
  | CalibrateReturn e => ret e
  | CalibrateDone l =>
  d <- get_device ;;
  match calibration d with
  | None => ret DEVICE_IMU_ERROR_NO_ERROR
  | Some c =>
  if f_lt f_zero factor then
    let c := if gyro
             then mkCalibration (gyroscopeMisalignment c) (gyroscopeSensitivity c)
                    (FusionVectorAdd (gyroscopeOffset c)
                       (FusionVectorMultiplyScalar (cal_gyroscope l)
                          (FusionDegreesToRadians factor)))
                    (accelerometerMisalignment c) (accelerometerSensitivity c)
                    (accelerometerOffset c) (magnetometerMisalignment c)
                    (magnetometerSensitivity c) (magnetometerOffset c)
                    (softIronMatrix c) (hardIronOffset c) (noises c)
             else c in
    let c := if accel
             then mkCalibration (gyroscopeMisalignment c) (gyroscopeSensitivity c)
                    (gyroscopeOffset c)
                    (accelerometerMisalignment c) (accelerometerSensitivity c)
                    (FusionVectorAdd (accelerometerOffset c)
                       (FusionVectorMultiplyScalar (cal_accelerometer l)
                          (f_mul factor GRAVITY_G)))
                    (magnetometerMisalignment c)
                    (magnetometerSensitivity c) (magnetometerOffset c)
                    (softIronMatrix c) (hardIronOffset c) (noises c)
             else c in
    let c := if magnet then with_iron (loc_softIronMatrix l) (loc_hardIronOffset l) c
             else c in
    put_device (with_calibration (Some c) d) ;;
    ret DEVICE_IMU_ERROR_NO_ERROR
  else ret DEVICE_IMU_ERROR_NO_ERROR
  end
  end
  end
  end.

(* ------------------------------------------------------------------ *)
(** ** Open sequence (lines 169-380) *)

(** [device_imu_reset_calibration].  The C function falls off its end
    without a [return] on success; no caller reads that value, and the
    model returns [NO_ERROR] there. *)
Definition device_imu_reset_calibration : M device_imu_error_type :=
  w <- get_world ;;
  match w_device w with
  | None => ret DEVICE_IMU_ERROR_NO_DEVICE
  | Some d =>
  match calibration d with
  | None => ret DEVICE_IMU_ERROR_NO_ALLOCATION
  | Some _ =>
    put_device (with_calibration (Some default_calibration) d) ;;
    ret DEVICE_IMU_ERROR_NO_ERROR
  end
  end.

Definition json_object_get_vector (obj : option json_object) : FusionVector :=
  if negb (json_object_is_array obj) || negb (json_object_array_length obj =? 3)
  then FUSION_VECTOR_ZERO
  else mkVector
         (float_of_double (json_object_get_double (json_object_array_get_idx obj 0)))
         (float_of_double (json_object_get_double (json_object_array_get_idx obj 1)))
         (float_of_double (json_object_get_double (json_object_array_get_idx obj 2))).

Definition json_object_get_quaternion (obj : option json_object) : FusionQuaternion :=
  if negb (json_object_is_array obj) || negb (json_object_array_length obj =? 4)
  then FUSION_IDENTITY_QUATERNION
  else mkQuaternion
         (float_of_double (json_object_get_double (json_object_array_get_idx obj 3)))
         (float_of_double (json_object_get_double (json_object_array_get_idx obj 0)))
         (float_of_double (json_object_get_double (json_object_array_get_idx obj 1)))
         (float_of_double (json_object_get_double (json_object_array_get_idx obj 2))).

(** The [while (position < calibration_len)] loop of lines 270-285, on
    [position] and the buffer [calibration_data]; it returns both.  Every
    iteration that does not [break] adds [next >= 1] to [position], so
    [calibration_len] iterations are enough: [fuel] never ends the loop
    before its condition does. *)
Fixpoint calibration_download_loop (fuel : nat) (position calibration_len : Z)
         (calibration_data : list Z) : M (Z * list Z) :=
  match fuel with
  | O => ret (position, calibration_data)
  | S fuel =>
  if negb (position <? calibration_len) then ret (position, calibration_data) else
  let remaining := to_uint32 (calibration_len - position) in
  ok <- send_payload_msg DEVICE_IMU_MSG_CAL_DATA_GET_NEXT_SEGMENT 0 [] ;;
  if negb ok then ret (position, calibration_data) else
  let next := to_uint8 (if remaining >? 56 then 56 else remaining) in
  r <- recv_payload_msg DEVICE_IMU_MSG_CAL_DATA_GET_NEXT_SEGMENT next ;;
  match r with
  | None => ret (position, calibration_data)
  | Some segment =>
      calibration_download_loop fuel (to_uint32 (position + next)) calibration_len
        (set_bytes (Z.to_nat position) segment calibration_data)
  end
  end.

(** Lines 289-318: parse the downloaded document and install it. *)
Definition install_calibration (document : list Z) (c : device_imu_calibration_type)
  : device_imu_calibration_type :=
  let root := json_tokener_parse_ex document in
  let imu := json_object_object_get root "IMU" in
  let dev1 := json_object_object_get imu "device_1" in
  let accel_bias := json_object_get_vector (json_object_object_get dev1 "accel_bias") in
  let accel_q_gyro := json_object_get_quaternion (json_object_object_get dev1 "accel_q_gyro") in
  let gyro_bias := json_object_get_vector (json_object_object_get dev1 "gyro_bias") in
  let gyro_q_mag := json_object_get_quaternion (json_object_object_get dev1 "gyro_q_mag") in
  let mag_bias := json_object_get_vector (json_object_object_get dev1 "mag_bias") in
  let imu_noises := json_object_get_quaternion (json_object_object_get dev1 "imu_noises") in
  let scale_accel := json_object_get_vector (json_object_object_get dev1 "scale_accel") in
  let scale_gyro := json_object_get_vector (json_object_object_get dev1 "scale_gyro") in
  let scale_mag := json_object_get_vector (json_object_object_get dev1 "scale_mag") in
  let accel_q_mag := FusionQuaternionMultiply accel_q_gyro gyro_q_mag in
  mkCalibration (FusionQuaternionToMatrix accel_q_gyro) scale_gyro gyro_bias
                FUSION_IDENTITY_MATRIX scale_accel accel_bias
                (FusionQuaternionToMatrix accel_q_mag) scale_mag mag_bias
                (softIronMatrix c) (hardIronOffset c) imu_noises.

(** [malloc(n)]: [n] bytes of indeterminate content. *)
Definition malloc_bytes (n : Z) : list Z := map malloc_contents (map Z.of_nat (seq 0 (Z.to_nat n))).

(** Lines 261-322. *)
Definition open_calibration_download : M (option device_imu_error_type) :=
  ok <- send_payload_msg DEVICE_IMU_MSG_GET_CAL_DATA_LENGTH 0 [] ;;
  if negb ok then ret (Some DEVICE_IMU_ERROR_PAYLOAD_FAILED) else
  r <- recv_payload_msg DEVICE_IMU_MSG_GET_CAL_DATA_LENGTH 4 ;;
  match r with
  | None => ret None
  | Some bytes =>
      let calibration_len := le_value bytes in
      let calibration_data := malloc_bytes (to_uint32 (calibration_len + 1)) in
      ' (_, calibration_data) <-
        calibration_download_loop (Z.to_nat calibration_len) 0 calibration_len
                                  calibration_data ;;
      let calibration_data := set_bytes (Z.to_nat calibration_len) [0] calibration_data in
      d <- get_device ;;
      match calibration d with
      | Some c =>
          put_device (with_calibration
                        (Some (install_calibration
                                 (firstn (Z.to_nat calibration_len) calibration_data) c)) d) ;;
          ret None
      | None => ret None
      end
  end.

Definition SAMPLE_RATE : Z := 1000.

Definition open_settings : FusionAhrsSettings :=
  mkAhrsSettings FusionConventionNed (f_lit 5 10) (f_of_Z 10) (f_of_Z 20) (5 * SAMPLE_RATE).

(** Lines 324-349. *)
Definition open_start_stream : M device_imu_error_type :=
  ok <- send_payload_msg_signal DEVICE_IMU_MSG_START_IMU_DATA 1 ;;
  if negb ok then ret DEVICE_IMU_ERROR_PAYLOAD_FAILED else
  d <- get_device ;;
  let d := with_offset (Some (FusionOffsetInitialise SAMPLE_RATE)) d in
  let d := with_ahrs (Some (FusionAhrsSetSettings FusionAhrsInitialise open_settings)) d in
  put_device d ;;
  ret DEVICE_IMU_ERROR_NO_ERROR.

(** Lines 258-349: everything after the static id. *)
Definition open_after_static_id : M device_imu_error_type :=
  d <- get_device ;;
  put_device (with_calibration (Some default_calibration) d) ;;
  _ <- device_imu_reset_calibration ;;
  r <- open_calibration_download ;;
  match r with
  | Some e => ret e
  | None => open_start_stream
  end.

(** Lines 246-256: the static id exchange; [None] means open goes on. *)
Definition open_static_id : M (option device_imu_error_type) :=
  ok <- send_payload_msg DEVICE_IMU_MSG_GET_STATIC_ID 0 [] ;;
  if negb ok then ret (Some DEVICE_IMU_ERROR_PAYLOAD_FAILED) else
  r <- recv_payload_msg DEVICE_IMU_MSG_GET_STATIC_ID 4 ;;
  d <- get_device ;;
  match r with
  | Some bytes => put_device (with_static_id (le_value bytes) d) ;; ret None
  | None => put_device (with_static_id 0x20220101 d) ;; ret None
  end.

(** Modelled from the spec: [xreal_vendor_id] is declared in [hid_ids.h]
    (not under src/); the spec only says it is fixed. *)
Definition xreal_vendor_id : Z := 13080.

(** [device_imu_open].  [device_init] and the enumeration of hidapi
    devices are transport matters: [device_init_ok] is what [device_init]
    returns and [found] the product id of the first enumerated interface
    that carries the IMU, whose path [hid_open_path] opens. *)
Definition device_imu_open (callback_set device_init_ok : bool) (found : option Z)
  : M device_imu_error_type :=
  w <- get_world ;;
  match w_device w with
  | None => ret DEVICE_IMU_ERROR_NO_DEVICE
  | Some _ =>
  let d := mkDevice false xreal_vendor_id 0 callback_set 0 None None None 0 f_zero in
  put_device d ;;
  if negb device_init_ok then ret DEVICE_IMU_ERROR_NOT_INITIALIZED else
  match found with
  | None => ret DEVICE_IMU_ERROR_NO_HANDLE
  | Some pid =>
  put_device (mkDevice true xreal_vendor_id pid callback_set 0 None None None 0 f_zero) ;;
  ok <- send_payload_msg_signal DEVICE_IMU_MSG_START_IMU_DATA 0 ;;
  if negb ok then ret DEVICE_IMU_ERROR_PAYLOAD_FAILED else
  _ <- device_imu_clear ;;
  r <- open_static_id ;;
  match r with
  | Some e => ret e
  | None => open_after_static_id
  end
  end
  end.
End Driver.

(** The monad's notations, outside the section. *)
Notation "x <- c1 ;; c2" := (bind c1 (fun x => c2))
  (at level 61, c1 at next level, right associativity).
Notation "' p <- c1 ;; c2" := (bind c1 (fun x => match x with p => c2 end))
  (at level 61, p pattern, c1 at next level, right associativity).
Notation "c1 ;; c2" := (bind c1 (fun _ => c2))
  (at level 61, right associativity).

(* ------------------------------------------------------------------ *)
(** ** Definitions the claims are stated with *)

Section Statements.
Context {E : Ext}.

(** The frame of the spec's WireFrame for [msgid] and [payload]: head
    [0xAA], the little-endian checksum of [length ++ msgid ++ data], the
    little-endian length [3 + len], [msgid] and the data. *)
Definition wire_frame (msgid : Z) (payload : list Z) : list Z :=
  let region := le16 (3 + Z.of_nat (length payload)) ++ msgid :: payload in
  170 :: le32 (to_uint32 (crc32_checksum region)) ++ region.

Definition device_calibration (w : world) : option device_imu_calibration_type :=
  match w_device w with Some d => calibration d | None => None end.

(** The estimator of lines 542-568 fed a sequence of samples from given
    extrema; the outputs after the last sample. *)
Fixpoint iron_run (samples : list FusionVector) : M (option (FusionMatrix * FusionVector)) :=
  match samples with
  | [] => ret None
  | m :: rest =>
      out <- iterate_iron_offset_estimation m ;;
      match rest with
      | [] => ret (Some out)
      | _ => iron_run rest
      end
  end.

(** The spec's estimator: extrema of the samples observed, and
    [softIron = diag(1/((max-min)/2))], [hardIron = (max+min)/2]. *)
Fixpoint samples_max (acc : float) (l : list float) : float :=
  match l with [] => acc | x :: r => samples_max (fmax acc x) r end.
Fixpoint samples_min (acc : float) (l : list float) : float :=
  match l with [] => acc | x :: r => samples_min (fmin acc x) r end.

Definition iron_spec (samples : list FusionVector) : option (FusionMatrix * FusionVector) :=
  match samples with
  | [] => None
  | s :: rest =>
      let mxx := samples_max (vx s) (map vx rest) in
      let mxy := samples_max (vy s) (map vy rest) in
      let mxz := samples_max (vz s) (map vz rest) in
      let mnx := samples_min (vx s) (map vx rest) in
      let mny := samples_min (vy s) (map vy rest) in
      let mnz := samples_min (vz s) (map vz rest) in
      Some (mkMatrix (f_div f_one (f_div (f_sub mxx mnx) f_two)) f_zero f_zero
                     f_zero (f_div f_one (f_div (f_sub mxy mny) f_two)) f_zero
                     f_zero f_zero (f_div f_one (f_div (f_sub mxz mnz) f_two)),
            mkVector (f_div (f_add mxx mnx) f_two) (f_div (f_add mxy mny) f_two)
                     (f_div (f_add mxz mnz) f_two))
  end.

(** A computation that leaves the session the [device] pointer designates
    as it found it. *)
Definition keeps_device {A : Type} (m : M A) : Prop :=
  forall w, w_device (snd (m w)) = w_device w.

End Statements.

(* ------------------------------------------------------------------ *)
(** ** Concrete sessions

    Worlds, device replies and runs of the model over the concrete
    collaborators [demo_ext]. *)

(* ------------------------------------------------------------------ *)
(** ** Closing a session (lines 951-976) *)

(** What [device_imu_close] releases, in order: the three allocations,
    the hidapi handle, and the library ([device_exit]). *)
Section Close.
Context {E : Ext}.

Inductive close_action := FreeCalibration | FreeAhrs | FreeOffset | HidClose | DeviceExit.

Definition device_imu_close : M (device_imu_error_type * list close_action) :=
  w <- get_world ;;
  match w_device w with
  | None => ret (DEVICE_IMU_ERROR_NO_DEVICE, [])
  | Some d =>
      let released :=
        match calibration d with Some _ => [FreeCalibration] | None => [] end ++
        match ahrs d with Some _ => [FreeAhrs] | None => [] end ++
        match offset d with Some _ => [FreeOffset] | None => [] end ++
        (if handle d then [HidClose] else []) in
      put_device device_zero ;;
      ret (DEVICE_IMU_ERROR_NO_ERROR, released ++ [DeviceExit])
  end.
End Close.

(* ------------------------------------------------------------------ *)
(** ** Calibration files (lines 382-450) *)

(** The in-memory representation of the [float] fields: IEEE-754
    binary32.  [SpecFloat] has a single NaN, stored as the quiet NaN
    [0x7FC00000]; reading any NaN pattern back gives it. *)
Definition float_bits (x : float) : Z :=
  match x with
  | S754_zero s => if s then 2 ^ 31 else 0
  | S754_infinity s => (if s then 2 ^ 31 else 0) + 255 * 2 ^ 23
  | S754_nan => 0x7FC00000
  | S754_finite s m e =>
      (if s then 2 ^ 31 else 0) +
      (if Zpos m <? 2 ^ 23 then Zpos m else (e + 150) * 2 ^ 23 + (Zpos m - 2 ^ 23))
  end.

Definition float_of_bits (b : Z) : float :=
  let s := Z.testbit b 31 in
  let e := Z.land (Z.shiftr b 23) 255 in
  let m := Z.land b (2 ^ 23 - 1) in
  if e =? 255 then (if m =? 0 then S754_infinity s else S754_nan)
  else if e =? 0 then
    match m with Zpos p => S754_finite s p (-149) | _ => S754_zero s end
  else S754_finite s (Z.to_pos (m + 2 ^ 23)) (e - 150).

Section Files.
Context {E : Ext}.

Definition matrix_floats (m : FusionMatrix) : list float :=
  [xx m; xy m; xz m; yx m; yy m; yz m; zx m; zy m; zz m].
Definition vector_floats (v : FusionVector) : list float := [vx v; vy v; vz v].
Definition quaternion_floats (q : FusionQuaternion) : list float := [qw q; qx q; qy q; qz q].

(** The 61 floats of [struct device_imu_calibration_t], in memory order. *)
Definition calibration_floats (c : device_imu_calibration_type) : list float :=
  matrix_floats (gyroscopeMisalignment c) ++ vector_floats (gyroscopeSensitivity c) ++
  vector_floats (gyroscopeOffset c) ++
  matrix_floats (accelerometerMisalignment c) ++ vector_floats (accelerometerSensitivity c) ++
  vector_floats (accelerometerOffset c) ++
  matrix_floats (magnetometerMisalignment c) ++ vector_floats (magnetometerSensitivity c) ++
  vector_floats (magnetometerOffset c) ++
  matrix_floats (softIronMatrix c) ++ vector_floats (hardIronOffset c) ++
  quaternion_floats (noises c).

Definition calibration_of_floats (l : list float) : device_imu_calibration_type :=
  let f i := nth i l f_zero in
  let mat i := mkMatrix (f i) (f (i + 1)%nat) (f (i + 2)%nat) (f (i + 3)%nat) (f (i + 4)%nat)
                        (f (i + 5)%nat) (f (i + 6)%nat) (f (i + 7)%nat) (f (i + 8)%nat) in
  let vec i := mkVector (f i) (f (i + 1)%nat) (f (i + 2)%nat) in
  mkCalibration (mat 0%nat) (vec 9%nat) (vec 12%nat) (mat 15%nat) (vec 24%nat) (vec 27%nat)
                (mat 30%nat) (vec 39%nat) (vec 42%nat) (mat 45%nat) (vec 54%nat)
                (mkQuaternion (f 57%nat) (f 58%nat) (f 59%nat) (f 60%nat)).

Definition sizeof_device_imu_calibration_type : Z := 244.

(** The bytes of [*device->calibration]. *)
Definition calibration_image (c : device_imu_calibration_type) : list Z :=
  flat_map (fun x => le32 (float_bits x)) (calibration_floats c).

(** The calibration record whose bytes are [bytes]. *)
Definition calibration_of_image (bytes : list Z) : device_imu_calibration_type :=
  calibration_of_floats
    (map (fun i => float_of_bits (le_value (get_bytes (4 * i) 4 bytes))) (seq 0 61)).

End Files.

Section LoadSave.
Context {E : Ext}.

Definition device_imu_load_calibration (file : option (list Z)) (fclose_ok : bool)
  : M device_imu_error_type :=
  w <- get_world ;;
  match w_device w with
  | None => ret DEVICE_IMU_ERROR_NO_DEVICE
  | Some d =>
  match calibration d with
  | None => ret DEVICE_IMU_ERROR_NO_ALLOCATION
  | Some c =>
  match file with
  | None => ret DEVICE_IMU_ERROR_FILE_NOT_OPEN
  | Some contents =>
      let bytes := firstn (Z.to_nat sizeof_device_imu_calibration_type) contents in
      let count := Z.of_nat (length bytes) in
      put_device (with_calibration
                    (Some (calibration_of_image (set_bytes 0 bytes (calibration_image c)))) d) ;;
      let result := if negb (sizeof_device_imu_calibration_type =? count)
                    then DEVICE_IMU_ERROR_LOADING_FAILED else DEVICE_IMU_ERROR_NO_ERROR in
      if negb fclose_ok then ret DEVICE_IMU_ERROR_FILE_NOT_CLOSED else ret result
  end
  end
  end.

Definition device_imu_save_calibration (fopen_ok : bool) (accepted : nat) (fclose_ok : bool)
  : M (device_imu_error_type * option (list Z)) :=
  w <- get_world ;;
  match w_device w with
  | None => ret (DEVICE_IMU_ERROR_NO_DEVICE, None)
  | Some d =>
  match calibration d with
  | None => ret (DEVICE_IMU_ERROR_NO_ALLOCATION, None)
  | Some c =>
  if negb fopen_ok then ret (DEVICE_IMU_ERROR_FILE_NOT_OPEN, None) else
  let written := firstn accepted (calibration_image c) in
  let count := Z.of_nat (length written) in
  let result := if negb (sizeof_device_imu_calibration_type =? count)
                then DEVICE_IMU_ERROR_SAVING_FAILED else DEVICE_IMU_ERROR_NO_ERROR in
  if negb fclose_ok then ret (DEVICE_IMU_ERROR_FILE_NOT_CLOSED, Some written)
  else ret (result, Some written)
  end
  end.

Definition valid_calibration (c : device_imu_calibration_type) : bool :=
  forallb (valid_binary prec32 emax32) (calibration_floats c).

End LoadSave.

(* ------------------------------------------------------------------ *)
(** ** Auxiliary definitions of the properties below *)

(** A C byte. *)
Definition is_byte (b : Z) : Prop := 0 <= b < 256.

(** The 56-byte segments the download requests a blob in. *)
Fixpoint chunks56 (n : nat) (l : list Z) : list (list Z) :=
  match n with
  | O => []
  | S n' => match l with
            | [] => []
            | _ => firstn 56 l :: chunks56 n' (skipn 56 l)
            end
  end.

Section Segments.
Context {E : Ext}.

Definition segment_replies (h seg : list Z) : list reply :=
  [RWrite 8; RRead (Some (h ++ DEVICE_IMU_MSG_CAL_DATA_GET_NEXT_SEGMENT :: seg))].

Definition segment_events (seg : list Z) : list io_event :=
  [IoWrite (wire_frame DEVICE_IMU_MSG_CAL_DATA_GET_NEXT_SEGMENT []);
   IoRead (8 + Z.of_nat (length seg))].
End Segments.

(** A property [P] of the session that the device pointer designates,
    and the computations that keep it. *)
Section Invariants.
Context {E : Ext}.
Variable P : device_imu_type -> Prop.

Definition devP (w : world) : Prop := exists d, w_device w = Some d /\ P d.
Definition keepsP {A : Type} (m : M A) : Prop := forall w, devP w -> devP (snd (m w)).
End Invariants.

(** The identity [device_imu_open] gives a session it opens. *)
Definition open_ids {E : Ext} (cb : bool) (pid : Z) (d : device_imu_type) : Prop :=
  handle d = true /\ vendor_id d = xreal_vendor_id /\ product_id d = pid /\ callback d = cb.


Module Demo.
#[local] Existing Instance demo_ext.

Definition v3 (a b c : Z) : FusionVector := mkVector (f_of_Z a) (f_of_Z b) (f_of_Z c).
Definition f_inf : float := S754_infinity false.

(** A world whose [device] points at [d], with the [static] packets and
    the estimator's extrema as the program starts. *)
Definition world_of (d : device_imu_type) (script : list reply) : world :=
  mkWorld script [] zero_packet zero_packet iron_max_init iron_min_init (Some d).

(** An open, streaming session: handle, callback, default calibration, no
    drift tracker and the AHRS state [q]. *)
Definition streaming_session (q : FusionQuaternion) : device_imu_type :=
  mkDevice true xreal_vendor_id 1060 true 0x20220101 (Some default_calibration)
           None (Some q) 0 f_zero.

(** A 64-byte IMU report: signature [01 02], timestamp 0, gyroscope and
    accelerometer multiplier and divisor 1, magnetometer multiplier and
    divisor 1 (in their byte orders), all readings 0. *)
Definition data_frame : list Z :=
  [1; 2] ++ repeat 0 8 ++ [0; 0] ++
  [1; 0] ++ [1; 0; 0; 0] ++ repeat 0 9 ++
  [1; 0] ++ [1; 0; 0; 0] ++ repeat 0 9 ++
  [0; 1] ++ [0; 0; 0; 1] ++ repeat 0 6 ++ repeat 0 10.

(** Replies of a device that answers as the protocol expects: a 7-byte
    header (head, checksum, length) before the message id. *)
Definition header : list Z := [170; 0; 0; 0; 0; 0; 0].
Definition static_id_frame : list Z := header ++ 26 :: le32 0x20230415.
Definition cal_length_frame : list Z := header ++ 20 :: le32 130.

(** A 130-byte calibration blob. *)
Definition blob130 : list Z := map Z.of_nat (seq 0 130).

(** [device_imu_open] on a device that answers the static id and announces
    130 calibration bytes, then fails the first segment request. *)
Definition segment_failure_script : list reply :=
  [RWrite 9; RRead (Some []); RWrite 8; RRead (Some static_id_frame);
   RWrite 8; RRead (Some cal_length_frame); RWrite (-1); RWrite 9].
Definition segment_failure_run : device_imu_error_type * world :=
  device_imu_open true true (Some 1060) (world_of device_zero segment_failure_script).

(** [device_imu_open] on a device that accepts the stream stop and then
    refuses the static-id request. *)
Definition static_id_send_failure_run : device_imu_error_type * world :=
  device_imu_open true true (Some 1060)
                  (world_of device_zero [RWrite 9; RRead (Some []); RWrite (-1)]).

(** [device_imu_read] on a streaming session whose AHRS quaternion has an
    infinite [x] component. *)
Definition infinite_orientation_run : device_imu_error_type * world :=
  device_imu_read 0 (world_of (streaming_session (mkQuaternion f_one f_inf f_zero f_zero))
                              [RRead (Some data_frame)]).

(** The example of the spec, and two negative samples. *)
Definition axis_samples : list FusionVector :=
  [v3 1 0 0; v3 (-1) 0 0; v3 0 1 0; v3 0 (-1) 0; v3 0 0 1; v3 0 0 (-1)].
Definition negative_samples : list FusionVector := [v3 (-1) (-1) (-1); v3 (-3) (-3) (-3)].

Definition fresh_world : world := world_of device_zero [].

Definition diag (x : float) : FusionMatrix :=
  mkMatrix x f_zero f_zero f_zero x f_zero f_zero f_zero x.
Definition splat (x : float) : FusionVector := mkVector x x x.

End Demo.

(* ------------------------------------------------------------------ *)
(** ** Lemmas on buffers *)

Lemma set_bytes_0 (bs buf : list Z) : set_bytes 0 bs buf = bs ++ skipn (length bs) buf.
Proof. reflexivity. Qed.

Lemma length_set_bytes (off : nat) (bs buf : list Z) :
  (off + length bs <= length buf)%nat -> length (set_bytes off bs buf) = length buf.
Proof.
  intros H. unfold set_bytes. rewrite !length_app, length_firstn, length_skipn. lia.
Qed.

Lemma le_value_le16 (v : Z) : 0 <= v < 2 ^ 16 -> le_value (le16 v) = v.
Proof.
  intros H. unfold le16, le_value. cbn [fold_right].
  change 255 with (Z.ones 8). rewrite !Z.land_ones by lia.
  rewrite Z.shiftr_div_pow2 by lia.
  assert (Hq : 0 <= v / 2 ^ 8 < 2 ^ 8).
  { split; [apply Z.div_pos | apply Z.div_lt_upper_bound]; lia. }
  rewrite (Z.mod_small (v / 2 ^ 8)) by exact Hq.
  pose proof (Z.div_mod v (2 ^ 8)) as Hd.
  assert (Hp : 2 ^ 8 = 256) by reflexivity. rewrite Hp in *. lia.
Qed.

Lemma frame_sizes (len : Z) : 0 <= len <= 56 ->
  to_uint16 (3 + len) = 3 + len /\ to_uint16 (5 + (3 + len)) = 8 + len /\
  to_uint8 (8 + len) = 8 + len /\ (8 + len >? MAX_PACKET_SIZE) = false.
Proof.
  intros H. unfold to_uint16, to_uint8, MAX_PACKET_SIZE.
  rewrite !Z.mod_small by lia. split; [reflexivity|]. split; [lia|].
  split; [reflexivity|]. rewrite Z.gtb_ltb. apply Z.ltb_ge. lia.
Qed.

Lemma send_packet_layout (x0 x1 x2 x3 x4 x5 x6 x7 : Z) (sp payload : list Z) (msgid l : Z) :
  set_bytes 8 (firstn (length payload) payload)
    (set_bytes 7 [msgid] (set_bytes 5 (le16 l) (set_bytes 0 [170]
       (x0 :: x1 :: x2 :: x3 :: x4 :: x5 :: x6 :: x7 :: sp)))) =
  [170; x1; x2; x3; x4] ++ le16 l ++ msgid :: payload ++ skipn (length payload) sp.
Proof.
  rewrite firstn_all. unfold set_bytes, le16. simpl. reflexivity.
Qed.

Lemma send_payload_msg_ok {E : Ext} (w : world) (msgid : Z) (payload : list Z)
      (accepted : Z) (rest : list reply) :
  (length payload <= 56)%nat -> length (w_send_packet w) = 64%nat ->
  w_script w = RWrite accepted :: rest ->
  let '(ok, w') := send_payload_msg msgid (Z.of_nat (length payload)) payload w in
  ok = (accepted =? 8 + Z.of_nat (length payload)) /\
  w_script w' = rest /\ w_log w' = w_log w ++ [IoWrite (wire_frame msgid payload)] /\
  w_recv_packet w' = w_recv_packet w /\ w_iron_max w' = w_iron_max w /\
  w_iron_min w' = w_iron_min w /\ w_device w' = w_device w /\
  length (w_send_packet w') = 64%nat.
Proof.
  intros Hn Hp Hs.
  destruct w as [sc lg sp rp mx mn dv]; simpl in Hp, Hs; subst sc.
  do 8 (destruct sp as [|? sp]; [simpl in Hp; lia|]).
  simpl in Hp.
  destruct (frame_sizes (Z.of_nat (length payload))) as [H1 [H2 [H3 H4]]]; [lia|].
  unfold send_payload_msg. cbn [bind get_world w_send_packet].
  rewrite H1, H2, H3, Nat2Z.id, send_packet_layout.
  assert (Hlen : packet_length_field
                   ([170; z0; z1; z2; z3] ++ le16 (3 + Z.of_nat (length payload)) ++
                    msgid :: payload ++ skipn (length payload) sp)
                 = 3 + Z.of_nat (length payload)).
  { unfold packet_length_field, get_bytes.
    change (le_value (le16 (3 + Z.of_nat (length payload))) = 3 + Z.of_nat (length payload)).
    apply le_value_le16. lia. }
  rewrite Hlen.
  assert (Hreg : get_bytes 5 (Z.to_nat (3 + Z.of_nat (length payload)))
                   ([170; z0; z1; z2; z3] ++ le16 (3 + Z.of_nat (length payload)) ++
                    msgid :: payload ++ skipn (length payload) sp)
                 = le16 (3 + Z.of_nat (length payload)) ++ msgid :: payload).
  { unfold get_bytes. replace (Z.to_nat (3 + Z.of_nat (length payload))) with (3 + length payload)%nat by lia.
    unfold le16. simpl. rewrite firstn_app, firstn_all, Nat.sub_diag. simpl. rewrite app_nil_r. reflexivity. }
  rewrite Hreg.
  set (ck := to_uint32 (crc32_checksum (le16 (3 + Z.of_nat (length payload)) ++ msgid :: payload))).
  set (pkt := set_bytes 1 (le32 ck) _).
  assert (Hpkt : pkt = wire_frame msgid payload ++ skipn (length payload) sp).
  { subst pkt. unfold wire_frame. cbv zeta. fold ck. clearbody ck.
     remember (3 + Z.of_nat (length payload)) as L eqn:HL. clear HL.
    unfold set_bytes. cbn [firstn skipn length app le32 Nat.add]. reflexivity. }
  assert (Hwf : length (wire_frame msgid payload) = (8 + length payload)%nat).
  { unfold wire_frame. cbv zeta. cbn [length app le32 le16]. lia. }
  clearbody pkt. subst pkt.
  unfold modify, send_payload, hid_write, log_event, next_reply, modify.
  cbn [bind ret set_send_packet set_log set_script w_log w_script w_send_packet
       w_recv_packet w_iron_max w_iron_min w_device].
  rewrite H4.
  rewrite firstn_app, Hwf.
  replace (Z.to_nat (8 + Z.of_nat (length payload))) with (8 + length payload)%nat by lia.
  rewrite Nat.sub_diag, firstn_O, app_nil_r.
  rewrite <- Hwf, firstn_all.
  assert (H64 : length (wire_frame msgid payload ++ skipn (length payload) sp) = 64%nat).
  { rewrite length_app, Hwf, length_skipn. lia. }
  destruct (accepted =? 8 + Z.of_nat (length payload));
    cbn [negb ret set_script set_log set_send_packet w_script w_log w_send_packet
         w_recv_packet w_iron_max w_iron_min w_device];
    repeat split; assumption.
Qed.

Lemma byte_at_firstn (l : list Z) (k i : nat) :
  (i < k)%nat -> byte_at (firstn k l) i = byte_at l i.
Proof.
  intros H. unfold byte_at. revert k i H.
  induction l as [|x l IH]; intros k i H; destruct k; simpl; try lia;
    destruct i; try reflexivity.
  apply IH. lia.
Qed.

Lemma byte_at_set_bytes_0 (bs pk : list Z) (i : nat) :
  (i < length bs)%nat -> byte_at (set_bytes 0 bs pk) i = byte_at bs i.
Proof.
  intros H. rewrite set_bytes_0. unfold byte_at. apply app_nth1. exact H.
Qed.

Lemma get_bytes_set_bytes_0 (bs pk : list Z) (o k : nat) :
  (o + k <= length bs)%nat -> get_bytes o k (set_bytes 0 bs pk) = get_bytes o k bs.
Proof.
  intros H. rewrite set_bytes_0. unfold get_bytes.
  rewrite skipn_app. replace (o - length bs)%nat with 0%nat by lia. rewrite skipn_O.
  rewrite firstn_app, length_skipn. replace (k - (length bs - o))%nat with 0%nat by lia.
  rewrite firstn_O, app_nil_r. reflexivity.
Qed.

Lemma get_bytes_firstn (l : list Z) (o k m : nat) :
  (o + k <= m)%nat -> get_bytes o k (firstn m l) = get_bytes o k l.
Proof.
  intros H. unfold get_bytes. rewrite skipn_firstn_comm, firstn_firstn.
  f_equal. lia.
Qed.

Ltac zdecide :=
  repeat match goal with
         | |- context [?a >=? ?b] => rewrite (Z.geb_leb a b)
         | |- context [?a <=? ?b] => destruct (Z.leb_spec a b); try lia
         | |- context [?a =? ?b] =>
             match a with byte_at _ _ => fail 1 | _ => destruct (Z.eqb_spec a b); try lia end
         end.

Lemma recv_payload_msg_ok {E : Ext} (w : world) (msgid : Z) (n : nat) :
  (n <= 56)%nat ->
  let '(r, w') := recv_payload_msg msgid (Z.of_nat n) w in
  w_log w' = w_log w ++ [IoRead (8 + Z.of_nat n)] /\
  w_script w' = tl (w_script w) /\
  w_send_packet w' = w_send_packet w /\ w_iron_max w' = w_iron_max w /\
  w_iron_min w' = w_iron_min w /\ w_device w' = w_device w /\
  r = match w_script w with
      | RRead (Some report) :: _ =>
          if ((8 + n <=? length report)%nat && (byte_at report 7 =? msgid))%bool
          then Some (get_bytes 8 n report) else None
      | _ => None
      end.
Proof.
  intros Hn.
  destruct (frame_sizes (Z.of_nat n)) as [H1 [H2 [H3 H4]]]; [lia|].
  destruct w as [sc lg sp rp mx mn dv].
  unfold recv_payload_msg. cbn [bind get_world w_recv_packet].
  rewrite H1, H2, H3. unfold recv_payload. rewrite H4.
  unfold hid_read, log_event, modify, next_reply.
  destruct sc as [|[a|[report|]] rest];
    cbv beta iota zeta delta [bind ret set_log set_script set_recv_packet w_script w_log
      w_send_packet w_recv_packet w_iron_max w_iron_min w_device tl].
  1,2,4: zdecide; cbv beta iota; repeat split.
  rewrite Nat2Z.id. replace (Z.to_nat (8 + Z.of_nat n)) with (8 + n)%nat by lia.
  rewrite length_firstn.
  destruct (Nat.leb_spec (8 + n) (length report)) as [Hr|Hr].
  - rewrite Nat.min_l by lia. rewrite Nat2Z.inj_add. cbn [Z.of_nat Pos.of_succ_nat Pos.succ].
    zdecide. cbv beta iota delta [negb].
    rewrite byte_at_set_bytes_0, byte_at_firstn, get_bytes_set_bytes_0, get_bytes_firstn
      by (rewrite ?length_firstn; lia).
    cbn [andb]. destruct (byte_at report 7 =? msgid); cbv beta iota; repeat split.
  - rewrite Nat.min_r by lia. zdecide; cbv beta iota; repeat split.
Qed.


Lemma keeps_ret {E : Ext} {A : Type} (a : A) : keeps_device (ret a).
Proof. intros w. reflexivity. Qed.

Lemma keeps_bind {E : Ext} {A B : Type} (m : M A) (k : A -> M B) :
  keeps_device m -> (forall a, keeps_device (k a)) -> keeps_device (bind m k).
Proof.
  intros Hm Hk w. unfold bind. specialize (Hm w).
  destruct (m w) as [a w1]. simpl in Hm. rewrite Hk. exact Hm.
Qed.

Lemma keeps_modify {E : Ext} (f : world -> world) :
  (forall w, w_device (f w) = w_device w) -> keeps_device (modify f).
Proof. intros Hf w. apply Hf. Qed.

Lemma keeps_get_world {E : Ext} : keeps_device get_world.
Proof. intros w. reflexivity. Qed.

Lemma keeps_next_reply {E : Ext} : keeps_device next_reply.
Proof. intros w. unfold next_reply. destruct (w_script w); reflexivity. Qed.

Lemma keeps_hid_read {E : Ext} (n : Z) : keeps_device (hid_read n).
Proof.
  unfold hid_read, log_event.
  apply keeps_bind; [apply keeps_modify; reflexivity|intros _].
  apply keeps_bind; [apply keeps_next_reply|intros r]. apply keeps_ret.
Qed.

Lemma keeps_iron {E : Ext} (m : FusionVector) :
  keeps_device (iterate_iron_offset_estimation m).
Proof.
  unfold iterate_iron_offset_estimation.
  apply keeps_bind; [apply keeps_get_world|intros w].
  destruct (iron_step _ _ _) as [[mx mn] out].
  apply keeps_bind; [apply keeps_modify; reflexivity|intros _]. apply keeps_ret.
Qed.

Create HintDb keeps.
#[export] Hint Resolve keeps_ret keeps_get_world keeps_next_reply keeps_hid_read keeps_iron : keeps.

Ltac keeps_step :=
  match goal with
  | |- keeps_device (bind _ _) => apply keeps_bind; [|intros ?]
  | |- keeps_device (if ?c then _ else _) => destruct c
  | |- keeps_device (let '(_, _) := ?x in _) => destruct x
  | |- keeps_device (match ?x with _ => _ end) => destruct x
  | |- keeps_device _ => solve [auto with keeps]
  end.

Lemma calibrate_loop_keeps_device {E : Ext} (fuel : nat) (iterations : Z) (l : calibrate_locals) :
  keeps_device (calibrate_loop fuel iterations l).
Proof.
  revert iterations l. induction fuel as [|fuel IH]; intros iterations l; simpl.
  - auto with keeps.
  - repeat (keeps_step || apply IH).
Qed.

(** C10: every error return of [device_imu_calibrate] leaves the
    calibration record unchanged, and on a session with a handle and a
    calibration record, zero iterations return success with the record
    unchanged. *)
Theorem device_imu_calibrate_calibration_unchanged {E : Ext} (iterations : Z)
        (gyro accel magnet : bool) (w : world) :
  let '(r, w') := device_imu_calibrate iterations gyro accel magnet w in
  (r <> DEVICE_IMU_ERROR_NO_ERROR -> device_calibration w' = device_calibration w) /\
  (iterations = 0 ->
   (exists d c, w_device w = Some d /\ handle d = true /\ calibration d = Some c) ->
   r = DEVICE_IMU_ERROR_NO_ERROR /\ device_calibration w' = device_calibration w).
Proof.
  unfold device_imu_calibrate, bind at 1, get_world.
  destruct (w_device w) as [d|] eqn:Hd.
  2: { split; [reflexivity|]. intros _ (d' & c & H & _). discriminate. }
  destruct (handle d) eqn:Hh; cbn [negb].
  2: { split; [reflexivity|]. intros _ (d' & c & H & H' & _). congruence. }
  destruct (calibration d) as [c|] eqn:Hc.
  2: { split; [reflexivity|]. intros _ (d' & c & H & H' & H''). congruence. }
  unfold MAX_PACKET_SIZE, sizeof_device_imu_packet_type. cbn [Z.eqb negb Pos.eqb].
  unfold bind at 1.
  pose proof (calibrate_loop_keeps_device (S (length (w_script w))) iterations
                calibrate_locals_init w) as Hk.
  destruct (calibrate_loop _ _ _ w) as [ex w1] eqn:Hl. simpl in Hk.
  destruct ex as [e|l].
  - split.
    + intros _. unfold device_calibration. cbn. rewrite Hk. reflexivity.
    + intros H0. subst iterations. cbn in Hl. discriminate.
  - unfold get_device, bind.
    destruct (calibration (match w_device w1 with Some d => d | None => device_zero end))
      as [c0|] eqn:Hc0.
    2: { split; [intros H; exfalso; apply H; reflexivity|].
         intros H0 _. subst iterations. cbn in Hl. injection Hl as <- <-.
         rewrite Hd in Hc0. congruence. }
    destruct (f_lt f_zero _) eqn:Hf.
    2: { split; [intros H; exfalso; apply H; reflexivity|].
         intros H0 _. subst iterations. cbn in Hl. injection Hl as <- <-. split; reflexivity. }
    split; [intros H; exfalso; apply H; reflexivity|].
    intros H0 _. subst iterations. exfalso. revert Hf. vm_compute. discriminate.
Qed.

Lemma honest_report (h seg : list Z) (msgid : Z) :
  length h = 7%nat ->
  ((8 + length seg <=? length (h ++ msgid :: seg))%nat &&
   (byte_at (h ++ msgid :: seg) 7 =? msgid))%bool = true /\
  get_bytes 8 (length seg) (h ++ msgid :: seg) = seg.
Proof.
  intros Hh.
  do 7 (destruct h as [|? h]; [discriminate|]). destruct h; [|discriminate].
  unfold byte_at, get_bytes. cbn [app length nth skipn].
  rewrite Z.eqb_refl, firstn_all, andb_true_r. split; [|reflexivity].
  apply Nat.leb_le. lia.
Qed.

Lemma set_bytes_after (a b r : list Z) :
  set_bytes (length a) b (a ++ r) = a ++ b ++ skipn (length b) r.
Proof.
  unfold set_bytes. rewrite firstn_app, Nat.sub_diag, firstn_O, firstn_all, app_nil_r.
  rewrite skipn_app, skipn_all2 by lia. cbn [app].
  f_equal. f_equal. f_equal. lia.
Qed.

Lemma download_step {E : Ext} (fuel : nat) (pos len : Z) (buf : list Z) (w : world)
      (h seg : list Z) (rest : list reply) :
  0 <= pos < len -> len < 2 ^ 32 ->
  length (w_send_packet w) = 64%nat -> length h = 7%nat ->
  length seg = Z.to_nat (Z.min 56 (len - pos)) ->
  w_script w = RWrite 8 :: RRead (Some (h ++ 21 :: seg)) :: rest ->
  exists w1,
    w_script w1 = rest /\
    w_log w1 = w_log w ++ [IoWrite (wire_frame 21 []); IoRead (8 + Z.of_nat (length seg))] /\
    length (w_send_packet w1) = 64%nat /\ w_device w1 = w_device w /\
    calibration_download_loop (S fuel) pos len buf w =
    calibration_download_loop fuel (pos + Z.of_nat (length seg)) len
                              (set_bytes (Z.to_nat pos) seg buf) w1.
Proof.
  intros Hpos Hlen Hsp Hh Hseg Hs.
  cbn [calibration_download_loop].
  rewrite (proj2 (Z.ltb_lt pos len)) by lia. cbn [negb].
  unfold bind at 1.
  pose proof (send_payload_msg_ok w 21 [] 8 _ (Nat.le_0_l _) Hsp Hs) as Hsend.
  change (Z.of_nat (length (@nil Z))) with 0 in Hsend.
  unfold DEVICE_IMU_MSG_CAL_DATA_GET_NEXT_SEGMENT.
  destruct (send_payload_msg 21 0 [] w) as [ok w0].
  destruct Hsend as (Hok & Hs0 & Hl0 & _ & _ & _ & Hd0 & Hp0).
  subst ok. cbn [Z.eqb Pos.eqb negb Z.add].
  assert (Hnext : to_uint8 (if to_uint32 (len - pos) >? 56 then 56 else to_uint32 (len - pos))
                  = Z.of_nat (length seg)).
  { rewrite Hseg. unfold to_uint32, to_uint8.
    rewrite (Z.mod_small (len - pos)) by lia.
    destruct (Z.gtb_spec (len - pos) 56);
      rewrite Z.mod_small by lia; lia. }
  rewrite Hnext. unfold bind at 1.
  assert (Hn : (length seg <= 56)%nat) by lia.
  pose proof (recv_payload_msg_ok w0 21 (length seg) Hn) as Hrecv.
  destruct (recv_payload_msg 21 (Z.of_nat (length seg)) w0) as [r w1].
  destruct Hrecv as (Hl1 & Hs1 & Hp1 & _ & _ & Hd1 & Hr).
  rewrite Hs0 in Hr, Hs1. cbn [tl] in Hs1.
  destruct (honest_report h seg 21 Hh) as [Hc Hg].
  rewrite Hc, Hg in Hr. subst r.
  exists w1. split; [exact Hs1|]. split.
  { rewrite Hl1, Hl0, <- app_assoc. reflexivity. }
  split; [rewrite Hp1; exact Hp0|]. split; [rewrite Hd1; exact Hd0|].
  f_equal. unfold to_uint32. apply Z.mod_small. lia.
Qed.

Lemma download_done {E : Ext} (fuel : nat) (pos len : Z) (buf : list Z) (w : world) :
  len <= pos -> calibration_download_loop (S fuel) pos len buf w = ((pos, buf), w).
Proof.
  intros H. cbn [calibration_download_loop].
  rewrite (proj2 (Z.ltb_ge pos len)) by exact H. reflexivity.
Qed.

(** C6: for an announced length of 130, the download loop makes exactly
    three "get next segment" round trips, reading segments of 56, 56 and
    18 bytes in that order, and the buffer starts with their
    concatenation, the original 130 bytes. *)
Theorem calibration_download_130 {E : Ext} (blob h1 h2 h3 buf : list Z) (w : world)
        (rest : list reply) :
  length blob = 130%nat ->
  length h1 = 7%nat -> length h2 = 7%nat -> length h3 = 7%nat ->
  length (w_send_packet w) = 64%nat ->
  w_script w =
    [RWrite 8; RRead (Some (h1 ++ DEVICE_IMU_MSG_CAL_DATA_GET_NEXT_SEGMENT :: firstn 56 blob));
     RWrite 8; RRead (Some (h2 ++ DEVICE_IMU_MSG_CAL_DATA_GET_NEXT_SEGMENT :: firstn 56 (skipn 56 blob)));
     RWrite 8; RRead (Some (h3 ++ DEVICE_IMU_MSG_CAL_DATA_GET_NEXT_SEGMENT :: skipn 112 blob))]
    ++ rest ->
  let '(r, w') := calibration_download_loop (Z.to_nat 130) 0 130 buf w in
  r = (130, blob ++ skipn 130 buf) /\
  w_script w' = rest /\
  w_log w' = w_log w ++
    [IoWrite (wire_frame DEVICE_IMU_MSG_CAL_DATA_GET_NEXT_SEGMENT []); IoRead (8 + 56);
     IoWrite (wire_frame DEVICE_IMU_MSG_CAL_DATA_GET_NEXT_SEGMENT []); IoRead (8 + 56);
     IoWrite (wire_frame DEVICE_IMU_MSG_CAL_DATA_GET_NEXT_SEGMENT []); IoRead (8 + 18)].
Proof.
  intros Hb H1 H2 H3 Hsp Hs.
  unfold DEVICE_IMU_MSG_CAL_DATA_GET_NEXT_SEGMENT in *.
  set (s1 := firstn 56 blob) in *. set (s2 := firstn 56 (skipn 56 blob)) in *.
  set (s3 := skipn 112 blob) in *.
  assert (L1 : length s1 = 56%nat) by (subst s1; rewrite length_firstn; lia).
  assert (L2 : length s2 = 56%nat) by (subst s2; rewrite length_firstn, length_skipn; lia).
  assert (L3 : length s3 = 18%nat) by (subst s3; rewrite length_skipn; lia).
  assert (Hblob : blob = s1 ++ s2 ++ s3).
  { subst s1 s2 s3. rewrite <- (firstn_skipn 56 blob) at 1. f_equal.
    rewrite <- (firstn_skipn 56 (skipn 56 blob)) at 1. f_equal.
    rewrite skipn_skipn. reflexivity. }
  change (Z.to_nat 130) with (S 129).
  destruct (download_step 129 0 130 buf w h1 s1 _ ltac:(lia) ltac:(lia) Hsp H1
              ltac:(rewrite L1; reflexivity) Hs) as (w1 & Hs1 & Hl1 & Hp1 & _ & ->).
  rewrite L1. change (Z.to_nat 0) with 0%nat. rewrite set_bytes_0, L1.
  change (0 + Z.of_nat 56) with 56. change 129%nat with (S 128).
  destruct (download_step 128 56 130 (s1 ++ skipn 56 buf) w1 h2 s2 _ ltac:(lia) ltac:(lia) Hp1 H2
              ltac:(rewrite L2; reflexivity) Hs1) as (w2 & Hs2 & Hl2 & Hp2 & _ & ->).
  rewrite L2. change (Z.to_nat 56) with 56%nat. pose proof (set_bytes_after s1 s2 (skipn 56 buf)) as B2. rewrite L1, L2 in B2.
  rewrite B2.
  change (56 + Z.of_nat 56) with 112. change 128%nat with (S 127).
  destruct (download_step 127 112 130 (s1 ++ s2 ++ skipn 56 (skipn 56 buf)) w2 h3 s3 _ ltac:(lia) ltac:(lia) Hp2 H3
              ltac:(rewrite L3; reflexivity) Hs2) as (w3 & Hs3 & Hl3 & Hp3 & _ & ->).
  rewrite L3. change (Z.to_nat 112) with 112%nat.
  pose proof (set_bytes_after (s1 ++ s2) s3 (skipn 56 (skipn 56 buf))) as B3.
  rewrite length_app, L1, L2, L3, <- !app_assoc in B3. change (56 + 56)%nat with 112%nat in B3. rewrite B3.
  change (112 + Z.of_nat 18) with 130. change 127%nat with (S 126).
  rewrite download_done by lia.
  split; [|split].
  - rewrite Hblob, !skipn_skipn, <- !app_assoc. reflexivity.
  - exact Hs3.
  - rewrite Hl3, Hl2, Hl1, L1, L2, L3, <- !app_assoc. reflexivity.
Qed.

Lemma apply_calibration_fields {E : Ext} (d : device_imu_type) (g a m : FusionVector) (w : world) :
  let '((_, _, _, d'), w') := apply_calibration d g a m w in
  w_log w' = w_log w /\ w_script w' = w_script w /\ w_device w' = w_device w /\
  callback d' = callback d /\ ahrs d' = ahrs d /\ offset d' = offset d.
Proof.
  unfold apply_calibration, iterate_iron_offset_estimation, bind, get_world, modify, ret.
  destruct (iron_step _ _ _) as [[mx mn] [soft hard]].
  cbv beta iota zeta delta [set_iron w_log w_script w_device].
  destruct (calibration d); repeat split.
Qed.

Lemma bind_run {E : Ext} {A B : Type} (m : M A) (k : A -> M B) (w : world) :
  bind m k w = let (a, w') := m w in k a w'.
Proof. reflexivity. Qed.

Lemma hid_read_run {E : Ext} (n : Z) (w : world) (report : list Z) (rest : list reply) :
  w_script w = RRead (Some report) :: rest ->
  hid_read n w =
  ((Z.of_nat (length (firstn (Z.to_nat n) report)), firstn (Z.to_nat n) report),
   set_script rest (set_log (w_log w ++ [IoRead n]) w)).
Proof.
  intros Hs. unfold hid_read, log_event, modify, next_reply, bind, ret.
  cbv beta iota zeta delta [set_log w_script]. destruct w; cbn in *. rewrite Hs. reflexivity.
Qed.

Lemma packet_of_report (report : list Z) :
  (64 <= length report)%nat ->
  (forall i, (i < 64)%nat -> byte_at (set_bytes 0 (firstn 64 report) zero_packet) i = byte_at report i) /\
  (forall o k, (o + k <= 64)%nat ->
     get_bytes o k (set_bytes 0 (firstn 64 report) zero_packet) = get_bytes o k report).
Proof.
  intros H. split.
  - intros i Hi. rewrite byte_at_set_bytes_0, byte_at_firstn by (rewrite ?length_firstn; lia).
    reflexivity.
  - intros o k Hk. rewrite get_bytes_set_bytes_0, get_bytes_firstn by (rewrite ?length_firstn; lia).
    reflexivity.
Qed.

(** C8: for an accepted data frame, when a fusion engine is attached the
    result depends on the quaternion read back after the update: a NaN
    component gives INVALID_VALUE and no event; otherwise success and one
    UPDATE event with the frame's timestamp, only if a callback is set. *)
Theorem device_imu_read_orientation_check {E : Ext} (timeout : Z) (w : world)
        (d : device_imu_type) (report : list Z) (rest : list reply) :
  w_device w = Some d -> handle d = true ->
  w_script w = RRead (Some report) :: rest -> (64 <= length report)%nat ->
  byte_at report 0 = 1 -> byte_at report 1 = 2 ->
  let '(r, w') := device_imu_read timeout w in
  let upd := if callback d
             then [IoCallback (le_value (pkt_timestamp report)) DEVICE_IMU_EVENT_UPDATE]
             else [] in
  w_script w' = rest /\
  match ahrs d with
  | None => r = DEVICE_IMU_ERROR_NO_ERROR /\ w_log w' = w_log w ++ IoRead 64 :: upd
  | Some _ =>
      exists a, option_map ahrs (w_device w') = Some (Some a) /\
      let q := FusionAhrsGetQuaternion a in
      if isnan (qx q) || isnan (qy q) || isnan (qz q) || isnan (qw q)
      then r = DEVICE_IMU_ERROR_INVALID_VALUE /\ w_log w' = w_log w ++ [IoRead 64]
      else r = DEVICE_IMU_ERROR_NO_ERROR /\ w_log w' = w_log w ++ IoRead 64 :: upd
  end.
Proof.
  intros Hd Hh Hs Hr H0 H1.
  unfold device_imu_read, device_imu_read_with.
  rewrite bind_run. unfold get_world at 1. rewrite Hd, Hh.
  unfold MAX_PACKET_SIZE, sizeof_device_imu_packet_type. cbn [negb Z.eqb Pos.eqb].
  rewrite bind_run. unfold hid_read_timeout. rewrite (hid_read_run _ _ _ _ Hs).
  change (Z.to_nat 64) with 64%nat. rewrite length_firstn, Nat.min_l by exact Hr.
  destruct (packet_of_report report Hr) as [Pb Pg].
  set (packet := set_bytes 0 (firstn 64 report) zero_packet).
  change (Z.of_nat 64) with 64. cbn [Z.eqb Pos.eqb negb].
  assert (Sig1 : signature_is packet 170 83 = false).
  { unfold signature_is. rewrite Pb, H0 by lia. reflexivity. }
  assert (Sig2 : signature_is packet 1 2 = true).
  { unfold signature_is. rewrite !Pb, H0, H1 by lia. reflexivity. }
  assert (Ts : pkt_timestamp packet = pkt_timestamp report) by (apply Pg; lia).
  rewrite Sig1, Sig2, Ts. cbn [negb].
  destruct (readIMU_from_packet packet) as [[g a] m].
  set (d0 := with_sample _ _ d).
  assert (C0 : callback d0 = callback d) by reflexivity.
  assert (A0 : ahrs d0 = ahrs d) by reflexivity.
  clearbody d0.
  rewrite bind_run.
  pose proof (apply_calibration_fields d0 g a m
                (set_script rest (set_log (w_log w ++ [IoRead 64]) w))) as Hac.
  destruct (apply_calibration d0 g a m _) as [[[[g1 a1] m1] d1] w1].
  destruct Hac as (HL & HS & HD & HC & HA & HO).
  cbv beta iota zeta.
  assert (Hoff : exists d2 g2, (match offset d1 with
                 | Some o => let '(o', g) := FusionOffsetUpdate o g1 in (with_offset (Some o') d1, g)
                 | None => (d1, g1) end) = (d2, g2) /\ callback d2 = callback d /\ ahrs d2 = ahrs d).
  { destruct (offset d1) as [o|].
    - destruct (FusionOffsetUpdate o g1) as [o' g2].
      exists (with_offset (Some o') d1), g2. cbn. split; [reflexivity|]. split; congruence.
    - exists d1, g1. split; [reflexivity|]. split; congruence. }
  destruct Hoff as (d2 & g2 & -> & C2 & A2).
  cbn [set_script set_log w_script w_log w_device] in HL, HS, HD.
  rewrite A2. destruct (ahrs d) as [a0|].
  - set (dt := float_of_double _).
    set (a' := device_imu_fusion_update a0 g2 a1 m1 dt).
    rewrite bind_run. unfold put_device at 1, modify at 1. cbv beta iota.
    change (device_imu_get_orientation (Some a')) with (FusionAhrsGetQuaternion a').
    destruct (isnan (qx (FusionAhrsGetQuaternion a')) || isnan (qy (FusionAhrsGetQuaternion a'))
              || isnan (qz (FusionAhrsGetQuaternion a')) || isnan (qw (FusionAhrsGetQuaternion a'))) eqn:Hq.
    + unfold ret. cbn [set_device w_script w_log w_device option_map].
      split; [exact HS|]. exists a'. split; [reflexivity|]. rewrite Hq. split; [reflexivity|exact HL].
    + rewrite bind_run. unfold device_imu_callback.
      change (callback (with_ahrs (Some a') d2)) with (callback d2). rewrite C2.
      destruct (callback d); unfold log_event, modify, ret;
        cbn [set_device set_log w_script w_log w_device option_map];
        (split; [exact HS|]); exists a'; (split; [reflexivity|]); rewrite Hq; split; try reflexivity;
        rewrite HL, <- ?app_assoc; reflexivity.
  - rewrite bind_run. unfold put_device at 1, modify at 1. cbv beta iota.
    rewrite bind_run. unfold device_imu_callback. rewrite C2.
    destruct (callback d); unfold log_event, modify, ret;
      cbn [set_device set_log w_script w_log w_device option_map];
      (split; [exact HS|]); split; try reflexivity;
      rewrite HL, <- ?app_assoc; reflexivity.
Qed.

(** C9: the static-id step of [device_imu_open]: when the request is
    sent, the step never fails and the session's static id is the reply's
    or, on a failed reply, 0x20220101; when the request is refused, the
    step fails with PAYLOAD_FAILED. *)
Theorem open_static_id_outcome {E : Ext} (w : world) (accepted : Z) (rest : list reply) :
  length (w_send_packet w) = 64%nat ->
  w_script w = RWrite accepted :: rest ->
  let '(r, w') := open_static_id w in
  if accepted =? 8
  then r = None /\
       option_map static_id (w_device w') =
       Some (match rest with
             | RRead (Some report) :: _ =>
                 if ((12 <=? length report)%nat && (byte_at report 7 =? 26))%bool
                 then le_value (get_bytes 8 4 report) else 0x20220101
             | _ => 0x20220101
             end)
  else r = Some DEVICE_IMU_ERROR_PAYLOAD_FAILED.
Proof.
  intros Hsp Hs.
  unfold open_static_id, DEVICE_IMU_MSG_GET_STATIC_ID. rewrite bind_run.
  pose proof (send_payload_msg_ok w 26 [] accepted rest (Nat.le_0_l _) Hsp Hs) as Hsend.
  change (Z.of_nat (length (@nil Z))) with 0 in Hsend.
  destruct (send_payload_msg 26 0 [] w) as [ok w0].
  destruct Hsend as (Hok & Hs0 & _). subst ok. cbn [Z.add].
  destruct (accepted =? 8); cbn [negb]; [|reflexivity].
  rewrite bind_run.
  pose proof (recv_payload_msg_ok w0 26 4 ltac:(lia)) as Hrecv.
  change (Z.of_nat 4) with 4 in Hrecv.
  destruct (recv_payload_msg 26 4 w0) as [r w1].
  destruct Hrecv as (_ & _ & _ & _ & _ & _ & Hr). rewrite Hs0 in Hr. subst r.
  rewrite bind_run. unfold get_device at 1. cbv beta iota.
  change (8 + 4)%nat with 12%nat.
  destruct rest as [|[x|[report|]] rest']; cbv beta iota;
    try (unfold put_device, modify, ret, bind; cbn; split; reflexivity).
  destruct ((12 <=? length report)%nat && (byte_at report 7 =? 26))%bool;
    unfold put_device, modify, ret, bind; cbn; split; reflexivity.
Qed.

(** C1 (code bug): [device_imu_open] on a device that announces 130
    calibration bytes and then refuses the first "get next segment" request
    still returns success, after sending that request, and leaves a
    calibration record parsed from the partly filled buffer: zero gyroscope
    sensitivity and noises (1, 0, 0, 0), not the default record. *)
Theorem segment_failure_overwrites_calibration :
  fst Demo.segment_failure_run = DEVICE_IMU_ERROR_NO_ERROR /\
  In (IoWrite (wire_frame (E:=demo_ext) DEVICE_IMU_MSG_CAL_DATA_GET_NEXT_SEGMENT []))
     (w_log (snd Demo.segment_failure_run)) /\
  option_map gyroscopeSensitivity (device_calibration (snd Demo.segment_failure_run))
    = Some FUSION_VECTOR_ZERO /\
  option_map noises (device_calibration (snd Demo.segment_failure_run))
    = Some FUSION_IDENTITY_QUATERNION /\
  device_calibration (snd Demo.segment_failure_run) <> Some default_calibration.
Proof.
  split; [vm_compute; reflexivity|].
  split; [vm_compute; do 6 right; left; reflexivity|].
  split; [vm_compute; reflexivity|].
  split; [vm_compute; reflexivity|].
  vm_compute. intros H. discriminate H.
Qed.

(** C3 (code bug): on a fresh estimator, the spec's six axis samples give
    what the spec's running min/max formula gives, but the samples
    (-1,-1,-1), (-3,-3,-3) give soft iron diag(2/3) and hard iron -1.5
    per axis, where the formula gives diag(1) and -2: the running maximum
    starts at FLT_MIN, not at the first sample. *)
Theorem iron_estimator_extrema_start :
  fst (iron_run Demo.axis_samples Demo.fresh_world) = iron_spec Demo.axis_samples /\
  fst (iron_run Demo.negative_samples Demo.fresh_world) =
    Some (Demo.diag (f_div f_two (f_of_Z 3)), Demo.splat (f_lit (-3) 2)) /\
  iron_spec Demo.negative_samples = Some (Demo.diag f_one, Demo.splat (f_of_Z (-2))).
Proof.
  split; [vm_compute; reflexivity|]. split; vm_compute; reflexivity.
Qed.

(** C4: the fusion update of [device_imu_read] is the magnetometer-free
    update whatever the magnetometer reading is, so [device_imu_read] is
    the same program as the read that calls the magnetometer-free update
    unconditionally. *)
Theorem device_imu_read_ignores_magnetometer {E : Ext} :
  (forall a gyroscope accelerometer magnetometer deltaTime,
     device_imu_fusion_update a gyroscope accelerometer magnetometer deltaTime =
     FusionAhrsUpdateNoMagnetometer a gyroscope accelerometer deltaTime) /\
  (forall timeout w, device_imu_read timeout w = device_imu_read_no_magnetometer timeout w).
Proof.
  assert (H : forall a g acc m dt,
             device_imu_fusion_update a g acc m dt = FusionAhrsUpdateNoMagnetometer a g acc dt).
  { intros a g acc m dt. unfold device_imu_fusion_update.
    destruct (_ || _ || _); reflexivity. }
  split; [exact H|].
  intros timeout w. unfold device_imu_read, device_imu_read_no_magnetometer.
  replace (@device_imu_fusion_update E)
    with (fun a g acc (_ : FusionVector) dt => FusionAhrsUpdateNoMagnetometer a g acc dt);
    [reflexivity|].
  extensionality a; extensionality g; extensionality acc; extensionality m;
    extensionality dt. symmetry. apply H.
Qed.

(** C5: for [n <= 56], [recv_payload_msg msgid n] reads exactly one frame
    of 5 + (3 + n) bytes; it returns data only from a frame whose msgid
    byte is [msgid], and a frame with another msgid is dropped (failure,
    nothing further read). *)
Theorem recv_payload_msg_single_frame {E : Ext} (w : world) (msgid : Z) (n : nat) :
  (n <= 56)%nat ->
  let '(r, w') := recv_payload_msg msgid (Z.of_nat n) w in
  w_log w' = w_log w ++ [IoRead (5 + (3 + Z.of_nat n))] /\
  w_script w' = tl (w_script w) /\
  (forall data, r = Some data ->
     exists report rest, w_script w = RRead (Some report) :: rest /\
       (5 + (3 + n) <= length report)%nat /\ byte_at report 7 = msgid /\
       data = get_bytes 8 n report) /\
  (forall report rest, w_script w = RRead (Some report) :: rest ->
     byte_at report 7 <> msgid -> r = None).
Proof.
  intros Hn. pose proof (recv_payload_msg_ok w msgid n Hn) as H.
  destruct (recv_payload_msg msgid (Z.of_nat n) w) as [r w'].
  destruct H as (Hl & Hs & _ & _ & _ & _ & Hr).
  split; [rewrite Hl; do 3 f_equal; lia|]. split; [exact Hs|]. split.
  - intros data ->.
    destruct (w_script w) as [|[a|[report|]] rest]; try discriminate.
    destruct (8 + n <=? length report)%nat eqn:H1; [|discriminate].
    destruct (byte_at report 7 =? msgid) eqn:H2; [|discriminate].
    injection Hr as Hr. exists report, rest.
    apply Nat.leb_le in H1. apply Z.eqb_eq in H2. repeat split; auto.
  - intros report rest Hs0 Hm. rewrite Hs0 in Hr. rewrite Hr.
    apply Z.eqb_neq in Hm. rewrite Hm, andb_false_r. reflexivity.
Qed.

(** C2: for a payload of length at most 56, [send_payload_msg] writes one
    frame of 5 + (3 + len) bytes with head 0xAA, little-endian length
    field 3 + len, the msgid and the payload, and a checksum field equal
    to the little-endian CRC of the 3 + len bytes from the length field on;
    it fails exactly when the transport accepts fewer bytes than that. *)
Theorem send_payload_msg_frame {E : Ext} (w : world) (msgid : Z) (payload : list Z)
        (accepted : Z) (rest : list reply) :
  (length payload <= 56)%nat -> length (w_send_packet w) = 64%nat ->
  w_script w = RWrite accepted :: rest ->
  accepted <= 8 + Z.of_nat (length payload) ->
  let '(ok, w') := send_payload_msg msgid (Z.of_nat (length payload)) payload w in
  exists frame,
    w_log w' = w_log w ++ [IoWrite frame] /\
    length frame = (5 + (3 + length payload))%nat /\
    byte_at frame 0 = 170 /\
    le_value (get_bytes 5 2 frame) = 3 + Z.of_nat (length payload) /\
    byte_at frame 7 = msgid /\
    get_bytes 8 (length payload) frame = payload /\
    get_bytes 1 4 frame =
      le32 (to_uint32 (crc32_checksum (get_bytes 5 (3 + length payload) frame))) /\
    (ok = false <-> accepted < 5 + (3 + Z.of_nat (length payload))).
Proof.
  intros Hn Hp Hs Ha.
  pose proof (send_payload_msg_ok w msgid payload accepted rest Hn Hp Hs) as H.
  destruct (send_payload_msg msgid (Z.of_nat (length payload)) payload w) as [ok w'].
  destruct H as (Hok & _ & Hl & _).
  exists (wire_frame msgid payload). split; [exact Hl|].
  unfold wire_frame. cbv zeta.
  set (L := 3 + Z.of_nat (length payload)).
  assert (Hregion : get_bytes 5 (3 + length payload)
                      (170 :: le32 (to_uint32 (crc32_checksum (le16 L ++ msgid :: payload)))
                       ++ le16 L ++ msgid :: payload) = le16 L ++ msgid :: payload).
  { unfold get_bytes, le32, le16. cbn [skipn app firstn].
    rewrite firstn_all2; [reflexivity|]. cbn [length]. lia. }
  rewrite Hregion.
  generalize (to_uint32 (crc32_checksum (le16 L ++ msgid :: payload))) as ck. intros ck.
  unfold le32, le16, get_bytes, byte_at. cbn [length app skipn firstn nth].
  split; [lia|]. split; [reflexivity|].
  split; [change (le_value (le16 L) = L); apply le_value_le16; subst L; lia|].
  split; [reflexivity|]. split; [apply firstn_all|]. split; [reflexivity|].
  rewrite Hok. split.
  - intros H. apply Z.eqb_neq in H. lia.
  - intros H. apply Z.eqb_neq. lia.
Qed.

(** C7: for every byte pair (a, b), [pack16bit_signed_bizarre [a; b]] is
    the signed little-endian decoding of (a, b xor 0x80); in particular
    [0x34; 0x02] decodes to -32204. *)
Theorem pack16bit_signed_bizarre_flips_sign_bit :
  (forall a b, pack16bit_signed_bizarre [a; b] = pack16bit_signed [a; Z.lxor b 128]) /\
  pack16bit_signed_bizarre [52; 2] = -32204.
Proof.
  split.
  - intros a b. unfold pack16bit_signed_bizarre, pack16bit_signed, byte_at. cbn [nth].
    rewrite Z.lor_comm. reflexivity.
  - reflexivity.
Qed.

(** Witness of C2: a one-message session that accepts the 8-byte frame. *)
Lemma send_payload_msg_frame_witness :
  let w := Demo.world_of device_zero [RWrite 8] in
  ((length (@nil Z) <= 56)%nat /\ length (w_send_packet w) = 64%nat /\
   w_script w = RWrite 8 :: [] /\ 8 <= 8 + Z.of_nat (length (@nil Z))) /\
  (let '(ok, w') := send_payload_msg (E:=demo_ext) 26 (Z.of_nat (length (@nil Z))) [] w in
   exists frame,
    w_log w' = w_log w ++ [IoWrite frame] /\
    length frame = (5 + (3 + length (@nil Z)))%nat /\
    byte_at frame 0 = 170 /\
    le_value (get_bytes 5 2 frame) = 3 + Z.of_nat (length (@nil Z)) /\
    byte_at frame 7 = 26 /\
    get_bytes 8 (length (@nil Z)) frame = [] /\
    get_bytes 1 4 frame =
      le32 (to_uint32 (crc32_checksum (Ext:=demo_ext) (get_bytes 5 (3 + length (@nil Z)) frame))) /\
    (ok = false <-> 8 < 5 + (3 + Z.of_nat (length (@nil Z))))).
Proof.
  intros w.
  assert (H1 : (length (@nil Z) <= 56)%nat) by (cbn; lia).
  assert (H2 : length (w_send_packet w) = 64%nat) by reflexivity.
  assert (H3 : w_script w = RWrite 8 :: []) by reflexivity.
  assert (H4 : 8 <= 8 + Z.of_nat (length (@nil Z))) by (cbn; lia).
  split; [auto|].
  exact (send_payload_msg_frame w 26 [] 8 [] H1 H2 H3 H4).
Defined.

(** Witness of C5: the static-id reply, read as a 4-byte payload. *)
Lemma recv_payload_msg_single_frame_witness :
  let w := Demo.world_of device_zero [RRead (Some Demo.static_id_frame)] in
  (4 <= 56)%nat /\
  (let '(r, w') := recv_payload_msg (E:=demo_ext) 26 (Z.of_nat 4) w in
   w_log w' = w_log w ++ [IoRead (5 + (3 + Z.of_nat 4))] /\
   w_script w' = tl (w_script w) /\
   (forall data, r = Some data ->
      exists report rest, w_script w = RRead (Some report) :: rest /\
        (5 + (3 + 4) <= length report)%nat /\ byte_at report 7 = 26 /\
        data = get_bytes 8 4 report) /\
   (forall report rest, w_script w = RRead (Some report) :: rest ->
      byte_at report 7 <> 26 -> r = None)).
Proof.
  intros w. assert (H : (4 <= 56)%nat) by lia.
  split; [exact H|]. exact (recv_payload_msg_single_frame w 26 4 H).
Defined.

(** Witness of C6: the bytes 0..129 downloaded into a 131-byte buffer. *)
Lemma calibration_download_130_witness :
  let blob := Demo.blob130 in
  let h := Demo.header in
  let buf := repeat 0 131 in
  let w := Demo.world_of device_zero
    [RWrite 8; RRead (Some (h ++ DEVICE_IMU_MSG_CAL_DATA_GET_NEXT_SEGMENT :: firstn 56 blob));
     RWrite 8; RRead (Some (h ++ DEVICE_IMU_MSG_CAL_DATA_GET_NEXT_SEGMENT :: firstn 56 (skipn 56 blob)));
     RWrite 8; RRead (Some (h ++ DEVICE_IMU_MSG_CAL_DATA_GET_NEXT_SEGMENT :: skipn 112 blob))] in
  (length blob = 130%nat /\ length h = 7%nat /\ length (w_send_packet w) = 64%nat) /\
  (let '(r, w') := calibration_download_loop (E:=demo_ext) (Z.to_nat 130) 0 130 buf w in
   r = (130, blob ++ skipn 130 buf) /\
   w_script w' = [] /\
   w_log w' = w_log w ++
     [IoWrite (wire_frame (E:=demo_ext) DEVICE_IMU_MSG_CAL_DATA_GET_NEXT_SEGMENT []); IoRead (8 + 56);
      IoWrite (wire_frame (E:=demo_ext) DEVICE_IMU_MSG_CAL_DATA_GET_NEXT_SEGMENT []); IoRead (8 + 56);
      IoWrite (wire_frame (E:=demo_ext) DEVICE_IMU_MSG_CAL_DATA_GET_NEXT_SEGMENT []); IoRead (8 + 18)]).
Proof.
  intros blob h buf w.
  assert (Hb : length blob = 130%nat) by (vm_compute; reflexivity).
  assert (Hh : length h = 7%nat) by reflexivity.
  assert (Hp : length (w_send_packet w) = 64%nat) by reflexivity.
  split; [auto|].
  exact (calibration_download_130 blob h h h buf w [] Hb Hh Hh Hh Hp
           (eq_sym (app_nil_r _))).
Defined.

(** Witness of C8: one data frame on a streaming session at the identity orientation. *)
Lemma device_imu_read_orientation_check_witness :
  let d := Demo.streaming_session FUSION_IDENTITY_QUATERNION in
  let report := Demo.data_frame in
  let w := Demo.world_of d [RRead (Some report)] in
  (w_device w = Some d /\ handle d = true /\ w_script w = RRead (Some report) :: [] /\
   (64 <= length report)%nat /\ byte_at report 0 = 1 /\ byte_at report 1 = 2) /\
  (let '(r, w') := device_imu_read (E:=demo_ext) 0 w in
   let upd := if callback d
              then [IoCallback (le_value (pkt_timestamp report)) DEVICE_IMU_EVENT_UPDATE]
              else [] in
   w_script w' = [] /\
   match ahrs d with
   | None => r = DEVICE_IMU_ERROR_NO_ERROR /\ w_log w' = w_log w ++ IoRead 64 :: upd
   | Some _ =>
       exists a, option_map ahrs (w_device w') = Some (Some a) /\
       let q := FusionAhrsGetQuaternion a in
       if isnan (qx q) || isnan (qy q) || isnan (qz q) || isnan (qw q)
       then r = DEVICE_IMU_ERROR_INVALID_VALUE /\ w_log w' = w_log w ++ [IoRead 64]
       else r = DEVICE_IMU_ERROR_NO_ERROR /\ w_log w' = w_log w ++ IoRead 64 :: upd
   end).
Proof.
  intros d report w.
  assert (H1 : w_device w = Some d) by reflexivity.
  assert (H2 : handle d = true) by reflexivity.
  assert (H3 : w_script w = RRead (Some report) :: []) by reflexivity.
  assert (H4 : (64 <= length report)%nat) by (vm_compute; lia).
  assert (H5 : byte_at report 0 = 1) by reflexivity.
  assert (H6 : byte_at report 1 = 2) by reflexivity.
  split; [auto 7|].
  exact (device_imu_read_orientation_check 0 w d report [] H1 H2 H3 H4 H5 H6).
Defined.

(** Witness of C9: a device that answers the static-id request. *)
Lemma open_static_id_outcome_witness :
  let w := Demo.world_of device_zero [RWrite 8; RRead (Some Demo.static_id_frame)] in
  (length (w_send_packet w) = 64%nat /\
   w_script w = RWrite 8 :: [RRead (Some Demo.static_id_frame)]) /\
  (let '(r, w') := open_static_id (E:=demo_ext) w in
   if 8 =? 8
   then r = None /\
        option_map static_id (w_device w') =
        Some (match [RRead (Some Demo.static_id_frame)] with
              | RRead (Some report) :: _ =>
                  if ((12 <=? length report)%nat && (byte_at report 7 =? 26))%bool
                  then le_value (get_bytes 8 4 report) else 0x20220101
              | _ => 0x20220101
              end)
   else r = Some DEVICE_IMU_ERROR_PAYLOAD_FAILED).
Proof.
  intros w.
  assert (H1 : length (w_send_packet w) = 64%nat) by reflexivity.
  assert (H2 : w_script w = RWrite 8 :: [RRead (Some Demo.static_id_frame)]) by reflexivity.
  split; [auto|].
  exact (open_static_id_outcome w 8 _ H1 H2).
Defined.

(** Witness of C10: zero iterations on a streaming session. *)
Lemma device_imu_calibrate_calibration_unchanged_witness :
  let w := Demo.world_of (Demo.streaming_session FUSION_IDENTITY_QUATERNION) [] in
  (exists d c, w_device w = Some d /\ handle d = true /\ calibration d = Some c) /\
  (let '(r, w') := device_imu_calibrate (E:=demo_ext) 0 true true true w in
   (r <> DEVICE_IMU_ERROR_NO_ERROR -> device_calibration w' = device_calibration w) /\
   (0 = 0 ->
    (exists d c, w_device w = Some d /\ handle d = true /\ calibration d = Some c) ->
    r = DEVICE_IMU_ERROR_NO_ERROR /\ device_calibration w' = device_calibration w)).
Proof.
  intros w.
  assert (H : exists d c, w_device w = Some d /\ handle d = true /\ calibration d = Some c).
  { exists (Demo.streaming_session FUSION_IDENTITY_QUATERNION), default_calibration.
    repeat split. }
  split; [exact H|].
  exact (device_imu_calibrate_calibration_unchanged 0 true true true w).
Defined.

(** Counterexample to C8 as stated: an orientation with an infinite
    component passes the check (which tests NaN only) and the UPDATE event
    is dispatched. *)
Lemma infinite_orientation_accepted :
  fst Demo.infinite_orientation_run = DEVICE_IMU_ERROR_NO_ERROR /\
  w_log (snd Demo.infinite_orientation_run) = [IoRead 64; IoCallback 0 DEVICE_IMU_EVENT_UPDATE] /\
  option_map ahrs (w_device (snd Demo.infinite_orientation_run)) =
    Some (Some (mkQuaternion f_one Demo.f_inf f_zero f_zero)).
Proof. vm_compute. repeat split. Qed.

(** Counterexample to C9 as stated: when the static-id request itself is
    refused, [device_imu_open] fails with PAYLOAD_FAILED and never sets the
    fallback id. *)
Lemma static_id_send_failure_aborts_open :
  fst Demo.static_id_send_failure_run = DEVICE_IMU_ERROR_PAYLOAD_FAILED /\
  option_map static_id (w_device (snd Demo.static_id_send_failure_run)) = Some 0.
Proof. vm_compute. split; reflexivity. Qed.

(* ------------------------------------------------------------------ *)
(** ** Further properties of the driver *)


Lemma lor_shiftl_add (a b : Z) (n : Z) :
  0 <= n -> 0 <= a < 2 ^ n -> Z.lor a (Z.shiftl b n) = a + b * 2 ^ n.
Proof.
  intros Hn Ha. rewrite Z.shiftl_mul_pow2 by exact Hn.
  assert (H0 : Z.land a (b * 2 ^ n) = 0).
  { apply Z.bits_inj'. intros i Hi. rewrite Z.land_spec, Z.bits_0.
    destruct (Z.lt_ge_cases i n) as [Hlt|Hge].
    - rewrite Z.mul_pow2_bits_low by lia. apply andb_false_r.
    - rewrite Z.testbit_odd, Z.shiftr_div_pow2 by lia.
      rewrite Z.div_small; [reflexivity|].
      split; [lia|]. apply Z.lt_le_trans with (2 ^ n); [lia|].
      apply Z.pow_le_mono_r; lia. }
  rewrite <- Z.lxor_lor by exact H0. rewrite <- Z.add_nocarry_lxor by exact H0. reflexivity.
Qed.

Ltac pow_consts :=
  repeat match goal with
  | |- context [2 ^ ?n] => let v := eval vm_compute in (2 ^ n) in change (2 ^ n) with v
  | H : context [2 ^ ?n] |- _ =>
      let v := eval vm_compute in (2 ^ n) in change (2 ^ n) with v in H
  end.

Ltac ltb_cases :=
  repeat match goal with |- context [?x <? ?y] => destruct (Z.ltb_spec x y) end.


Lemma byte_land_128 (c : Z) : is_byte c -> (Z.land c 128 =? 0) = (c <? 128).
Proof.
  intros Hc. unfold is_byte in Hc. change 128 with (2 ^ 7).
  destruct (Z.ltb_spec c (2 ^ 7)) as [Hlt|Hge].
  - apply Z.eqb_eq. apply Z.bits_inj'. intros i Hi. rewrite Z.land_spec, Z.bits_0.
    destruct (Z.eq_dec i 7) as [->|Hne].
    + rewrite Z.testbit_odd, Z.shiftr_div_pow2 by lia. rewrite Z.div_small by lia. reflexivity.
    + rewrite Z.pow2_bits_false by congruence. apply andb_false_r.
  - apply Z.eqb_neq. intros H.
    assert (Hb : Z.testbit (Z.land c (2 ^ 7)) 7 = true).
    { rewrite Z.land_spec, Z.pow2_bits_true by lia. rewrite andb_true_r.
      rewrite Z.testbit_odd, Z.shiftr_div_pow2 by lia.
      replace (c / 2 ^ 7) with 1; [reflexivity|].
      apply Z.div_unique with (c - 128); change (2 ^ 7) with 128 in *; lia. }
    rewrite H in Hb. discriminate.
Qed.

Ltac byte_bounds :=
  repeat match goal with H : is_byte _ |- _ => unfold is_byte in H end.

Lemma pack16bit_signed_bytes (a b : Z) : is_byte a -> is_byte b ->
  pack16bit_signed [a; b] =
  if b <? 128 then a + 256 * b else a + 256 * b - 2 ^ 16.
Proof.
  intros Ha Hb. byte_bounds. unfold pack16bit_signed, byte_at. cbn [nth].
  rewrite Z.lor_comm, lor_shiftl_add by (pow_consts; lia).
  unfold to_int16, to_uint16. rewrite Z.mod_mod by lia.
  rewrite Z.mod_small by (pow_consts; lia).
  ltb_cases; pow_consts; lia.
Qed.

Lemma pack32bit_signed_bytes (a b c d : Z) :
  is_byte a -> is_byte b -> is_byte c -> is_byte d ->
  pack32bit_signed [a; b; c; d] =
  let v := a + 256 * b + 65536 * c + 16777216 * d in
  if d <? 128 then v else v - 2 ^ 32.
Proof.
  intros Ha Hb Hc Hd. byte_bounds. unfold pack32bit_signed, byte_at. cbn [nth].
  rewrite (lor_shiftl_add a b 8) by (pow_consts; lia).
  rewrite (lor_shiftl_add _ c 16) by (pow_consts; lia).
  rewrite (lor_shiftl_add _ d 24) by (pow_consts; lia).
  unfold to_int32, to_uint32. rewrite Z.mod_mod by lia.
  rewrite Z.mod_small by (pow_consts; lia). cbv zeta.
  ltb_cases; pow_consts; lia.
Qed.

Lemma pack24bit_signed_bytes (a b c : Z) :
  is_byte a -> is_byte b -> is_byte c ->
  pack24bit_signed [a; b; c] =
  let v := a + 256 * b + 65536 * c in
  if c <? 128 then v else v - 2 ^ 24.
Proof.
  intros Ha Hb Hc. unfold pack24bit_signed, byte_at. cbn [nth]. cbv zeta.
  rewrite (byte_land_128 c Hc). byte_bounds.
  rewrite (lor_shiftl_add a b 8) by (pow_consts; lia).
  rewrite (lor_shiftl_add _ c 16) by (pow_consts; lia).
  unfold to_int32, to_uint32.
  destruct (Z.ltb_spec c 128); cbn [negb].
  - rewrite Z.mod_mod, Z.mod_small by (pow_consts; lia).
    ltb_cases; pow_consts; lia.
  - rewrite lor_shiftl_add by (pow_consts; lia).
    rewrite Z.mod_mod, Z.mod_small by (pow_consts; lia).
    ltb_cases; pow_consts; lia.
Qed.

Lemma le16_bytes (u : Z) : 0 <= u < 2 ^ 16 -> le16 u = [u mod 256; (u / 256) mod 256].
Proof.
  intros H. unfold le16. change 255 with (Z.ones 8).
  rewrite !Z.land_ones, Z.shiftr_div_pow2 by lia. reflexivity.
Qed.

Lemma le32_bytes (u : Z) :
  le32 u = [u mod 256; (u / 256) mod 256; ((u / 256) / 256) mod 256;
            (((u / 256) / 256) / 256) mod 256].
Proof.
  unfold le32. change 255 with (Z.ones 8).
  rewrite !Z.land_ones, !Z.shiftr_div_pow2 by lia.
  change (2 ^ 16) with (2 ^ 8 * 2 ^ 8). change (2 ^ 24) with (2 ^ 8 * 2 ^ 8 * 2 ^ 8).
  rewrite <- !Z.div_div by lia. reflexivity.
Qed.

Ltac mod_bounds :=
  repeat match goal with
  | |- context [?x mod 256] =>
      lazymatch goal with
      | _ : 0 <= x mod 256 < 256 |- _ => fail
      | _ => assert (0 <= x mod 256 < 256) by (apply Z.mod_pos_bound; lia)
      end
  end.

Lemma codec_round_trip_16 (v : Z) :
  - 2 ^ 15 <= v < 2 ^ 15 -> pack16bit_signed (le16 (to_uint16 v)) = v.
Proof.
  intros Hv. unfold to_uint16.
  assert (Hu : 0 <= v mod 2 ^ 16 < 2 ^ 16) by (apply Z.mod_pos_bound; lia).
  rewrite le16_bytes by exact Hu. set (u := v mod 2 ^ 16) in *.
  mod_bounds.
  rewrite pack16bit_signed_bytes by (unfold is_byte; lia).
  pose proof (Z.div_mod u 256 ltac:(lia)) as D1.
  pose proof (Z.div_mod (u / 256) 256 ltac:(lia)) as D2.
  assert (Hq : 0 <= u / 256 < 256).
  { split; [apply Z.div_pos | apply Z.div_lt_upper_bound]; pow_consts; lia. }
  rewrite (Z.mod_small (u / 256)) by lia.
  assert (Hv' : v = u \/ v = u - 2 ^ 16).
  { unfold u. destruct (Z.leb_spec 0 v).
    - left. rewrite Z.mod_small; lia.
    - right. rewrite Z.mod_eq by lia.
      assert (v / 2 ^ 16 = -1) as -> by (symmetry; apply Z.div_unique with (v + 2 ^ 16); pow_consts; lia).
      lia. }
  ltb_cases; pow_consts; lia.
Qed.

Lemma codec_round_trip_32 (v : Z) :
  - 2 ^ 31 <= v < 2 ^ 31 -> pack32bit_signed (le32 (to_uint32 v)) = v.
Proof.
  intros Hv. unfold to_uint32.
  assert (Hu : 0 <= v mod 2 ^ 32 < 2 ^ 32) by (apply Z.mod_pos_bound; lia).
  rewrite le32_bytes. set (u := v mod 2 ^ 32) in *.
  mod_bounds.
  rewrite pack32bit_signed_bytes by (unfold is_byte; lia). cbv zeta.
  pose proof (Z.div_mod u 256 ltac:(lia)) as D1.
  pose proof (Z.div_mod (u / 256) 256 ltac:(lia)) as D2.
  pose proof (Z.div_mod (u / 256 / 256) 256 ltac:(lia)) as D3.
  pose proof (Z.div_mod (u / 256 / 256 / 256) 256 ltac:(lia)) as D4.
  assert (G1 : 0 <= u / 256) by (apply Z.div_pos; lia).
  assert (G2 : 0 <= u / 256 / 256) by (apply Z.div_pos; lia).
  assert (G3 : 0 <= u / 256 / 256 / 256 < 256).
  { split; [apply Z.div_pos; lia|]. rewrite !Z.div_div by lia.
    apply Z.div_lt_upper_bound; pow_consts; lia. }
  rewrite (Z.mod_small (u / 256 / 256 / 256)) in * by lia.
  assert (Hv' : v = u \/ v = u - 2 ^ 32).
  { unfold u. destruct (Z.leb_spec 0 v).
    - left. rewrite Z.mod_small; lia.
    - right. rewrite Z.mod_eq by lia.
      assert (v / 2 ^ 32 = -1) as -> by (symmetry; apply Z.div_unique with (v + 2 ^ 32); pow_consts; lia).
      lia. }
  ltb_cases; pow_consts; lia.
Qed.

Lemma codec_round_trip_24 (v : Z) :
  - 2 ^ 23 <= v < 2 ^ 23 -> pack24bit_signed (firstn 3 (le32 (to_uint32 v))) = v.
Proof.
  intros Hv. unfold to_uint32.
  assert (Hu : 0 <= v mod 2 ^ 32 < 2 ^ 32) by (apply Z.mod_pos_bound; lia).
  rewrite le32_bytes. cbn [firstn]. set (u := v mod 2 ^ 32) in *.
  mod_bounds.
  rewrite pack24bit_signed_bytes by (unfold is_byte; lia). cbv zeta.
  pose proof (Z.div_mod u 256 ltac:(lia)) as D1.
  pose proof (Z.div_mod (u / 256) 256 ltac:(lia)) as D2.
  pose proof (Z.div_mod (u / 256 / 256) 256 ltac:(lia)) as D3.
  pose proof (Z.div_mod (u / 256 / 256 / 256) 256 ltac:(lia)) as D4.
  assert (G1 : 0 <= u / 256) by (apply Z.div_pos; lia).
  assert (G2 : 0 <= u / 256 / 256) by (apply Z.div_pos; lia).
  assert (G3 : 0 <= u / 256 / 256 / 256 < 256).
  { split; [apply Z.div_pos; lia|]. rewrite !Z.div_div by lia.
    apply Z.div_lt_upper_bound; pow_consts; lia. }
  rewrite (Z.mod_small (u / 256 / 256 / 256)) in * by lia.
  assert (Hv' : (v = u /\ u < 2 ^ 23) \/ (v = u - 2 ^ 32 /\ 2 ^ 32 - 2 ^ 23 <= u)).
  { unfold u. destruct (Z.leb_spec 0 v).
    - left. rewrite Z.mod_small; lia.
    - right. rewrite Z.mod_eq by lia.
      assert (v / 2 ^ 32 = -1) as -> by (symmetry; apply Z.div_unique with (v + 2 ^ 32); pow_consts; lia).
      lia. }
  ltb_cases; pow_consts; lia.
Qed.


Lemma lxor_128 (b : Z) : is_byte b ->
  Z.lxor b 128 = if b <? 128 then b + 128 else b - 128.
Proof.
  intros Hb. unfold is_byte in Hb.
  assert (Hall : forallb (fun b => Z.lxor b 128 =? if b <? 128 then b + 128 else b - 128)
                         (map Z.of_nat (seq 0 256)) = true) by (vm_compute; reflexivity).
  rewrite forallb_forall in Hall. apply Z.eqb_eq, Hall.
  apply in_map_iff. exists (Z.to_nat b). split; [lia|]. apply in_seq. lia.
Qed.

Lemma pack16bit_signed_bizarre_bytes (a b : Z) : is_byte a -> is_byte b ->
  pack16bit_signed_bizarre [a; b] = a + 256 * b - 2 ^ 15.
Proof.
  intros Ha Hb. unfold pack16bit_signed_bizarre, byte_at. cbn [nth].
  rewrite (lxor_128 b Hb). byte_bounds.
  rewrite lor_shiftl_add by (pow_consts; lia).
  unfold to_int16, to_uint16. rewrite Z.mod_mod by lia.
  destruct (Z.ltb_spec b 128).
  - rewrite Z.mod_small by (pow_consts; lia). ltb_cases; pow_consts; lia.
  - rewrite Z.mod_small by (pow_consts; lia). ltb_cases; pow_consts; lia.
Qed.

(** X6: the byte-swapped decoders are the plain ones on the reversed
    bytes: [pack32bit_signed_swap [a; b; c; d]] is [pack32bit_signed
    [d; c; b; a]] and [pack16bit_signed_swap [a; b]] is [pack16bit_signed
    [b; a]]. *)
Lemma swap_codecs_reverse (a b c d : Z) :
  pack32bit_signed_swap [a; b; c; d] = pack32bit_signed [d; c; b; a] /\
  pack16bit_signed_swap [a; b] = pack16bit_signed [b; a].
Proof.
  split; [|reflexivity].
  unfold pack32bit_signed_swap, pack32bit_signed, byte_at. cbn [nth].
  do 2 f_equal. apply Z.bits_inj'. intros n Hn. rewrite !Z.lor_spec. btauto.
Qed.


Lemma payload_size_min (size : Z) :
  (if size >? MAX_PACKET_SIZE then MAX_PACKET_SIZE else size) = Z.min size 64.
Proof. unfold MAX_PACKET_SIZE. destruct (Z.gtb_spec size 64); lia. Qed.

(** X7: [send_payload] writes the first [min size 64] bytes of the
    payload in one [hid_write], and succeeds exactly when the transport
    accepts that many bytes and [size] is at most 64; the device is
    untouched. *)
Lemma send_payload_outcome {E : Ext} (size : Z) (payload : list Z) (w : world) :
  0 <= size ->
  let '(ok, w') := send_payload size payload w in
  w_log w' = w_log w ++ [IoWrite (firstn (Z.to_nat (Z.min size 64)) payload)] /\
  w_script w' = tl (w_script w) /\ w_device w' = w_device w /\
  ok = match w_script w with
       | RWrite accepted :: _ => (accepted =? Z.min size 64) && (size <=? 64)
       | _ => false
       end.
Proof.
  intros Hs. unfold send_payload. rewrite payload_size_min.
  unfold hid_write, log_event, modify, next_reply, bind, ret.
  assert (Hm : (-1 =? Z.min size 64) = false) by (apply Z.eqb_neq; lia).
  destruct w as [sc lg sp rp mx mn dv]. cbn [w_script w_log w_device set_log].
  destruct sc as [|[t|r] rest]; cbn [set_script w_script w_log w_device tl].
  - rewrite Hm. cbn. repeat split.
  - destruct (Z.eqb_spec t (Z.min size 64)) as [->|Ht]; cbn [negb andb].
    + cbn. repeat split. destruct (Z.leb_spec size 64).
      * rewrite Z.min_l by lia. apply Z.eqb_refl.
      * rewrite Z.min_r by lia. apply Z.eqb_neq. lia.
    + cbn. repeat split.
  - rewrite Hm. cbn. repeat split.
Qed.

Ltac zbool :=
  repeat match goal with
  | |- context [?x <? ?y] => destruct (Z.ltb_spec x y)
  | |- context [?x <=? ?y] => destruct (Z.leb_spec x y)
  | |- context [?x =? ?y] => destruct (Z.eqb_spec x y)
  end; cbn [andb orb negb]; first [reflexivity | lia | exfalso; lia].

Lemma recv_payload_run {E : Ext} (size : Z) (w : world) :
  0 <= size ->
  let '((ok, bytes), w') := recv_payload size w in
  w_log w' = w_log w ++ [IoRead (Z.min size 64)] /\
  w_script w' = tl (w_script w) /\ w_device w' = w_device w /\
  match w_script w with
  | RRead (Some report) :: _ =>
      bytes = firstn (Z.to_nat (Z.min size 64)) report /\
      ok = (0 <? size) && (size <=? 64) && (size <=? Z.of_nat (length report))
  | _ => ok = false
  end.
Proof.
  intros Hs. unfold recv_payload. rewrite payload_size_min.
  unfold hid_read, log_event, modify, next_reply, bind, ret.
  assert (Hm : (-1 =? Z.min size 64) = false) by (apply Z.eqb_neq; lia).
  assert (Hg : (-1 >=? Z.min size 64) = false) by (rewrite Z.geb_leb; apply Z.leb_gt; lia).
  destruct w as [sc lg sp rp mx mn dv]. cbn [w_script w_log w_device set_log].
  destruct sc as [|[t|[report|]] rest]; cbn [set_script w_script w_log w_device tl].
  - rewrite Hg, Hm. cbn. repeat split.
  - rewrite Hg, Hm. cbn. repeat split.
  - rewrite length_firstn, Nat2Z.inj_min, Z2Nat.id by lia.
    remember (if _ >=? _ then _ else _) as T eqn:HT.
    assert (HT' : T = Z.min (Z.of_nat (length report)) (Z.min size 64)).
    { subst T. rewrite Z.geb_leb. zbool. }
    clear HT. subst T.
    destruct (Z.eqb_spec (Z.min (Z.of_nat (length report)) (Z.min size 64)) 0);
      [|destruct (Z.eqb_spec (Z.min (Z.of_nat (length report)) (Z.min size 64)) (Z.min size 64))];
      cbn [negb]; cbn; repeat split; zbool.
  - rewrite Hg, Hm. cbn. repeat split.
Qed.

(** X9: [recv_payload_msg] asked for more than 56 data bytes (the frame
    is then longer than a 64-byte report) reads one report and always
    fails, whatever the device answers. *)
Lemma recv_payload_msg_oversize {E : Ext} (msgid len : Z) (w : world) :
  56 < len <= 247 ->
  let '(r, w') := recv_payload_msg msgid len w in
  r = None /\ w_log w' = w_log w ++ [IoRead 64] /\ w_script w' = tl (w_script w) /\
  w_device w' = w_device w.
Proof.
  intros Hl. unfold recv_payload_msg. rewrite bind_run. unfold get_world at 1.
  assert (Hsz : to_uint8 (to_uint16 (5 + to_uint16 (3 + len))) = 8 + len).
  { unfold to_uint8, to_uint16. rewrite (Z.mod_small (3 + len)) by (pow_consts; lia).
    rewrite (Z.mod_small (5 + (3 + len)) (2 ^ 16)) by (pow_consts; lia).
    rewrite Z.mod_small by (pow_consts; lia). lia. }
  cbv zeta. rewrite Hsz. rewrite bind_run.
  pose proof (recv_payload_run (8 + len) w ltac:(lia)) as H.
  destruct (recv_payload (8 + len) w) as [[ok bytes] w1].
  destruct H as (Hlog & Hs & Hd & Hok).
  rewrite Z.min_r in Hlog by lia.
  assert (ok = false) as ->.
  { destruct (w_script w) as [|[?|[report|]] ?]; try exact Hok.
    destruct Hok as [_ ->]. replace (8 + len <=? 64) with false by (symmetry; apply Z.leb_gt; lia).
    rewrite andb_false_r. reflexivity. }
  unfold modify, bind, ret. cbn [negb]. cbn. repeat split; assumption.
Qed.


Lemma hid_read_fail_run {E : Ext} (n : Z) (w : world) (rest : list reply) :
  w_script w = RRead None :: rest ->
  hid_read n w = ((-1, []), set_script rest (set_log (w_log w ++ [IoRead n]) w)).
Proof.
  intros Hs. unfold hid_read, log_event, modify, next_reply, bind, ret.
  cbv beta iota zeta delta [set_log w_script]. destruct w; cbn in *. rewrite Hs. reflexivity.
Qed.

(** X10: the outcomes of [device_imu_read] before any sample is
    processed: no device, no handle, a failed read (UNPLUGGED), an empty
    read (NO_ERROR), a short report (UNEXPECTED), the init report [AA 53]
    (NO_ERROR and the INIT callback when a callback is set) and any other
    signature than [01 02] (WRONG_SIGNATURE); none of them changes the
    device, and each reads exactly one report. *)
Theorem device_imu_read_non_data {E : Ext} (timeout : Z) (w : world) :
  (w_device w = None -> device_imu_read timeout w = (DEVICE_IMU_ERROR_NO_DEVICE, w)) /\
  (forall d, w_device w = Some d -> handle d = false ->
     device_imu_read timeout w = (DEVICE_IMU_ERROR_NO_HANDLE, w)) /\
  (forall d r rest, w_device w = Some d -> handle d = true ->
     w_script w = RRead r :: rest ->
     let '(res, w') := device_imu_read timeout w in
     match r with
     | None => res = DEVICE_IMU_ERROR_UNPLUGGED /\ w_script w' = rest /\ w_device w' = w_device w /\
               w_log w' = w_log w ++ [IoRead 64]
     | Some report =>
         if (length report =? 0)%nat then
           res = DEVICE_IMU_ERROR_NO_ERROR /\ w_script w' = rest /\ w_device w' = w_device w /\
           w_log w' = w_log w ++ [IoRead 64]
         else if (length report <? 64)%nat then
           res = DEVICE_IMU_ERROR_UNEXPECTED /\ w_script w' = rest /\ w_device w' = w_device w /\
           w_log w' = w_log w ++ [IoRead 64]
         else if signature_is report 170 83 then
           res = DEVICE_IMU_ERROR_NO_ERROR /\ w_script w' = rest /\ w_device w' = w_device w /\
           w_log w' = w_log w ++ IoRead 64 ::
             (if callback d
              then [IoCallback (le_value (pkt_timestamp report)) DEVICE_IMU_EVENT_INIT]
              else [])
         else if negb (signature_is report 1 2) then
           res = DEVICE_IMU_ERROR_WRONG_SIGNATURE /\ w_script w' = rest /\ w_device w' = w_device w /\
           w_log w' = w_log w ++ [IoRead 64]
         else True
     end).
Proof.
  unfold device_imu_read, device_imu_read_with. split; [|split].
  - intros Hd. rewrite bind_run. unfold get_world at 1. rewrite Hd. reflexivity.
  - intros d Hd Hh. rewrite bind_run. unfold get_world at 1. rewrite Hd, Hh. reflexivity.
  - intros d r rest Hd Hh Hs.
    rewrite bind_run. unfold get_world at 1. rewrite Hd, Hh.
    unfold MAX_PACKET_SIZE, sizeof_device_imu_packet_type. change (64 =? 64) with true. cbn [negb].
    rewrite bind_run. unfold hid_read_timeout.
    destruct r as [report|].
    2: { rewrite (hid_read_fail_run _ _ _ Hs). cbn. destruct w; cbn in *; subst.
         repeat split; reflexivity. }
    rewrite (hid_read_run _ _ _ _ Hs). change (Z.to_nat 64) with 64%nat.
    rewrite length_firstn.
    destruct (Nat.eqb_spec (length report) 0) as [H0|H0].
    { rewrite H0. cbn. destruct w; cbn in *; subst; repeat split; reflexivity. }
    destruct (Nat.ltb_spec (length report) 64) as [Hlt|Hge].
    { rewrite Nat.min_r by lia.
      replace (Z.of_nat (length report) =? -1) with false by (symmetry; apply Z.eqb_neq; lia).
      replace (Z.of_nat (length report) =? 0) with false by (symmetry; apply Z.eqb_neq; lia).
      replace (64 =? Z.of_nat (length report)) with false by (symmetry; apply Z.eqb_neq; lia).
      cbn. destruct w; cbn in *; subst; repeat split; reflexivity. }
    rewrite Nat.min_l by lia.
    destruct (packet_of_report report Hge) as [Pb Pg].
    set (packet := set_bytes 0 (firstn 64 report) zero_packet) in *.
    change (Z.of_nat 64) with 64. cbn [Z.eqb Pos.eqb negb].
    assert (S1 : signature_is packet 170 83 = signature_is report 170 83).
    { unfold signature_is. rewrite !Pb by lia. reflexivity. }
    assert (S2 : signature_is packet 1 2 = signature_is report 1 2).
    { unfold signature_is. rewrite !Pb by lia. reflexivity. }
    assert (Ts : pkt_timestamp packet = pkt_timestamp report) by (apply Pg; lia).
    rewrite S1, S2, Ts. clear S1 S2 Ts Pb Pg. clearbody packet.
    destruct (signature_is report 170 83).
    + unfold device_imu_callback.
      destruct (callback d); unfold log_event, modify, bind, ret; cbn;
        destruct w; cbn in *; subst; repeat split; rewrite <- ?app_assoc; reflexivity.
    + destruct (signature_is report 1 2); cbn [negb]; [lazymatch goal with |- let '(_, _) := ?X in _ => destruct X; exact I end|].
      cbn. destruct w; cbn in *; subst; repeat split; reflexivity.
Qed.


Lemma fmax_nan_r (x : float) : fmax x S754_nan = S754_nan.
Proof. destruct x; reflexivity. Qed.
Lemma fmin_nan_r (x : float) : fmin x S754_nan = S754_nan.
Proof. destruct x as [s|s| |s m e]; try destruct s; reflexivity. Qed.
Lemma fmax_nan_l (y : float) : fmax S754_nan y = y.
Proof. destruct y; reflexivity. Qed.
Lemma fmin_nan_l (y : float) : fmin S754_nan y = y.
Proof. destruct y; reflexivity. Qed.

(** X11: the iron estimator's extrema on an axis where a sample is NaN
    are, after the next sample, that next sample's value on both the
    maximum and the minimum: C's [x > y ? x : y] forgets a NaN extreme. *)
Theorem iron_nan_sample_restarts_extrema {E : Ext} (m m2 : FusionVector) (w : world) :
  let w2 := snd (iterate_iron_offset_estimation m2
                   (snd (iterate_iron_offset_estimation m w))) in
  (vx m = S754_nan -> vx (w_iron_max w2) = vx m2 /\ vx (w_iron_min w2) = vx m2) /\
  (vy m = S754_nan -> vy (w_iron_max w2) = vy m2 /\ vy (w_iron_min w2) = vy m2) /\
  (vz m = S754_nan -> vz (w_iron_max w2) = vz m2 /\ vz (w_iron_min w2) = vz m2).
Proof.
  cbv zeta.
  unfold iterate_iron_offset_estimation, iron_step, bind, get_world, modify, ret, set_iron.
  cbn [snd w_iron_max w_iron_min vx vy vz].
  split; [|split]; intros Hn; rewrite Hn;
    rewrite ?fmax_nan_r, ?fmin_nan_r, ?fmax_nan_l, ?fmin_nan_l; split; reflexivity.
Qed.

(** X12: [device_imu_calibrate] never changes the misalignments, the
    sensitivities, the magnetometer offset or the noises of the calibration,
    and leaves the gyroscope offset, the accelerometer offset and the iron
    correction alone when the corresponding flag is false. *)
Theorem device_imu_calibrate_selected_fields {E : Ext} (iterations : Z)
        (gyro accel magnet : bool) (w : world) (d : device_imu_type)
        (c : device_imu_calibration_type) :
  w_device w = Some d -> calibration d = Some c ->
  let '(_, w') := device_imu_calibrate iterations gyro accel magnet w in
  exists c', w_device w' = Some (with_calibration (Some c') d) /\
    gyroscopeMisalignment c' = gyroscopeMisalignment c /\
    gyroscopeSensitivity c' = gyroscopeSensitivity c /\
    accelerometerMisalignment c' = accelerometerMisalignment c /\
    accelerometerSensitivity c' = accelerometerSensitivity c /\
    magnetometerMisalignment c' = magnetometerMisalignment c /\
    magnetometerSensitivity c' = magnetometerSensitivity c /\
    magnetometerOffset c' = magnetometerOffset c /\
    noises c' = noises c /\
    (gyro = false -> gyroscopeOffset c' = gyroscopeOffset c) /\
    (accel = false -> accelerometerOffset c' = accelerometerOffset c) /\
    (magnet = false -> softIronMatrix c' = softIronMatrix c /\
                       hardIronOffset c' = hardIronOffset c).
Proof.
  intros Hd Hc.
  assert (Hself : w_device w = Some (with_calibration (Some c) d)).
  { rewrite Hd. destruct d; cbn in *; subst; reflexivity. }
  assert (Kc : forall w', w_device w' = w_device w ->
            exists c', w_device w' = Some (with_calibration (Some c') d) /\
    gyroscopeMisalignment c' = gyroscopeMisalignment c /\
    gyroscopeSensitivity c' = gyroscopeSensitivity c /\
    accelerometerMisalignment c' = accelerometerMisalignment c /\
    accelerometerSensitivity c' = accelerometerSensitivity c /\
    magnetometerMisalignment c' = magnetometerMisalignment c /\
    magnetometerSensitivity c' = magnetometerSensitivity c /\
    magnetometerOffset c' = magnetometerOffset c /\
    noises c' = noises c /\
    (gyro = false -> gyroscopeOffset c' = gyroscopeOffset c) /\
    (accel = false -> accelerometerOffset c' = accelerometerOffset c) /\
    (magnet = false -> softIronMatrix c' = softIronMatrix c /\
                       hardIronOffset c' = hardIronOffset c)).
  { intros w' Hw'. exists c. rewrite Hw', Hself. repeat split; reflexivity. }
  unfold device_imu_calibrate, bind at 1, get_world.
  rewrite Hd. destruct (handle d) eqn:Hh; cbn [negb].
  2: { apply Kc. reflexivity. }
  rewrite Hc.
  unfold MAX_PACKET_SIZE, sizeof_device_imu_packet_type. change (64 =? 64) with true. cbn [negb].
  unfold bind at 1.
  pose proof (calibrate_loop_keeps_device (S (length (w_script w))) iterations
                calibrate_locals_init w) as Hk.
  destruct (calibrate_loop _ _ _ w) as [ex w1] eqn:Hl. cbn [snd] in Hk.
  destruct ex as [e|l].
  - apply Kc. exact Hk.
  - unfold get_device, bind. rewrite Hk, Hd, Hc.
    destruct (f_lt f_zero _).
    2: { apply Kc. exact Hk. }
    unfold put_device, modify, ret, set_device. cbn [w_device].
    eexists. split; [reflexivity|].
    destruct gyro, accel, magnet; cbn; repeat split; intros; discriminate || reflexivity.
Qed.


(** X16: [device_imu_close] frees exactly the allocations the session
    holds and closes its handle if it has one, then zeroes the session; a
    second close succeeds and releases nothing but the library. *)
Theorem device_imu_close_twice {E : Ext} (w : world) (d : device_imu_type) :
  w_device w = Some d ->
  let '((r1, a1), w1) := device_imu_close w in
  let '((r2, a2), w2) := device_imu_close w1 in
  r1 = DEVICE_IMU_ERROR_NO_ERROR /\ r2 = DEVICE_IMU_ERROR_NO_ERROR /\
  (In FreeCalibration a1 <-> calibration d <> None) /\
  (In FreeAhrs a1 <-> ahrs d <> None) /\
  (In FreeOffset a1 <-> offset d <> None) /\
  (In HidClose a1 <-> handle d = true) /\
  a2 = [DeviceExit] /\
  w_device w2 = Some device_zero /\
  w_script w2 = w_script w /\ w_log w2 = w_log w.
Proof.
  intros Hd. unfold device_imu_close, bind, get_world, put_device, modify, ret, set_device.
  rewrite Hd. cbn [w_device device_zero calibration ahrs offset handle w_script w_log app].
  repeat split; try reflexivity;
  destruct (calibration d), (ahrs d), (offset d), (handle d); cbn;
    intuition (congruence || discriminate).
Qed.

(** X17: after [device_imu_close], reading and calibrating fail with
    NO_HANDLE and resetting the calibration fails with NO_ALLOCATION, all
    without touching the world. *)
Theorem closed_session_refuses {E : Ext} (w : world) (d : device_imu_type)
        (timeout iterations : Z) (gyro accel magnet : bool) :
  w_device w = Some d ->
  let w1 := snd (device_imu_close w) in
  device_imu_read timeout w1 = (DEVICE_IMU_ERROR_NO_HANDLE, w1) /\
  device_imu_calibrate iterations gyro accel magnet w1 = (DEVICE_IMU_ERROR_NO_HANDLE, w1) /\
  device_imu_reset_calibration w1 = (DEVICE_IMU_ERROR_NO_ALLOCATION, w1).
Proof.
  intros Hd. unfold device_imu_close, bind, get_world, put_device, modify, ret, set_device.
  rewrite Hd. cbn [snd]. split; [|split]; reflexivity.
Qed.

(** X13: the early exits of [device_imu_open]: no device (nothing
    changes), [device_init] failing (NOT_INITIALIZED, session reset with the
    vendor id and callback), no IMU interface (NO_HANDLE), and the stream-stop
    request refused (PAYLOAD_FAILED after one write of the stop frame, with
    the handle and product id set). *)
Theorem device_imu_open_early_exits {E : Ext} (callback_set device_init_ok : bool)
        (found : option Z) (w : world) :
  let fresh h pid := mkDevice h xreal_vendor_id pid callback_set 0 None None None 0 f_zero in
  (w_device w = None ->
   device_imu_open callback_set device_init_ok found w = (DEVICE_IMU_ERROR_NO_DEVICE, w)) /\
  (w_device w <> None -> device_init_ok = false ->
   device_imu_open callback_set device_init_ok found w =
   (DEVICE_IMU_ERROR_NOT_INITIALIZED, set_device (Some (fresh false 0)) w)) /\
  (w_device w <> None -> device_init_ok = true -> found = None ->
   device_imu_open callback_set device_init_ok found w =
   (DEVICE_IMU_ERROR_NO_HANDLE, set_device (Some (fresh false 0)) w)) /\
  (forall pid accepted rest,
   w_device w <> None -> device_init_ok = true -> found = Some pid ->
   length (w_send_packet w) = 64%nat -> w_script w = RWrite accepted :: rest ->
   accepted <> 9 ->
   let '(r, w') := device_imu_open callback_set device_init_ok found w in
   r = DEVICE_IMU_ERROR_PAYLOAD_FAILED /\ w_script w' = rest /\
   w_log w' = w_log w ++ [IoWrite (wire_frame DEVICE_IMU_MSG_START_IMU_DATA [0])] /\
   w_device w' = Some (fresh true pid)).
Proof.
  cbv zeta. unfold device_imu_open. rewrite bind_run. change (get_world w) with (w, w).
  split; [|split; [|split]].
  - intros Hn. rewrite Hn. reflexivity.
  - intros Hn Hi. destruct (w_device w); [|congruence]. subst. reflexivity.
  - intros Hn Hi Hf. destruct (w_device w); [|congruence]. subst. reflexivity.
  - intros pid accepted rest Hn Hi Hf Hp Hs Ha.
    destruct (w_device w) as [d0|] eqn:Hd; [|congruence]. subst.
    unfold put_device, modify. cbn [bind negb].
    unfold send_payload_msg_signal.
    rewrite bind_run.
    match goal with |- context [send_payload_msg _ _ _ ?x] => set (w1 := x) end.
    assert (Hp1 : length (w_send_packet w1) = 64%nat) by exact Hp.
    assert (Hs1 : w_script w1 = RWrite accepted :: rest) by exact Hs.
    pose proof (send_payload_msg_ok w1 DEVICE_IMU_MSG_START_IMU_DATA [0] accepted rest
                  ltac:(cbn; lia) Hp1 Hs1) as Hsend.
    change (Z.of_nat (length [0])) with 1 in Hsend.
    destruct (send_payload_msg _ 1 [0] w1) as [ok w2].
    destruct Hsend as (Hok & Hs2 & Hl2 & _ & _ & _ & Hd2 & _).
    rewrite (proj2 (Z.eqb_neq accepted (8 + 1))) in Hok by lia. subst ok.
    cbn [negb]. unfold ret. split; [reflexivity|].
    split; [exact Hs2|]. split; [exact Hl2|]. exact Hd2.
Qed.


Lemma set_bytes_nil (off : nat) (buf : list Z) : set_bytes off [] buf = buf.
Proof. unfold set_bytes. cbn. rewrite Nat.add_0_r. apply firstn_skipn. Qed.

Lemma set_bytes_compose (off : nat) (s r buf : list Z) :
  (off + length s + length r <= length buf)%nat ->
  set_bytes (off + length s) r (set_bytes off s buf) = set_bytes off (s ++ r) buf.
Proof.
  intros H. unfold set_bytes.
  assert (Hf : length (firstn off buf) = off) by (rewrite length_firstn; lia).
  rewrite (app_assoc (firstn off buf) s).
  set (l1 := firstn off buf ++ s).
  assert (Hl1 : length l1 = (off + length s)%nat) by (subst l1; rewrite length_app; lia).
  assert (A : firstn (off + length s) (l1 ++ skipn (off + length s) buf) = l1).
  { rewrite <- Hl1, firstn_app, firstn_all, Nat.sub_diag, firstn_O, app_nil_r. reflexivity. }
  assert (B : skipn (off + length s + length r) (l1 ++ skipn (off + length s) buf) =
              skipn (off + length (s ++ r)) buf).
  { rewrite skipn_app, skipn_all2 by lia. cbn [app].
    rewrite Hl1, skipn_skipn, length_app. f_equal. lia. }
  rewrite A, B. subst l1. rewrite <- !app_assoc. reflexivity.
Qed.

Lemma chunks56_count (n : nat) (l : list Z) :
  (length l <= n)%nat ->
  (length l <= 56 * length (chunks56 n l) < length l + 56)%nat.
Proof.
  revert l. induction n as [|n IH]; intros l Hl.
  - destruct l; cbn in *; lia.
  - destruct l as [|x l']; [cbn; lia|].
    change (chunks56 (S n) (x :: l')) with (firstn 56 (x :: l') :: chunks56 n (skipn 56 (x :: l'))).
    cbn [length].
    specialize (IH (skipn 56 (x :: l'))). rewrite length_skipn in IH.
    cbn [length] in IH, Hl.
    specialize (IH ltac:(lia)). lia.
Qed.

Lemma chunks56_le (n : nat) (l : list Z) :
  (length l <= n)%nat -> (length (chunks56 n l) <= length l)%nat.
Proof. intros H. pose proof (chunks56_count n l H). lia. Qed.

Lemma download_all {E : Ext} (h : list Z) (n : nat) :
  forall (r : list Z) (pos : Z) (buf : list Z) (w : world) (fuel : nat) (rest : list reply),
  (length r <= n)%nat -> 0 <= pos -> pos + Z.of_nat (length r) < 2 ^ 32 ->
  (Z.to_nat pos + length r <= length buf)%nat ->
  length h = 7%nat -> length (w_send_packet w) = 64%nat ->
  (length (chunks56 n r) <= fuel)%nat ->
  w_script w = flat_map (segment_replies h) (chunks56 n r) ++ rest ->
  let '((p, b), w') := calibration_download_loop fuel pos (pos + Z.of_nat (length r)) buf w in
  p = pos + Z.of_nat (length r) /\ b = set_bytes (Z.to_nat pos) r buf /\
  w_script w' = rest /\ w_log w' = w_log w ++ flat_map segment_events (chunks56 n r) /\
  w_device w' = w_device w.
Proof.
  induction n as [|n IH]; intros r pos buf w fuel rest Hr Hpos HL Hb Hh Hsp Hf Hs.
  - destruct r; [|cbn in Hr; lia]. cbn [length Z.of_nat] in *. rewrite Z.add_0_r.
    destruct fuel; cbn [calibration_download_loop].
    + unfold ret. rewrite set_bytes_nil. cbn in Hs |- *. rewrite app_nil_r. repeat split; auto.
    + rewrite (proj2 (Z.ltb_ge pos pos)) by lia. cbn [negb]. unfold ret.
      rewrite set_bytes_nil. cbn in Hs |- *. rewrite app_nil_r. repeat split; auto.
  - destruct r as [|x r'].
    { cbn [length Z.of_nat] in *. rewrite Z.add_0_r.
      destruct fuel; cbn [calibration_download_loop].
      + unfold ret. rewrite set_bytes_nil. cbn in Hs |- *. rewrite app_nil_r. repeat split; auto.
      + rewrite (proj2 (Z.ltb_ge pos pos)) by lia. cbn [negb]. unfold ret.
        rewrite set_bytes_nil. cbn in Hs |- *. rewrite app_nil_r. repeat split; auto. }
    set (r := x :: r') in *.
    assert (Hc : chunks56 (S n) r = firstn 56 r :: chunks56 n (skipn 56 r)) by reflexivity.
    rewrite Hc in Hf, Hs |- *.
    destruct fuel as [|fuel]; [cbn in Hf; lia|]. cbn [length] in Hf.
    set (seg := firstn 56 r) in *.
    assert (Hlr : length r <> 0%nat) by (subst r; cbn; lia).
    assert (Hseg : length seg = Z.to_nat (Z.min 56 (pos + Z.of_nat (length r) - pos))).
    { subst seg. rewrite length_firstn. lia. }
    cbn [flat_map] in Hs. unfold segment_replies in Hs. cbn [app] in Hs.
    destruct (download_step fuel pos (pos + Z.of_nat (length r)) buf w h seg
                (flat_map (segment_replies h) (chunks56 n (skipn 56 r)) ++ rest)
                ltac:(lia) HL Hsp Hh Hseg Hs) as (w1 & Hs1 & Hl1 & Hsp1 & Hd1 & Heq).
    rewrite Heq.
    assert (Hsplit : seg ++ skipn 56 r = r) by apply firstn_skipn.
    assert (HL' : pos + Z.of_nat (length r) =
                  (pos + Z.of_nat (length seg)) + Z.of_nat (length (skipn 56 r))).
    { rewrite <- Hsplit at 1. rewrite length_app. lia. }
    assert (Hlen : (length seg + length (skipn 56 r))%nat = length r).
    { rewrite <- length_app, Hsplit. reflexivity. }
    assert (Hb1 : (Z.to_nat (pos + Z.of_nat (length seg)) + length (skipn 56 r)
                   <= length (set_bytes (Z.to_nat pos) seg buf))%nat).
    { rewrite length_set_bytes; lia. }
    specialize (IH (skipn 56 r) (pos + Z.of_nat (length seg)) (set_bytes (Z.to_nat pos) seg buf)
                   w1 fuel rest ltac:(rewrite length_skipn; lia) ltac:(lia) ltac:(lia)
                   Hb1 Hh Hsp1 ltac:(lia) Hs1).
    rewrite HL'.
    destruct (calibration_download_loop _ _ _ _ _) as [[p b] w'].
    destruct IH as (Hp & Hbuf & Hs' & Hl' & Hd').
    split; [lia|]. split.
    { rewrite Hbuf. replace (Z.to_nat (pos + Z.of_nat (length seg)))
        with (Z.to_nat pos + length seg)%nat by lia.
      rewrite set_bytes_compose by lia. rewrite Hsplit. reflexivity. }
    split; [exact Hs'|]. split.
    { rewrite Hl', Hl1. cbn [flat_map]. unfold segment_events at 1.
      rewrite <- app_assoc. reflexivity. }
    rewrite Hd', Hd1. reflexivity.
Qed.

(** X15: the segment loop of [device_imu_open] downloads a blob of any
    length below [2^32] that the device serves in 56-byte segments: it asks
    for one segment per request, ends at the blob's length, and the buffer
    holds the blob followed by its old tail. *)
Theorem calibration_download_any_length {E : Ext} (blob h buf : list Z) (w : world)
        (rest : list reply) :
  Z.of_nat (length blob) < 2 ^ 32 -> (length blob <= length buf)%nat ->
  length h = 7%nat -> length (w_send_packet w) = 64%nat ->
  w_script w = flat_map (segment_replies h) (chunks56 (length blob) blob) ++ rest ->
  let '((p, b), w') :=
    calibration_download_loop (length blob) 0 (Z.of_nat (length blob)) buf w in
  p = Z.of_nat (length blob) /\ b = blob ++ skipn (length blob) buf /\
  (length blob <= 56 * length (chunks56 (length blob) blob) < length blob + 56)%nat /\
  w_script w' = rest /\
  w_log w' = w_log w ++ flat_map segment_events (chunks56 (length blob) blob) /\
  w_device w' = w_device w.
Proof.
  intros HL Hb Hh Hsp Hs.
  pose proof (download_all h (length blob) blob 0 buf w (length blob) rest
                (le_n _) ltac:(lia) ltac:(lia) ltac:(cbn; lia) Hh Hsp
                (chunks56_le _ _ (le_n _)) Hs) as H.
  rewrite Z.add_0_l in H.
  destruct (calibration_download_loop _ _ _ _ _) as [[p b] w'].
  destruct H as (Hp & Hbuf & Hs' & Hl' & Hd').
  split; [exact Hp|]. split.
  { rewrite Hbuf. apply set_bytes_0. }
  split; [apply chunks56_count; lia|].
  split; [exact Hs'|]. split; [exact Hl'|exact Hd'].
Qed.


Lemma digits2_pos_size (p : positive) : digits2_pos p = Pos.size p.
Proof. induction p; cbn; congruence. Qed.

Lemma size_bounds (p : positive) :
  2 ^ (Zpos (Pos.size p) - 1) <= Zpos p < 2 ^ Zpos (Pos.size p).
Proof.
  pose proof (Pos.size_gt p) as H1. pose proof (Pos.size_le p) as H2.
  apply Pos2Z.pos_lt_pos in H1. apply Pos2Z.pos_le_pos in H2.
  rewrite (Pos2Z.inj_xO p) in H2. rewrite Pos2Z.inj_pow in H1, H2.
  split; [|exact H1].
  assert (Hs : Zpos (Pos.size p) = Zpos (Pos.size p) - 1 + 1) by lia.
  rewrite Hs, Z.pow_add_r, Z.pow_1_r in H2 by lia. lia.
Qed.

(** The fields of a bit pattern [s * 2^31 + e * 2^23 + m]. *)
Lemma bits_fields (s : bool) (e m : Z) :
  0 <= e < 256 -> 0 <= m < 2 ^ 23 ->
  let b := (if s then 2 ^ 31 else 0) + (e * 2 ^ 23 + m) in
  Z.testbit b 31 = s /\ Z.land (Z.shiftr b 23) 255 = e /\ Z.land b (2 ^ 23 - 1) = m.
Proof.
  intros He Hm b.
  set (S := if s then 1 else 0).
  assert (HS : 0 <= S <= 1) by (subst S; destruct s; lia).
  assert (Hb : b = S * 2 ^ 31 + (e * 2 ^ 23 + m)) by (subst b S; destruct s; reflexivity).
  change 255 with (Z.ones 8). change (2 ^ 23 - 1) with (Z.ones 23).
  rewrite !Z.land_ones by lia. rewrite Z.shiftr_div_pow2 by lia.
  rewrite Z.testbit_eqb by lia.
  assert (D31 : b / 2 ^ 31 = S).
  { symmetry. apply Z.div_unique with (e * 2 ^ 23 + m); pow_consts; lia. }
  assert (D23 : b / 2 ^ 23 = S * 2 ^ 8 + e).
  { symmetry. apply Z.div_unique with m; pow_consts; lia. }
  split; [|split].
  - rewrite D31, Z.mod_small by lia. subst S. destruct s; reflexivity.
  - rewrite D23. symmetry. apply Z.mod_unique with S; pow_consts; lia.
  - symmetry. apply Z.mod_unique with (S * 2 ^ 8 + e); pow_consts; lia.
Qed.

Lemma float_bits_round_trip (x : float) :
  valid_binary prec32 emax32 x = true ->
  float_of_bits (float_bits x) = x /\ 0 <= float_bits x < 2 ^ 32.
Proof.
  intros Hv. unfold float_of_bits.
  destruct x as [s|s| |s m e].
  - replace (float_bits (S754_zero s)) with ((if s then 2 ^ 31 else 0) + (0 * 2 ^ 23 + 0))
      by (destruct s; reflexivity).
    destruct (bits_fields s 0 0) as (A & B & C); try lia. cbv zeta in A, B, C.
    rewrite A, B, C. split; [reflexivity|destruct s; pow_consts; lia].
  - replace (float_bits (S754_infinity s)) with ((if s then 2 ^ 31 else 0) + (255 * 2 ^ 23 + 0))
      by (destruct s; reflexivity).
    destruct (bits_fields s 255 0) as (A & B & C); try lia. cbv zeta in A, B, C.
    rewrite A, B, C. split; [reflexivity|destruct s; pow_consts; lia].
  - replace (float_bits S754_nan) with ((if false then 2 ^ 31 else 0) + (255 * 2 ^ 23 + 2 ^ 22))
      by reflexivity.
    destruct (bits_fields false 255 (2 ^ 22)) as (A & B & C); try (pow_consts; lia).
    cbv zeta in A, B, C. rewrite A, B, C. split; [reflexivity|pow_consts; lia].
  - cbv [valid_binary bounded canonical_mantissa fexp emin prec32 emax32] in Hv.
    apply andb_prop in Hv as [Hc He]. apply Z.eqb_eq in Hc. apply Z.leb_le in He.
    rewrite digits2_pos_size in Hc.
    pose proof (size_bounds m) as [Lo Hi].
    set (k := Zpos (Pos.size m)) in *.
    assert (Hk : 1 <= k) by (subst k; lia).
    unfold float_bits.
    destruct (Z.ltb_spec (Zpos m) (2 ^ 23)) as [Hm|Hm].
    + assert (k <= 23).
      { destruct (Z_le_gt_dec k 23) as [|Hk']; [assumption|].
        assert (2 ^ 23 <= 2 ^ (k - 1)) by (apply Z.pow_le_mono_r; lia). lia. }
      assert (Ee : e = -149) by lia. subst e.
      replace ((if s then 2 ^ 31 else 0) + Zpos m)
        with ((if s then 2 ^ 31 else 0) + (0 * 2 ^ 23 + Zpos m)) by lia.
      destruct (bits_fields s 0 (Zpos m)) as (A & B & C); try lia. cbv zeta in A, B, C.
      rewrite A, B, C. split; [reflexivity|destruct s; pow_consts; lia].
    + assert (k >= 24).
      { destruct (Z_le_gt_dec k 23) as [Hk'|]; [|lia].
        assert (2 ^ k <= 2 ^ 23) by (apply Z.pow_le_mono_r; lia). lia. }
      assert (Ek : k = 24) by lia. rewrite Ek in Hi, Lo.
      destruct (bits_fields s (e + 150) (Zpos m - 2 ^ 23)) as (A & B & C);
        try (pow_consts; lia).
      cbv zeta in A, B, C. rewrite A, B, C.
      rewrite (proj2 (Z.eqb_neq (e + 150) 255)) by lia.
      rewrite (proj2 (Z.eqb_neq (e + 150) 0)) by lia.
      rewrite Z.sub_add. replace (e + 150 - 150) with e by lia.
      split; [reflexivity|destruct s; pow_consts; lia].
Qed.


Lemma length_calibration_floats (c : device_imu_calibration_type) :
  length (calibration_floats c) = 61%nat.
Proof. reflexivity. Qed.

Lemma length_calibration_image (c : device_imu_calibration_type) :
  length (calibration_image c) = 244%nat.
Proof. reflexivity. Qed.

Lemma calibration_of_floats_floats (c : device_imu_calibration_type) :
  calibration_of_floats (calibration_floats c) = c.
Proof.
  destruct c as [[] [] [] [] [] [] [] [] [] [] [] []]. reflexivity.
Qed.

Lemma nth_floats_of_floats (l : list float) (i : nat) :
  length l = 61%nat -> (i < 61)%nat ->
  nth i (calibration_floats (calibration_of_floats l)) f_zero = nth i l f_zero.
Proof.
  intros Hl Hi.
  do 61 (destruct l as [|? l]; [discriminate|]). destruct l; [|discriminate].
  do 61 (destruct i as [|i]; [reflexivity|]). lia.
Qed.

Lemma get_bytes_image (l : list float) (i : nat) :
  (i < length l)%nat ->
  get_bytes (4 * i) 4 (flat_map (fun x => le32 (float_bits x)) l) =
  le32 (float_bits (nth i l f_zero)).
Proof.
  revert i. induction l as [|x l IH]; intros i Hi; [cbn in Hi; lia|].
  destruct i as [|i].
  - reflexivity.
  - cbn [flat_map nth]. replace (4 * S i)%nat with (4 + 4 * i)%nat by lia.
    unfold get_bytes in *. rewrite skipn_app.
    change (length (le32 (float_bits x))) with 4%nat.
    rewrite skipn_all2 by (cbn; lia). cbn [app].
    replace (4 + 4 * i - 4)%nat with (4 * i)%nat by lia.
    apply IH. cbn in Hi. lia.
Qed.

Lemma le_value_le32 (v : Z) : 0 <= v < 2 ^ 32 -> le_value (le32 v) = v.
Proof.
  intros Hv. rewrite le32_bytes. unfold le_value. cbn [fold_right].
  pose proof (Z.div_mod v 256 ltac:(lia)) as D1.
  pose proof (Z.div_mod (v / 256) 256 ltac:(lia)) as D2.
  pose proof (Z.div_mod (v / 256 / 256) 256 ltac:(lia)) as D3.
  assert (G : 0 <= v / 256 / 256 / 256 < 256).
  { split; [apply Z.div_pos; [apply Z.div_pos; [apply Z.div_pos|]|]; lia|].
    rewrite !Z.div_div by lia. apply Z.div_lt_upper_bound; pow_consts; lia. }
  rewrite (Z.mod_small (v / 256 / 256 / 256)) by lia. lia.
Qed.

Lemma nth_map_seq {A : Type} (f : nat -> A) (n i : nat) (d : A) :
  (i < n)%nat -> nth i (map f (seq 0 n)) d = f i.
Proof.
  intros H. rewrite nth_indep with (d' := f 0%nat) by (rewrite length_map, length_seq; lia).
  rewrite map_nth, seq_nth by lia. reflexivity.
Qed.

Lemma nth_calibration_of_image (bytes : list Z) (i : nat) :
  (i < 61)%nat ->
  nth i (calibration_floats (calibration_of_image bytes)) f_zero =
  float_of_bits (le_value (get_bytes (4 * i) 4 bytes)).
Proof.
  intros Hi. unfold calibration_of_image.
  rewrite nth_floats_of_floats by (rewrite ?length_map, ?length_seq; lia).
  rewrite nth_map_seq by lia. reflexivity.
Qed.

Lemma image_float (c : device_imu_calibration_type) (i : nat) :
  valid_calibration c = true -> (i < 61)%nat ->
  float_of_bits (le_value (get_bytes (4 * i) 4 (calibration_image c))) =
  nth i (calibration_floats c) f_zero.
Proof.
  intros Hv Hi. unfold calibration_image.
  rewrite get_bytes_image by (rewrite length_calibration_floats; lia).
  assert (Hx : valid_binary prec32 emax32 (nth i (calibration_floats c) f_zero) = true).
  { unfold valid_calibration in Hv. rewrite forallb_forall in Hv. apply Hv.
    apply nth_In. rewrite length_calibration_floats. lia. }
  destruct (float_bits_round_trip _ Hx) as [Hr Hb].
  rewrite le_value_le32 by exact Hb. exact Hr.
Qed.

Lemma calibration_image_round_trip (c : device_imu_calibration_type) :
  valid_calibration c = true -> calibration_of_image (calibration_image c) = c.
Proof.
  intros Hv. rewrite <- (calibration_of_floats_floats c) at 2.
  unfold calibration_of_image. f_equal.
  apply nth_ext with (d := f_zero) (d' := f_zero).
  { rewrite length_map, length_seq. reflexivity. }
  intros i Hi. rewrite length_map, length_seq in Hi.
  rewrite nth_map_seq by lia.
  apply image_float; assumption.
Qed.

Lemma get_bytes_past_prefix (bs buf : list Z) (o k : nat) :
  (length bs <= o)%nat -> get_bytes o k (bs ++ skipn (length bs) buf) = get_bytes o k buf.
Proof.
  intros H. unfold get_bytes. rewrite skipn_app, skipn_all2 by lia. cbn [app].
  rewrite skipn_skipn. f_equal. f_equal. lia.
Qed.

(** X18: [device_imu_load_calibration] fails with NO_DEVICE,
    NO_ALLOCATION or FILE_NOT_OPEN without changes; otherwise it overwrites
    the calibration with the file's first 244 bytes (the floats past a short
    file keep their values), and reports LOADING_FAILED for a short file and
    FILE_NOT_CLOSED when [fclose] fails. *)
Theorem device_imu_load_calibration_outcome {E : Ext} (file : option (list Z))
        (fclose_ok : bool) (w : world) :
  let '(r, w') := device_imu_load_calibration file fclose_ok w in
  match w_device w with
  | None => r = DEVICE_IMU_ERROR_NO_DEVICE /\ w' = w
  | Some d =>
  match calibration d with
  | None => r = DEVICE_IMU_ERROR_NO_ALLOCATION /\ w' = w
  | Some c =>
  match file with
  | None => r = DEVICE_IMU_ERROR_FILE_NOT_OPEN /\ w' = w
  | Some contents =>
      r = (if negb fclose_ok then DEVICE_IMU_ERROR_FILE_NOT_CLOSED
           else if (244 <=? length contents)%nat then DEVICE_IMU_ERROR_NO_ERROR
           else DEVICE_IMU_ERROR_LOADING_FAILED) /\
      w_script w' = w_script w /\ w_log w' = w_log w /\
      exists c', w_device w' = Some (with_calibration (Some c') d) /\
      (forall i, (4 * i + 4 <= length contents)%nat -> (i < 61)%nat ->
         nth i (calibration_floats c') f_zero =
         float_of_bits (le_value (get_bytes (4 * i) 4 contents))) /\
      (valid_calibration c = true ->
       forall i, (length contents <= 4 * i)%nat -> (i < 61)%nat ->
         nth i (calibration_floats c') f_zero = nth i (calibration_floats c) f_zero)
  end
  end
  end.
Proof.
  unfold device_imu_load_calibration. rewrite bind_run. change (get_world w) with (w, w).
  cbv beta iota.
  destruct (w_device w) as [d|]; [|unfold ret; cbv beta iota; split; reflexivity].
  destruct (calibration d) as [c|]; [|unfold ret; cbv beta iota; split; reflexivity].
  destruct file as [contents|]; [|unfold ret; cbv beta iota; split; reflexivity].
  unfold sizeof_device_imu_calibration_type.
  set (B := firstn (Z.to_nat 244) contents).
  assert (HB : length B = Nat.min 244 (length contents)) by (subst B; apply length_firstn).
  set (c' := calibration_of_image (set_bytes 0 B (calibration_image c))).
  assert (F1 : forall i, (4 * i + 4 <= length contents)%nat -> (i < 61)%nat ->
            nth i (calibration_floats c') f_zero =
            float_of_bits (le_value (get_bytes (4 * i) 4 contents))).
  { intros i Hi H61. subst c'. rewrite nth_calibration_of_image by exact H61.
    rewrite get_bytes_set_bytes_0 by lia. subst B.
    rewrite get_bytes_firstn by lia. reflexivity. }
  assert (F2 : valid_calibration c = true ->
            forall i, (length contents <= 4 * i)%nat -> (i < 61)%nat ->
            nth i (calibration_floats c') f_zero = nth i (calibration_floats c) f_zero).
  { intros Hv i Hi H61. subst c'. rewrite nth_calibration_of_image by exact H61.
    rewrite set_bytes_0, get_bytes_past_prefix by lia.
    apply image_float; assumption. }
  clearbody c'.
  rewrite bind_run. unfold put_device, modify. cbv beta iota.
  assert (R : (if negb (244 =? Z.of_nat (length B)) then DEVICE_IMU_ERROR_LOADING_FAILED
               else DEVICE_IMU_ERROR_NO_ERROR) =
              (if (244 <=? length contents)%nat then DEVICE_IMU_ERROR_NO_ERROR
               else DEVICE_IMU_ERROR_LOADING_FAILED)).
  { destruct (Nat.leb_spec 244 (length contents)).
    - rewrite (proj2 (Z.eqb_eq _ _)) by lia. reflexivity.
    - rewrite (proj2 (Z.eqb_neq _ _)) by lia. reflexivity. }
  destruct fclose_ok; cbn [negb]; unfold ret; cbv beta iota;
    [rewrite R|]; (split; [reflexivity|]); (split; [reflexivity|]); (split; [reflexivity|]);
    exists c'; (split; [reflexivity|]); split; assumption.
Qed.

(** X19: [device_imu_save_calibration] never changes the session; it
    fails with NO_DEVICE, NO_ALLOCATION or FILE_NOT_OPEN without writing,
    and otherwise writes the calibration's 244 bytes (as many as [fwrite]
    accepts), reporting SAVING_FAILED on a short write and FILE_NOT_CLOSED
    when [fclose] fails. *)
Theorem device_imu_save_calibration_outcome {E : Ext} (fopen_ok : bool) (accepted : nat)
        (fclose_ok : bool) (w : world) :
  let '((r, file), w') := device_imu_save_calibration fopen_ok accepted fclose_ok w in
  w' = w /\
  match w_device w with
  | None => r = DEVICE_IMU_ERROR_NO_DEVICE /\ file = None
  | Some d =>
  match calibration d with
  | None => r = DEVICE_IMU_ERROR_NO_ALLOCATION /\ file = None
  | Some c =>
      if negb fopen_ok then r = DEVICE_IMU_ERROR_FILE_NOT_OPEN /\ file = None
      else file = Some (firstn accepted (calibration_image c)) /\
           r = (if negb fclose_ok then DEVICE_IMU_ERROR_FILE_NOT_CLOSED
                else if (244 <=? accepted)%nat then DEVICE_IMU_ERROR_NO_ERROR
                else DEVICE_IMU_ERROR_SAVING_FAILED)
  end
  end.
Proof.
  unfold device_imu_save_calibration. rewrite bind_run. change (get_world w) with (w, w).
  cbv beta iota.
  destruct (w_device w) as [d|]; [|unfold ret; cbv beta iota; repeat split].
  destruct (calibration d) as [c|]; [|unfold ret; cbv beta iota; repeat split].
  destruct fopen_ok; cbn [negb]; [|unfold ret; cbv beta iota; repeat split].
  unfold sizeof_device_imu_calibration_type.
  rewrite length_firstn, length_calibration_image.
  assert (R : (if negb (244 =? Z.of_nat (Nat.min accepted 244)) then DEVICE_IMU_ERROR_SAVING_FAILED
               else DEVICE_IMU_ERROR_NO_ERROR) =
              (if (244 <=? accepted)%nat then DEVICE_IMU_ERROR_NO_ERROR
               else DEVICE_IMU_ERROR_SAVING_FAILED)).
  { destruct (Nat.leb_spec 244 accepted).
    - rewrite (proj2 (Z.eqb_eq _ _)) by lia. reflexivity.
    - rewrite (proj2 (Z.eqb_neq _ _)) by lia. reflexivity. }
  destruct fclose_ok; cbn [negb]; unfold ret; cbv beta iota; [rewrite R|]; repeat split.
Qed.

(** X20: a calibration saved in full and loaded into a session that has
    a calibration allocated comes back unchanged, when each of its floats
    is a well-formed binary32 value ([valid_calibration]). *)
Theorem save_then_load_restores_calibration {E : Ext} (accepted : nat) (w1 w2 : world)
        (d1 d2 : device_imu_type) (c c2 : device_imu_calibration_type) :
  (244 <= accepted)%nat ->
  w_device w1 = Some d1 -> calibration d1 = Some c -> valid_calibration c = true ->
  w_device w2 = Some d2 -> calibration d2 = Some c2 ->
  let '((r, file), _) := device_imu_save_calibration true accepted true w1 in
  r = DEVICE_IMU_ERROR_NO_ERROR /\
  let '(r', w2') := device_imu_load_calibration file true w2 in
  r' = DEVICE_IMU_ERROR_NO_ERROR /\ w_device w2' = Some (with_calibration (Some c) d2).
Proof.
  intros Ha Hd1 Hc1 Hv Hd2 Hc2.
  unfold device_imu_save_calibration. rewrite bind_run. change (get_world w1) with (w1, w1).
  cbv beta iota. rewrite Hd1, Hc1. cbn [negb].
  rewrite firstn_all2 by (rewrite length_calibration_image; lia).
  rewrite length_calibration_image. unfold ret. cbv beta iota. split; [reflexivity|].
  unfold device_imu_load_calibration. rewrite bind_run. change (get_world w2) with (w2, w2).
  cbv beta iota. rewrite Hd2, Hc2. unfold sizeof_device_imu_calibration_type.
  rewrite firstn_all2 by (rewrite length_calibration_image; lia).
  rewrite set_bytes_0, length_calibration_image.
  rewrite skipn_all2 by (rewrite length_calibration_image; lia). rewrite app_nil_r.
  rewrite calibration_image_round_trip by exact Hv.
  rewrite bind_run. unfold put_device, modify. cbv beta iota. cbn [negb].
  unfold ret. split; reflexivity.
Qed.

Section Preserve.
Context {E : Ext}.
Variable P : device_imu_type -> Prop.
Hypothesis P_calibration : forall c d, P d -> P (with_calibration (Some c) d).
Hypothesis P_sample : forall ts t d, P d -> P (with_sample ts t d).
Hypothesis P_offset : forall o d, P d -> P (with_offset o d).
Hypothesis P_ahrs : forall a d, P d -> P (with_ahrs a d).
Hypothesis P_static_id : forall s d, P d -> P (with_static_id s d).


Lemma keepsP_of_keeps {A : Type} (m : M A) : keeps_device m -> keepsP P m.
Proof. intros H w (d & Hd & Hp). exists d. rewrite H. auto. Qed.

Lemma keepsP_bind {A B : Type} (m : M A) (k : A -> M B) :
  keepsP P m -> (forall a, keepsP P (k a)) -> keepsP P (bind m k).
Proof.
  intros Hm Hk w Hw. unfold bind. specialize (Hm w Hw).
  destruct (m w) as [a w1]. apply Hk. exact Hm.
Qed.

Lemma keepsP_bind_res {A B : Type} (m : M A) (k : A -> M B) (Q : A -> Prop) :
  keepsP P m -> (forall w, Q (fst (m w))) -> (forall a, Q a -> keepsP P (k a)) ->
  keepsP P (bind m k).
Proof.
  intros Hm HQ Hk w Hw. unfold bind. specialize (Hm w Hw). specialize (HQ w).
  destruct (m w) as [a w1]. apply Hk; assumption.
Qed.

Lemma keepsP_put (d : device_imu_type) : P d -> keepsP P (put_device d).
Proof. intros Hp w _. exists d. split; [reflexivity|exact Hp]. Qed.

Lemma keepsP_get_world {A : Type} (k : world -> M A) :
  (forall w d, w_device w = Some d -> P d -> keepsP P (k w)) -> keepsP P (bind get_world k).
Proof.
  intros H w Hw. pose proof Hw as (d & Hd & Hp). unfold bind, get_world.
  exact (H w d Hd Hp w Hw).
Qed.

Lemma keepsP_get_device {A : Type} (k : device_imu_type -> M A) :
  (forall d, P d -> keepsP P (k d)) -> keepsP P (bind get_device k).
Proof.
  intros H w Hw. pose proof Hw as (d & Hd & Hp). unfold bind, get_device. rewrite Hd.
  exact (H d Hp w Hw).
Qed.

End Preserve.

Lemma keeps_send_payload {E : Ext} (size : Z) (payload : list Z) :
  keeps_device (send_payload size payload).
Proof.
  unfold send_payload, hid_write, log_event.
  repeat (keeps_step || (apply keeps_modify; reflexivity)).
Qed.

Lemma keeps_send_payload_msg {E : Ext} (msgid len : Z) (data : list Z) :
  keeps_device (send_payload_msg msgid len data).
Proof.
  unfold send_payload_msg.
  apply keeps_bind; [auto with keeps|intros w].
  apply keeps_bind; [apply keeps_modify; reflexivity|intros _].
  apply keeps_send_payload.
Qed.

Lemma keeps_recv_payload {E : Ext} (size : Z) : keeps_device (recv_payload size).
Proof.
  unfold recv_payload.
  repeat (keeps_step || (apply keeps_modify; reflexivity)).
Qed.

Lemma keeps_recv_payload_msg {E : Ext} (msgid len : Z) :
  keeps_device (recv_payload_msg msgid len).
Proof.
  unfold recv_payload_msg.
  apply keeps_bind; [auto with keeps|intros w].
  apply keeps_bind; [apply keeps_recv_payload|intros [ok bytes]].
  apply keeps_bind; [apply keeps_modify; reflexivity|intros _].
  repeat keeps_step.
Qed.

Lemma keeps_download_loop {E : Ext} (fuel : nat) (position len : Z) (buf : list Z) :
  keeps_device (calibration_download_loop fuel position len buf).
Proof.
  revert position buf. induction fuel as [|fuel IH]; intros position buf; cbn [calibration_download_loop].
  - auto with keeps.
  - destruct (negb (position <? len)); [auto with keeps|].
    apply keeps_bind; [apply keeps_send_payload_msg|intros ok].
    destruct (negb ok); [auto with keeps|].
    apply keeps_bind; [apply keeps_recv_payload_msg|intros r].
    destruct r; [apply IH|auto with keeps].
Qed.

Section OpenPreserve.
Context {E : Ext}.
Variable P : device_imu_type -> Prop.
Hypothesis P_calibration : forall c d, P d -> P (with_calibration (Some c) d).
Hypothesis P_sample : forall ts t d, P d -> P (with_sample ts t d).
Hypothesis P_offset : forall o d, P d -> P (with_offset o d).
Hypothesis P_ahrs : forall a d, P d -> P (with_ahrs a d).
Hypothesis P_static_id : forall s d, P d -> P (with_static_id s d).

Ltac keepsP_step :=
  match goal with
  | |- keepsP P (bind get_world _) => apply keepsP_get_world; intros ? ? ? ?
  | |- keepsP P (bind get_device _) => apply keepsP_get_device; intros ? ?
  | |- keepsP P (bind (put_device _) _) =>
      apply keepsP_bind; [apply keepsP_put; auto|intros _]
  | |- keepsP P (put_device _) => apply keepsP_put; auto
  | |- keepsP P (bind (send_payload_msg _ _ _) _) =>
      apply keepsP_bind; [apply keepsP_of_keeps, keeps_send_payload_msg|intros ?]
  | |- keepsP P (bind (recv_payload_msg _ _) _) =>
      apply keepsP_bind; [apply keepsP_of_keeps, keeps_recv_payload_msg|intros ?]
  | |- keepsP P (bind (calibration_download_loop _ _ _ _) _) =>
      apply keepsP_bind; [apply keepsP_of_keeps, keeps_download_loop|intros ?]
  | |- keepsP P (bind (hid_read_timeout _ _) _) =>
      apply keepsP_bind; [apply keepsP_of_keeps, keeps_hid_read|intros ?]
  | |- keepsP P (bind (device_imu_callback _ _ _) _) =>
      apply keepsP_bind; [apply keepsP_of_keeps; unfold device_imu_callback;
                          repeat (keeps_step || (apply keeps_modify; reflexivity))|intros ?]
  | |- keepsP P (ret _) => apply keepsP_of_keeps, keeps_ret
  | |- keepsP P (if ?c then _ else _) => destruct c
  | |- keepsP P (let '(_, _) := ?x in _) => destruct x
  | |- keepsP P (match ?x with _ => _ end) => destruct x
  end.

Lemma apply_calibration_device (d : device_imu_type) (g a m : FusionVector) (w : world) :
  P d -> P (snd (fst (apply_calibration d g a m w))).
Proof.
  intros Hp. unfold apply_calibration, iterate_iron_offset_estimation, bind, get_world,
    modify, ret.
  destruct (iron_step _ _ _) as [[mx mn] [soft hard]].
  cbv beta iota zeta. destruct (calibration d); cbn; auto.
Qed.

Lemma keepsP_read (timeout : Z) : keepsP P (device_imu_read timeout).
Proof.
  unfold device_imu_read, device_imu_read_with.
  apply keepsP_get_world. intros w d Hd Hp. rewrite Hd.
  repeat keepsP_step.
  all: try (destruct (readIMU_from_packet _) as [[g a] m]).
  all: try (apply (keepsP_bind_res _ _ _ (fun r => P (snd r)));
            [apply keepsP_of_keeps; unfold apply_calibration, iterate_iron_offset_estimation;
             repeat (keeps_step || (apply keeps_modify; reflexivity))
            |intros w'; apply apply_calibration_device; auto
            |intros [[[g1 a1] m1] d1] Hd1; cbn [snd] in Hd1]).
  all: try (destruct (offset d1) as [o|]; [destruct (FusionOffsetUpdate o g1) as [o' g']|];
            cbv beta iota).
  all: repeat keepsP_step.
  all: auto.
Qed.

Lemma keepsP_open_static_id : keepsP P open_static_id.
Proof. unfold open_static_id. repeat keepsP_step. Qed.

Lemma keepsP_reset_calibration : keepsP P device_imu_reset_calibration.
Proof.
  unfold device_imu_reset_calibration.
  apply keepsP_get_world. intros w d Hd Hp. rewrite Hd. repeat keepsP_step.
Qed.

Lemma keepsP_open_calibration_download : keepsP P open_calibration_download.
Proof. unfold open_calibration_download. repeat keepsP_step. Qed.

Lemma open_start_stream_ok (w w' : world) :
  devP P w -> open_start_stream w = (DEVICE_IMU_ERROR_NO_ERROR, w') ->
  exists d', w_device w' = Some d' /\ P d' /\
    offset d' = Some (FusionOffsetInitialise SAMPLE_RATE) /\
    ahrs d' = Some (FusionAhrsSetSettings FusionAhrsInitialise open_settings).
Proof.
  intros Hw H. unfold open_start_stream, bind, ret, get_device, put_device, modify in H.
  pose proof (keepsP_of_keeps P _ (keeps_send_payload_msg DEVICE_IMU_MSG_START_IMU_DATA 1 [1]) w Hw)
    as Hw1.
  unfold send_payload_msg_signal in H.
  destruct (send_payload_msg DEVICE_IMU_MSG_START_IMU_DATA 1 [1] w) as [ok w1]; cbn [snd] in Hw1.
  destruct ok; cbn in H; [|discriminate].
  destruct Hw1 as (d & Hd & Hp). rewrite Hd in H. injection H as <-.
  eexists; split; [reflexivity|]. cbn. auto.
Qed.
End OpenPreserve.

Lemma open_static_id_result {E : Ext} (w : world) :
  fst (open_static_id w) <> Some DEVICE_IMU_ERROR_NO_ERROR.
Proof.
  unfold open_static_id, bind, ret, get_device, put_device, modify.
  destruct (send_payload_msg _ _ _ w) as [ok w1]. destruct ok; cbn [negb].
  - destruct (recv_payload_msg _ _ w1) as [[b|] w2]; cbn; discriminate.
  - cbn. discriminate.
Qed.

Lemma open_calibration_download_result {E : Ext} (w : world) :
  fst (open_calibration_download w) <> Some DEVICE_IMU_ERROR_NO_ERROR.
Proof.
  unfold open_calibration_download, bind, ret, get_device, put_device, modify.
  destruct (send_payload_msg _ _ _ w) as [ok w1]. destruct ok; cbn [negb].
  - destruct (recv_payload_msg _ _ w1) as [[b|] w2]; [|cbn; discriminate].
    destruct (calibration_download_loop _ _ _ _ w2) as [[p cd] w3].
    destruct (calibration _); cbn; discriminate.
  - cbn. discriminate.
Qed.


Lemma open_after_static_id_ok {E : Ext} (cb : bool) (pid : Z) (w w' : world) :
  devP (open_ids cb pid) w ->
  open_after_static_id w = (DEVICE_IMU_ERROR_NO_ERROR, w') ->
  exists d', w_device w' = Some d' /\ open_ids cb pid d' /\ calibration d' <> None /\
    offset d' = Some (FusionOffsetInitialise SAMPLE_RATE) /\
    ahrs d' = Some (FusionAhrsSetSettings FusionAhrsInitialise open_settings).
Proof.
  set (Q := fun d => open_ids cb pid d /\ calibration d <> None).
  assert (Qc : forall c d, Q d -> Q (with_calibration (Some c) d))
    by (unfold Q, open_ids; cbn; intuition discriminate).
  assert (Qs : forall ts t d, Q d -> Q (with_sample ts t d)) by (unfold Q, open_ids; cbn; tauto).
  assert (Qo : forall o d, Q d -> Q (with_offset o d)) by (unfold Q, open_ids; cbn; tauto).
  assert (Qa : forall a d, Q d -> Q (with_ahrs a d)) by (unfold Q, open_ids; cbn; tauto).
  assert (Qi : forall s d, Q d -> Q (with_static_id s d)) by (unfold Q, open_ids; cbn; tauto).
  intros (d & Hd & Hp) H. unfold open_after_static_id, bind, ret, get_device, put_device, modify in H.
  rewrite Hd in H.
  set (w1 := set_device (Some (with_calibration (Some default_calibration) d)) w) in H.
  assert (Hw1 : devP Q w1).
  { exists (with_calibration (Some default_calibration) d). split; [reflexivity|].
    unfold Q, open_ids in *; cbn; intuition discriminate. }
  assert (Hw2 : devP Q (snd (device_imu_reset_calibration w1)))
    by (eapply keepsP_reset_calibration; eauto).
  destruct (device_imu_reset_calibration w1) as [r1 w2]; cbn [snd] in Hw2.
  assert (Hw3 : devP Q (snd (open_calibration_download w2)))
    by (eapply keepsP_open_calibration_download; eauto).
  pose proof (open_calibration_download_result w2) as Hr.
  destruct (open_calibration_download w2) as [[e|] w3]; cbn [snd fst] in Hw3, Hr.
  - injection H as He _. subst e. contradiction.
  - destruct (open_start_stream_ok Q ltac:(eauto) ltac:(eauto) w3 w' Hw3 H) as (d' & Hd' & [Hq Hc] & Ho & Ha).
    exists d'. auto.
Qed.



(* ------------------------------------------------------------------ *)
(** ** The codecs on bytes *)

(** X1: on two bytes [a; b], [pack16bit_signed] is the little-endian
    16-bit two's-complement value: [a + 256 b], less [2^16] when the top
    bit of [b] is set. *)
Theorem pack16bit_signed_value (a b : Z) : is_byte a -> is_byte b ->
  pack16bit_signed [a; b] =
  if b <? 128 then a + 256 * b else a + 256 * b - 2 ^ 16.
Proof. exact (pack16bit_signed_bytes a b). Qed.

(** X2: on three bytes [a; b; c], [pack24bit_signed] sign-extends the
    little-endian 24-bit value: [a + 256 b + 65536 c], less [2^24] when the
    top bit of [c] is set. *)
Theorem pack24bit_signed_value (a b c : Z) :
  is_byte a -> is_byte b -> is_byte c ->
  pack24bit_signed [a; b; c] =
  let v := a + 256 * b + 65536 * c in
  if c <? 128 then v else v - 2 ^ 24.
Proof. exact (pack24bit_signed_bytes a b c). Qed.

(** X3: on four bytes [a; b; c; d], [pack32bit_signed] is the
    little-endian 32-bit two's-complement value. *)
Theorem pack32bit_signed_value (a b c d : Z) :
  is_byte a -> is_byte b -> is_byte c -> is_byte d ->
  pack32bit_signed [a; b; c; d] =
  let v := a + 256 * b + 65536 * c + 16777216 * d in
  if d <? 128 then v else v - 2 ^ 32.
Proof. exact (pack32bit_signed_bytes a b c d). Qed.

(** X4: [pack16bit_signed_bizarre] reads two bytes [a; b] in offset
    binary: the value is [a + 256 b - 32768] for every pair of bytes. *)
Theorem pack16bit_signed_bizarre_value (a b : Z) : is_byte a -> is_byte b ->
  pack16bit_signed_bizarre [a; b] = a + 256 * b - 2 ^ 15.
Proof. exact (pack16bit_signed_bizarre_bytes a b). Qed.

(** X5: the signed decoders invert the little-endian encoders the driver
    writes with: a value in the signed 16-, 24- or 32-bit range, stored as
    its unsigned bytes ([le16], the low three bytes of [le32], [le32]),
    decodes to itself. *)
Theorem codec_round_trips :
  (forall v, - 2 ^ 15 <= v < 2 ^ 15 -> pack16bit_signed (le16 (to_uint16 v)) = v) /\
  (forall v, - 2 ^ 23 <= v < 2 ^ 23 ->
     pack24bit_signed (firstn 3 (le32 (to_uint32 v))) = v) /\
  (forall v, - 2 ^ 31 <= v < 2 ^ 31 -> pack32bit_signed (le32 (to_uint32 v)) = v).
Proof.
  split; [exact codec_round_trip_16|split; [exact codec_round_trip_24|exact codec_round_trip_32]].
Qed.

(** X8: [recv_payload] reads one report of [min size 64] bytes; it
    succeeds exactly when [0 < size <= 64] and the report is at least
    [size] bytes long, and then returns the first [size] bytes. *)
Theorem recv_payload_outcome {E : Ext} (size : Z) (w : world) :
  0 <= size ->
  let '((ok, bytes), w') := recv_payload size w in
  w_log w' = w_log w ++ [IoRead (Z.min size 64)] /\
  w_script w' = tl (w_script w) /\ w_device w' = w_device w /\
  match w_script w with
  | RRead (Some report) :: _ =>
      bytes = firstn (Z.to_nat (Z.min size 64)) report /\
      ok = (0 <? size) && (size <=? 64) && (size <=? Z.of_nat (length report))
  | _ => ok = false
  end.
Proof. exact (recv_payload_run size w). Qed.

(* ------------------------------------------------------------------ *)
(** ** Witnesses of the properties with hypotheses *)

(** Witness of X1: the bytes [FE FF], that is -2. *)
Lemma pack16bit_signed_value_witness :
  (is_byte 254 /\ is_byte 255) /\
  pack16bit_signed [254; 255] =
  if 255 <? 128 then 254 + 256 * 255 else 254 + 256 * 255 - 2 ^ 16.
Proof.
  assert (Ha : is_byte 254) by (unfold is_byte; lia).
  assert (Hb : is_byte 255) by (unfold is_byte; lia).
  split; [auto|exact (pack16bit_signed_value 254 255 Ha Hb)].
Defined.

(** Witness of X2: the bytes [00 00 80], the least 24-bit value. *)
Lemma pack24bit_signed_value_witness :
  (is_byte 0 /\ is_byte 0 /\ is_byte 128) /\
  pack24bit_signed [0; 0; 128] =
  let v := 0 + 256 * 0 + 65536 * 128 in
  if 128 <? 128 then v else v - 2 ^ 24.
Proof.
  assert (Ha : is_byte 0) by (unfold is_byte; lia).
  assert (Hc : is_byte 128) by (unfold is_byte; lia).
  split; [auto|exact (pack24bit_signed_value 0 0 128 Ha Ha Hc)].
Defined.

(** Witness of X3: the bytes [01 02 03 84]. *)
Lemma pack32bit_signed_value_witness :
  (is_byte 1 /\ is_byte 2 /\ is_byte 3 /\ is_byte 132) /\
  pack32bit_signed [1; 2; 3; 132] =
  let v := 1 + 256 * 2 + 65536 * 3 + 16777216 * 132 in
  if 132 <? 128 then v else v - 2 ^ 32.
Proof.
  assert (Ha : is_byte 1) by (unfold is_byte; lia).
  assert (Hb : is_byte 2) by (unfold is_byte; lia).
  assert (Hc : is_byte 3) by (unfold is_byte; lia).
  assert (Hd : is_byte 132) by (unfold is_byte; lia).
  split; [auto 6|exact (pack32bit_signed_value 1 2 3 132 Ha Hb Hc Hd)].
Defined.

(** Witness of X4: the bytes [00 80], that is 0. *)
Lemma pack16bit_signed_bizarre_value_witness :
  (is_byte 0 /\ is_byte 128) /\
  pack16bit_signed_bizarre [0; 128] = 0 + 256 * 128 - 2 ^ 15.
Proof.
  assert (Ha : is_byte 0) by (unfold is_byte; lia).
  assert (Hb : is_byte 128) by (unfold is_byte; lia).
  split; [auto|exact (pack16bit_signed_bizarre_value 0 128 Ha Hb)].
Defined.

(** Witness of X7: three bytes, all accepted. *)
Lemma send_payload_outcome_witness :
  let w := Demo.world_of device_zero [RWrite 3] in
  0 <= 3 /\
  let '(ok, w') := send_payload (E:=demo_ext) 3 [1; 2; 3] w in
  w_log w' = w_log w ++ [IoWrite (firstn (Z.to_nat (Z.min 3 64)) [1; 2; 3])] /\
  w_script w' = tl (w_script w) /\ w_device w' = w_device w /\
  ok = match w_script w with
       | RWrite accepted :: _ => (accepted =? Z.min 3 64) && (3 <=? 64)
       | _ => false
       end.
Proof.
  intros w. assert (H : 0 <= 3) by lia.
  split; [exact H|exact (send_payload_outcome 3 [1; 2; 3] w H)].
Defined.

(** Witness of X8: an eight-byte read of a three-byte report. *)
Lemma recv_payload_outcome_witness :
  let w := Demo.world_of device_zero [RRead (Some [1; 2; 3])] in
  0 <= 8 /\
  let '((ok, bytes), w') := recv_payload (E:=demo_ext) 8 w in
  w_log w' = w_log w ++ [IoRead (Z.min 8 64)] /\
  w_script w' = tl (w_script w) /\ w_device w' = w_device w /\
  match w_script w with
  | RRead (Some report) :: _ =>
      bytes = firstn (Z.to_nat (Z.min 8 64)) report /\
      ok = (0 <? 8) && (8 <=? 64) && (8 <=? Z.of_nat (length report))
  | _ => ok = false
  end.
Proof.
  intros w. assert (H : 0 <= 8) by lia.
  split; [exact H|exact (recv_payload_outcome 8 w H)].
Defined.

(** Witness of X9: a 57-byte request. *)
Lemma recv_payload_msg_oversize_witness :
  let w := Demo.world_of device_zero [RRead (Some (repeat 0 64))] in
  56 < 57 <= 247 /\
  let '(r, w') := recv_payload_msg (E:=demo_ext) 21 57 w in
  r = None /\ w_log w' = w_log w ++ [IoRead 64] /\ w_script w' = tl (w_script w) /\
  w_device w' = w_device w.
Proof.
  intros w. assert (H : 56 < 57 <= 247) by lia.
  split; [exact H|exact (recv_payload_msg_oversize 21 57 w H)].
Defined.

(** Witness of X12: no iteration, only the gyroscope selected, on a
    streaming session. *)
Lemma device_imu_calibrate_selected_fields_witness :
  let d := Demo.streaming_session FUSION_IDENTITY_QUATERNION in
  let w := Demo.world_of d [] in
  (w_device w = Some d /\ calibration d = Some default_calibration) /\
  let '(_, w') := device_imu_calibrate (E:=demo_ext) 0 true false false w in
  exists c', w_device w' = Some (with_calibration (Some c') d) /\
    gyroscopeMisalignment c' = gyroscopeMisalignment default_calibration /\
    gyroscopeSensitivity c' = gyroscopeSensitivity default_calibration /\
    accelerometerMisalignment c' = accelerometerMisalignment default_calibration /\
    accelerometerSensitivity c' = accelerometerSensitivity default_calibration /\
    magnetometerMisalignment c' = magnetometerMisalignment default_calibration /\
    magnetometerSensitivity c' = magnetometerSensitivity default_calibration /\
    magnetometerOffset c' = magnetometerOffset default_calibration /\
    noises c' = noises default_calibration /\
    (true = false -> gyroscopeOffset c' = gyroscopeOffset default_calibration) /\
    (false = false -> accelerometerOffset c' = accelerometerOffset default_calibration) /\
    (false = false -> softIronMatrix c' = softIronMatrix default_calibration /\
                      hardIronOffset c' = hardIronOffset default_calibration).
Proof.
  intros d w.
  assert (H1 : w_device w = Some d) by reflexivity.
  assert (H2 : calibration d = Some default_calibration) by reflexivity.
  split; [auto|exact (device_imu_calibrate_selected_fields 0 true false false w d _ H1 H2)].
Defined.


(** Witness of X15: the 130-byte blob, in segments of 56, 56 and 18. *)
Lemma calibration_download_any_length_witness :
  let w := Demo.world_of device_zero
             (flat_map (segment_replies Demo.header) (chunks56 (length Demo.blob130) Demo.blob130)
              ++ []) in
  let buf := repeat 0 131 in
  (Z.of_nat (length Demo.blob130) < 2 ^ 32 /\ (length Demo.blob130 <= length buf)%nat /\
   length Demo.header = 7%nat /\ length (w_send_packet w) = 64%nat /\
   w_script w = flat_map (segment_replies Demo.header)
                  (chunks56 (length Demo.blob130) Demo.blob130) ++ []) /\
  let '((p, b), w') :=
    calibration_download_loop (E:=demo_ext) (length Demo.blob130) 0
      (Z.of_nat (length Demo.blob130)) buf w in
  p = Z.of_nat (length Demo.blob130) /\ b = Demo.blob130 ++ skipn (length Demo.blob130) buf /\
  (length Demo.blob130 <= 56 * length (chunks56 (length Demo.blob130) Demo.blob130)
     < length Demo.blob130 + 56)%nat /\
  w_script w' = [] /\
  w_log w' = w_log w ++ flat_map (segment_events (E:=demo_ext)) (chunks56 (length Demo.blob130) Demo.blob130) /\
  w_device w' = w_device w.
Proof.
  intros w buf.
  assert (H1 : Z.of_nat (length Demo.blob130) < 2 ^ 32) by (vm_compute; reflexivity).
  assert (H2 : (length Demo.blob130 <= length buf)%nat) by (vm_compute; lia).
  assert (H3 : length Demo.header = 7%nat) by reflexivity.
  assert (H4 : length (w_send_packet w) = 64%nat) by reflexivity.
  assert (H5 : w_script w = flat_map (segment_replies Demo.header)
                              (chunks56 (length Demo.blob130) Demo.blob130) ++ [])
    by reflexivity.
  split; [auto 6|exact (calibration_download_any_length Demo.blob130 Demo.header buf w [] H1 H2 H3 H4 H5)].
Defined.

(** Witness of X16: a streaming session. *)
Lemma device_imu_close_twice_witness :
  let d := Demo.streaming_session FUSION_IDENTITY_QUATERNION in
  let w := Demo.world_of d [] in
  w_device w = Some d /\
  let '((r1, a1), w1) := device_imu_close (E:=demo_ext) w in
  let '((r2, a2), w2) := device_imu_close (E:=demo_ext) w1 in
  r1 = DEVICE_IMU_ERROR_NO_ERROR /\ r2 = DEVICE_IMU_ERROR_NO_ERROR /\
  (In FreeCalibration a1 <-> calibration d <> None) /\
  (In FreeAhrs a1 <-> ahrs d <> None) /\
  (In FreeOffset a1 <-> offset d <> None) /\
  (In HidClose a1 <-> handle d = true) /\
  a2 = [DeviceExit] /\
  w_device w2 = Some device_zero /\
  w_script w2 = w_script w /\ w_log w2 = w_log w.
Proof.
  intros d w. assert (H : w_device w = Some d) by reflexivity.
  split; [exact H|exact (device_imu_close_twice w d H)].
Defined.

(** Witness of X17: a streaming session. *)
Lemma closed_session_refuses_witness :
  let d := Demo.streaming_session FUSION_IDENTITY_QUATERNION in
  let w := Demo.world_of d [] in
  w_device w = Some d /\
  let w1 := snd (device_imu_close (E:=demo_ext) w) in
  device_imu_read (E:=demo_ext) 10 w1 = (DEVICE_IMU_ERROR_NO_HANDLE, w1) /\
  device_imu_calibrate (E:=demo_ext) 5 true true true w1 = (DEVICE_IMU_ERROR_NO_HANDLE, w1) /\
  device_imu_reset_calibration (E:=demo_ext) w1 = (DEVICE_IMU_ERROR_NO_ALLOCATION, w1).
Proof.
  intros d w. assert (H : w_device w = Some d) by reflexivity.
  split; [exact H|exact (closed_session_refuses w d 10 5 true true true H)].
Defined.

(** Witness of X20: the default calibration, saved in full and loaded
    into another session. *)
Lemma save_then_load_restores_calibration_witness :
  let d1 := Demo.streaming_session FUSION_IDENTITY_QUATERNION in
  let c2 := with_iron FUSION_IDENTITY_MATRIX (Demo.v3 1 2 3) default_calibration in
  let d2 := with_calibration (Some c2) device_zero in
  let w1 := Demo.world_of d1 [] in
  let w2 := Demo.world_of d2 [] in
  ((244 <= 244)%nat /\ w_device w1 = Some d1 /\ calibration d1 = Some default_calibration /\
   valid_calibration default_calibration = true /\ w_device w2 = Some d2 /\
   calibration d2 = Some c2) /\
  let '((r, file), _) := device_imu_save_calibration (E:=demo_ext) true 244 true w1 in
  r = DEVICE_IMU_ERROR_NO_ERROR /\
  let '(r', w2') := device_imu_load_calibration (E:=demo_ext) file true w2 in
  r' = DEVICE_IMU_ERROR_NO_ERROR /\
  w_device w2' = Some (with_calibration (Some default_calibration) d2).
Proof.
  intros d1 c2 d2 w1 w2.
  assert (H1 : (244 <= 244)%nat) by lia.
  assert (H2 : w_device w1 = Some d1) by reflexivity.
  assert (H3 : calibration d1 = Some default_calibration) by reflexivity.
  assert (H4 : valid_calibration default_calibration = true) by (vm_compute; reflexivity).
  assert (H5 : w_device w2 = Some d2) by reflexivity.
  assert (H6 : calibration d2 = Some c2) by reflexivity.
  split; [auto 7|].
  exact (save_then_load_restores_calibration 244 w1 w2 d1 d2 _ _ H1 H2 H3 H4 H5 H6).
Defined.
